(** * api-mid-pms: token lifecycle, integration registry, webhooks, proxy

    A shallow embedding of the gateway's core:
    - [src/utils/token.ts] and [src/services/authService.ts] (token pairs,
      validation, refresh with rotation, revocation, expiry sweep),
    - [src/controllers/authController.ts] (the /auth endpoints),
    - [src/config/integrations.ts] (the integration catalogue),
    - [src/controllers/webhookController.ts] (inbound webhooks),
    - [src/transformers/*] and [src/controllers/proxyController.ts]
      (payload transformation and forwarding).

    Conventions.
    - JavaScript strings are [string] (byte strings); [Buffer.from s] is the
      list of bytes of [s].
    - An instant ([Date]) is its number of milliseconds since the epoch, in
      [Z].  The database stores instants as [toISOString()] text and compares
      them as text; for years 0000 to 9999 that rendering has a fixed width
      and its text order is the order of the instants, so the model keeps
      the millisecond count.
    - Every reading of the clock and every draw of random bytes is an
      explicit argument of the operation that performs it.
    - The external libraries (jsonwebtoken, bcrypt) are parameters of the
      section that models the service. *)

From stdpp Require Import gmap strings list.
From stdpp Require Import pretty.
From Stdlib Require Import ZArith Lia Ascii.

Local Open Scope Z_scope.
Local Set Warnings "-register-all,-clear-no-such-hyp".

(** ** Bytes, hexadecimal, base64 and percent-encoding *)

Module Encoding.

(** [Buffer.from s]: the bytes of a string. *)
Definition bytes_of_string (s : string) : list Z :=
  List.map (fun c => Z.of_N (Ascii.N_of_ascii c)) (String.list_ascii_of_string s).

Definition char_of_byte (b : Z) : ascii := Ascii.ascii_of_N (Z.to_N b).

Definition string_of_bytes (l : list Z) : string :=
  String.string_of_list_ascii (List.map char_of_byte l).

Definition nth_char (alphabet : string) (i : Z) : ascii :=
  match String.get (Z.to_nat i) alphabet with
  | Some c => c
  | None => "000"%char
  end.

Definition hex_lower : string := "0123456789abcdef".
Definition hex_upper : string := "0123456789ABCDEF".

(** [buf.toString('hex')] *)
Definition hex_of_bytes (l : list Z) : string :=
  String.string_of_list_ascii
    (List.flat_map (fun b => [nth_char hex_lower (b / 16); nth_char hex_lower (b mod 16)]) l).

Definition b64_alphabet : string :=
  "ABCDEFGHIJKLMNOPQRSTUVWXYZabcdefghijklmnopqrstuvwxyz0123456789+/".

(** [buf.toString('base64')] *)
Fixpoint base64_of_bytes (l : list Z) : list ascii :=
  match l with
  | [] => []
  | [a] =>
      [nth_char b64_alphabet (a / 4);
       nth_char b64_alphabet ((a mod 4) * 16);
       "="%char; "="%char]
  | [a; b] =>
      [nth_char b64_alphabet (a / 4);
       nth_char b64_alphabet ((a mod 4) * 16 + b / 16);
       nth_char b64_alphabet ((b mod 16) * 4);
       "="%char]
  | a :: b :: c :: rest =>
      nth_char b64_alphabet (a / 4)
      :: nth_char b64_alphabet ((a mod 4) * 16 + b / 16)
      :: nth_char b64_alphabet ((b mod 16) * 4 + c / 64)
      :: nth_char b64_alphabet (c mod 64)
      :: base64_of_bytes rest
  end.

Definition base64 (s : string) : string :=
  String.string_of_list_ascii (base64_of_bytes (bytes_of_string s)).

(** The characters [encodeURIComponent] leaves as they are. *)
Definition uri_unreserved (b : Z) : bool :=
  ((65 <=? b) && (b <=? 90)) || ((97 <=? b) && (b <=? 122))
  || ((48 <=? b) && (b <=? 57))
  || bool_decide (b ∈ [45; 95; 46; 33; 126; 42; 39; 40; 41]).

Definition encodeURIComponent (s : string) : string :=
  String.string_of_list_ascii
    (List.flat_map
       (fun b => if uri_unreserved b then [char_of_byte b]
                 else ["%"%char; nth_char hex_upper (b / 16); nth_char hex_upper (b mod 16)])
       (bytes_of_string s)).

(** [s.replace(pattern, replacement)] with a string pattern and a
    replacement free of dollar signs: the first occurrence only. *)
Definition replace_first (pattern replacement s : string) : string :=
  match String.index 0 pattern s with
  | Some i =>
      String.substring 0 i s ++ replacement
      ++ String.substring (i + String.length pattern)
                          (String.length s - (i + String.length pattern)) s
  | None => s
  end.

End Encoding.

(** ** SHA-256 (FIPS 180-4) and HMAC (RFC 2104), as [crypto.createHmac] *)

Module Hmac.

Definition w32 (x : Z) : Z := x mod 2 ^ 32.
Definition add32 (a b : Z) : Z := w32 (a + b).
Definition rotr (n x : Z) : Z := Z.lor (Z.shiftr x n) (w32 (Z.shiftl x (32 - n))).
Definition not32 (x : Z) : Z := w32 (Z.lnot x).

Definition Ch (x y z : Z) : Z := Z.lxor (Z.land x y) (Z.land (not32 x) z).
Definition Maj (x y z : Z) : Z :=
  Z.lxor (Z.lxor (Z.land x y) (Z.land x z)) (Z.land y z).
Definition Sigma0 (x : Z) : Z := Z.lxor (Z.lxor (rotr 2 x) (rotr 13 x)) (rotr 22 x).
Definition Sigma1 (x : Z) : Z := Z.lxor (Z.lxor (rotr 6 x) (rotr 11 x)) (rotr 25 x).
Definition sigma0 (x : Z) : Z := Z.lxor (Z.lxor (rotr 7 x) (rotr 18 x)) (Z.shiftr x 3).
Definition sigma1 (x : Z) : Z := Z.lxor (Z.lxor (rotr 17 x) (rotr 19 x)) (Z.shiftr x 10).

(** The primes in increasing order, found by trial division. *)
Fixpoint primes_from (fuel count : nat) (n : Z) (found : list Z) : list Z :=
  match fuel, count with
  | S fuel', S count' =>
    if forallb (fun p => negb (n mod p =? 0)) found
    then primes_from fuel' count' (n + 1) (found ++ [n])
    else primes_from fuel' count (n + 1) found
  | _, _ => found
  end.

Definition first_primes (count : nat) : list Z := primes_from 400 count 2 [].

(** The largest [r] in [lo, hi) with [r ^ k <= n], by bisection. *)
Fixpoint root_between (fuel : nat) (k n lo hi : Z) : Z :=
  match fuel with
  | O => lo
  | S fuel' =>
    let mid := (lo + hi) / 2 in
    if mid ^ k <=? n then root_between fuel' k n mid hi
    else root_between fuel' k n lo mid
  end.

(** The first 32 bits of the fractional part of the [k]-th root of [p]. *)
Definition root_fraction (k p : Z) : Z :=
  w32 (root_between 48 k (p * 2 ^ (32 * k)) 0 (2 ^ 40)).

(** The round constants: cube roots of the first 64 primes. *)
Definition K : list Z := List.map (root_fraction 3) (first_primes 64).

(** The initial hash value: square roots of the first 8 primes. *)
Definition H0 : list Z := List.map (root_fraction 2) (first_primes 8).

(** Big-endian 32-bit words of a block of bytes. *)
Fixpoint words_of_bytes (l : list Z) : list Z :=
  match l with
  | a :: b :: c :: d :: rest =>
      (((a * 256 + b) * 256 + c) * 256 + d) :: words_of_bytes rest
  | _ => []
  end.

Definition bytes_of_word (w : Z) : list Z :=
  [w / 2 ^ 24 mod 256; w / 2 ^ 16 mod 256; w / 2 ^ 8 mod 256; w mod 256].

(** The message schedule, most recent word first. *)
Fixpoint schedule (n : nat) (rw : list Z) : list Z :=
  match n with
  | O => rw
  | S n' =>
      let w := add32 (add32 (sigma1 (nth 1 rw 0)) (nth 6 rw 0))
                     (add32 (sigma0 (nth 14 rw 0)) (nth 15 rw 0)) in
      schedule n' (w :: rw)
  end.

Definition round (st : list Z) (kw : Z * Z) : list Z :=
  match st with
  | [a; b; c; d; e; f; g; h] =>
      let t1 := add32 (add32 (add32 h (Sigma1 e)) (add32 (Ch e f g) (fst kw))) (snd kw) in
      let t2 := add32 (Sigma0 a) (Maj a b c) in
      [add32 t1 t2; a; b; c; add32 d t1; e; f; g]
  | _ => st
  end.

Definition compress (h : list Z) (block : list Z) : list Z :=
  let w := List.rev (schedule 48 (List.rev (words_of_bytes block))) in
  let st := List.fold_left round (List.combine K w) h in
  List.map (fun p => add32 (fst p) (snd p)) (List.combine h st).

Definition pad (msg : list Z) : list Z :=
  let len := Z.of_nat (length msg) in
  let zeros := Z.to_nat ((55 - len) mod 64) in
  msg ++ [128] ++ List.repeat 0 zeros
      ++ List.map (fun i => (len * 8) / 2 ^ (8 * i) mod 256) [7; 6; 5; 4; 3; 2; 1; 0].

Fixpoint blocks (fuel : nat) (h : list Z) (l : list Z) : list Z :=
  match fuel, l with
  | S fuel', _ :: _ => blocks fuel' (compress h (List.firstn 64 l)) (List.skipn 64 l)
  | _, _ => h
  end.

Definition sha256 (msg : list Z) : list Z :=
  let p := pad msg in
  List.flat_map bytes_of_word (blocks (length p) H0 p).

Definition hmac_sha256 (key msg : list Z) : list Z :=
  let k := if 64 <? Z.of_nat (length key) then sha256 key else key in
  let k := k ++ List.repeat 0 (64 - length k)%nat in
  sha256 (List.map (Z.lxor 0x5c) k ++ sha256 (List.map (Z.lxor 0x36) k ++ msg)).

(** [crypto.createHmac('sha256', secret).update(payload).digest('hex')] *)
Definition hmac_sha256_hex (secret payload : string) : string :=
  Encoding.hex_of_bytes
    (hmac_sha256 (Encoding.bytes_of_string secret) (Encoding.bytes_of_string payload)).

End Hmac.

(** ** Results of operations that may throw *)

Inductive Outcome (A : Type) : Type :=
| Ok (a : A)
| Throw (msg : string).
Arguments Ok {A} a.
Arguments Throw {A} msg.

(** The double quote character, for the messages that quote a name. *)
Definition dq : string := String "034"%char EmptyString.

(** Truthiness of an optional string ([undefined] and the empty string are
  falsy). *)
Definition str_truthy (o : option string) : bool :=
  match o with
  | Some s => negb (bool_decide (s = EmptyString))
  | None => false
  end.

(** ** JavaScript values (parsed JSON bodies) *)

Module Js.

(** Numbers are the integers; the keys of an object are distinct and
    listed in enumeration order. *)
Inductive Value : Type :=
  | Undefined
  | Null
  | Bool (b : bool)
  | Num (n : Z)
  | Str (s : string)
  | Arr (l : list Value)
  | Obj (fields : list (string * Value)).

Definition truthy (v : Value) : bool :=
  match v with
  | Undefined | Null => false
  | Bool b => b
  | Num n => negb (n =? 0)
  | Str s => negb (bool_decide (s = EmptyString))
  | Arr _ | Obj _ => true
  end.

Fixpoint assoc (k : string) (fields : list (string * Value)) : Value :=
  match fields with
  | [] => Undefined
  | (k', v) :: rest => if bool_decide (k' = k) then v else assoc k rest
  end.

(** [v[k]] for a key that no prototype defines: a TypeError on
    [undefined] and [null], [undefined] on the other primitives. *)
Definition get_prop (v : Value) (k : string) : Outcome Value :=
  match v with
  | Undefined => Throw "Cannot read properties of undefined"
  | Null => Throw "Cannot read properties of null"
  | Obj fields => Ok (assoc k fields)
  | _ => Ok Undefined
  end.

(** [a || b] *)
Definition or_else (a b : Value) : Value := if truthy a then a else b.

Definition escape_char (c : ascii) : list ascii :=
  let n := Z.of_N (Ascii.N_of_ascii c) in
  if bool_decide (n = 34) then ["\"%char; c]
  else if bool_decide (n = 92) then ["\"%char; c]
  else if bool_decide (n = 8) then ["\"%char; "b"%char]
  else if bool_decide (n = 12) then ["\"%char; "f"%char]
  else if bool_decide (n = 10) then ["\"%char; "n"%char]
  else if bool_decide (n = 13) then ["\"%char; "r"%char]
  else if bool_decide (n = 9) then ["\"%char; "t"%char]
  else if n <? 32 then
    ["\"%char; "u"%char; "0"%char; "0"%char;
     Encoding.nth_char Encoding.hex_lower (n / 16);
     Encoding.nth_char Encoding.hex_lower (n mod 16)]
  else [c].

Definition quote (s : string) : string :=
  dq ++ String.string_of_list_ascii
          (List.flat_map escape_char (String.list_ascii_of_string s)) ++ dq.

Fixpoint join (sep : string) (l : list string) : string :=
  match l with
  | [] => EmptyString
  | [x] => x
  | x :: rest => x ++ sep ++ join sep rest
  end.

(** [JSON.stringify v]; [None] is [undefined].  A number is printed with
    all its digits, as the code prints the integers below 1e21. *)
Fixpoint stringify (v : Value) : option string :=
  match v with
  | Undefined => None
  | Null => Some "null"
  | Bool true => Some "true"
  | Bool false => Some "false"
  | Num n => Some (pretty n)
  | Str s => Some (quote s)
  | Arr l =>
      Some ("[" ++ join ","
              (List.map (fun x => match stringify x with
                                  | Some t => t
                                  | None => "null"
                                  end) l) ++ "]")%string
  | Obj fields =>
      Some ("{" ++ join ","
              ((fix members (fs : list (string * Value)) : list string :=
                  match fs with
                  | [] => []
                  | (k, x) :: rest =>
                      match stringify x with
                      | Some t => (quote k ++ ":" ++ t)%string :: members rest
                      | None => members rest
                      end
                  end) fields) ++ "}")%string
  end.

End Js.

(** ** The persisted tables ([scripts/initDatabase.ts]) *)

Record OAuthClient := {
  cl_id : Z;
  cl_client_id : string;
  cl_client_secret_hash : string;
  cl_name : string;
  cl_is_active : Z
}.

Record OAuthSession := {
  s_id : Z;
  s_client_id : Z;
  s_access_token : string;
  s_refresh_token : string;
  s_token_type : string;
  s_expires_at : Z;
  s_refresh_expires_at : Z;
  s_is_revoked : Z
}.

Record TokenResponse := {
  access_token : string;
  refresh_token : string;
  token_type : string;
  expires_in : Z
}.

(** [db_seq] is the AUTOINCREMENT counter of the sessions table. *)
Record Db := {
  clients : list OAuthClient;
  sessions : list OAuthSession;
  db_seq : Z
}.

#[global] Instance OAuthSession_eq_dec : EqDecision OAuthSession.
Proof. solve_decision. Defined.
#[global] Instance OAuthClient_eq_dec : EqDecision OAuthClient.
Proof. solve_decision. Defined.

(** The state-and-exception monad of the service: a statement that throws
  leaves the database as the statements before it made it (the service
  opens no transaction). *)
Definition M (A : Type) : Type := Db -> Outcome A * Db.

Definition ret {A} (a : A) : M A := fun db => (Ok a, db).
Definition throw {A} (msg : string) : M A := fun db => (Throw msg, db).
Definition bind {A B} (m : M A) (k : A -> M B) : M B :=
  fun db => match m db with
          | (Ok a, db') => k a db'
          | (Throw e, db') => (Throw e, db')
          end.
Definition gets {A} (f : Db -> A) : M A := fun db => (Ok (f db), db).
Definition modify (f : Db -> Db) : M unit := fun db => (Ok tt, f db).

Notation "'let*' x ':=' m 'in' k" := (bind m (fun x => k))
  (at level 10, x name, m at level 100, k at level 200).
Notation "'do' m 'then' k" := (bind m (fun _ => k))
  (at level 10, m at level 100, k at level 200).

(** ** SQL statements of [AuthService] *)

Module Sql.

(** SELECT * FROM clients WHERE client_id = ? AND is_active = 1 *)
Definition select_active_client (client_id : string) (db : Db) : option OAuthClient :=
  List.find (fun c => bool_decide (cl_client_id c = client_id)
                      && bool_decide (cl_is_active c = 1))
            (clients db).

(** SELECT * FROM clients WHERE id = ? *)
Definition select_client (id : Z) (db : Db) : option OAuthClient :=
  List.find (fun c => bool_decide (cl_id c = id)) (clients db).

(** SELECT * FROM sessions WHERE id = ? *)
Definition select_session (id : Z) (db : Db) : option OAuthSession :=
  List.find (fun s => bool_decide (s_id s = id)) (sessions db).

(** SELECT * FROM sessions WHERE refresh_token = ? AND is_revoked = 0 *)
Definition select_by_refresh (tok : string) (db : Db) : option OAuthSession :=
  List.find (fun s => bool_decide (s_refresh_token s = tok)
                      && bool_decide (s_is_revoked s = 0))
            (sessions db).

(** SELECT * FROM sessions WHERE access_token = ? AND is_revoked = 0 *)
Definition select_by_access (tok : string) (db : Db) : option OAuthSession :=
  List.find (fun s => bool_decide (s_access_token s = tok)
                      && bool_decide (s_is_revoked s = 0))
            (sessions db).

Definition set_revoked (s : OAuthSession) : OAuthSession :=
  {| s_id := s_id s; s_client_id := s_client_id s;
     s_access_token := s_access_token s; s_refresh_token := s_refresh_token s;
     s_token_type := s_token_type s; s_expires_at := s_expires_at s;
     s_refresh_expires_at := s_refresh_expires_at s; s_is_revoked := 1 |}.

Definition with_sessions (db : Db) (l : list OAuthSession) : Db :=
  {| clients := clients db; sessions := l; db_seq := db_seq db |}.

(** UPDATE sessions SET is_revoked = 1 WHERE id = ? *)
Definition update_revoke_id (id : Z) (db : Db) : Db :=
  with_sessions db
    (List.map (fun s => if bool_decide (s_id s = id) then set_revoked s else s)
              (sessions db)).

(** UPDATE sessions SET is_revoked = 1 WHERE client_id = ? *)
Definition update_revoke_client (cid : Z) (db : Db) : Db :=
  with_sessions db
    (List.map (fun s => if bool_decide (s_client_id s = cid) then set_revoked s else s)
              (sessions db)).

(** DELETE FROM sessions WHERE expires_at < ?; the result is the database
    and [changes], the number of rows deleted.  The column and the argument
    hold [toISOString] texts, which SQLite compares as texts; the instants
    are compared here, which is the same on the instants of the years 0000
    to 9999 ([iso_range] below) and only there. *)
Definition delete_expired (now : Z) (db : Db) : Db * Z :=
  (with_sessions db
     (List.filter (fun s => negb (s_expires_at s <? now)) (sessions db)),
   Z.of_nat (length (List.filter (fun s => s_expires_at s <? now) (sessions db)))).

(** INSERT INTO sessions (client_id, access_token, refresh_token,
    token_type, expires_at, refresh_expires_at) VALUES (...): both token
    columns are UNIQUE, the id is the next AUTOINCREMENT value and
    is_revoked takes its default 0.  The result is [lastInsertRowid]. *)
Definition insert_session (cid : Z) (access refresh ttype : string)
    (expires_at refresh_expires_at : Z) : M Z :=
  fun db =>
    if bool_decide (access ∈ s_access_token <$> sessions db)
    then (Throw "UNIQUE constraint failed: sessions.access_token", db)
    else if bool_decide (refresh ∈ s_refresh_token <$> sessions db)
    then (Throw "UNIQUE constraint failed: sessions.refresh_token", db)
    else
      let id := db_seq db + 1 in
      (Ok id,
       {| clients := clients db;
          sessions := sessions db ++
            [ {| s_id := id; s_client_id := cid;
                 s_access_token := access; s_refresh_token := refresh;
                 s_token_type := ttype; s_expires_at := expires_at;
                 s_refresh_expires_at := refresh_expires_at;
                 s_is_revoked := 0 |} ];
          db_seq := id |}).

End Sql.

(** The constraints of the schema: primary keys and UNIQUE columns. *)
Record wf_db (db : Db) : Prop := {
  wf_ids : NoDup (s_id <$> sessions db);
  wf_seq : Forall (fun s => s_id s <= db_seq db) (sessions db);
  wf_access : NoDup (s_access_token <$> sessions db);
  wf_refresh : NoDup (s_refresh_token <$> sessions db);
  wf_client_ids : NoDup (cl_id <$> clients db);
  wf_client_names : NoDup (cl_client_id <$> clients db)
}.

Definition empty_db : Db := {| clients := []; sessions := []; db_seq := 0 |}.

(** ** [src/utils/token.ts] and [src/services/authService.ts] *)

Record TokenPayload := {
  clientId : string;
  type : string;
  jti : string
}.

(** What one call of [generateTokens] reads from its environment: the clock
  inside [jwt.sign], 16 random bytes (hex) for the [jti], 32 random bytes
  (hex) for the refresh token, and the clock in each of the two calls of
  [getExpirationDate]. *)
Record Draw := {
  d_clock_sign : Z;
  d_jti : string;
  d_refresh : string;
  d_clock_exp : Z;
  d_clock_rexp : Z
}.

Record Tokens := {
  accessToken : string;
  refreshToken : string;
  expiresAt : Z;
  refreshExpiresAt : Z
}.

Section AuthService.

(** [config.jwtSecret]. *)
Variable jwtSecret : string.
(** [jwt.sign payload secret {expiresIn}] at a clock reading (ms). *)
Variable jwt_sign : TokenPayload -> string -> Z -> Z -> string.
(** [jwt.verify token secret] at a clock reading (ms); [None] when it
    throws. *)
Variable jwt_verify : string -> string -> Z -> option TokenPayload.
(** [bcrypt.compare plainText hash]. *)
Variable verifySecret : string -> string -> bool.

Definition generateAccessToken (cid : string) (expiresIn : Z)
    (jti_hex : string) (clock : Z) : string :=
  jwt_sign {| clientId := cid; type := "access"; jti := jti_hex |}
           jwtSecret expiresIn clock.

Definition verifyToken (token : string) (clock : Z) : Outcome TokenPayload :=
  match jwt_verify token jwtSecret clock with
  | Some p => Ok p
  | None => Throw "Invalid or expired token"
  end.

Definition getExpirationDate (expiresInSeconds : Z) (clock : Z) : Z :=
  clock + expiresInSeconds * 1000.

Definition authenticateClient (client_id clientSecret : string)
    : M (option OAuthClient) :=
  let* client := gets (Sql.select_active_client client_id) in
  match client with
  | None => ret None
  | Some c =>
      if negb (verifySecret clientSecret (cl_client_secret_hash c))
      then ret None
      else ret (Some c)
  end.

Definition generateTokens (cid : string) (expiresIn : Z) (d : Draw) : Tokens :=
  {| accessToken := generateAccessToken cid expiresIn (d_jti d) (d_clock_sign d);
     refreshToken := d_refresh d;
     expiresAt := getExpirationDate expiresIn (d_clock_exp d);
     refreshExpiresAt := getExpirationDate (expiresIn * 24) (d_clock_rexp d) |}.

Definition saveSession (client : OAuthClient) (access refresh : string)
    (expires_at refresh_expires_at : Z) : M (option OAuthSession) :=
  let* rowid := Sql.insert_session (cl_id client) access refresh "Bearer"
             expires_at refresh_expires_at in
  gets (Sql.select_session rowid).

Definition revokeSession (sessionId : Z) : M unit :=
  modify (Sql.update_revoke_id sessionId).

Definition revokeAllClientSessions (cid : Z) : M unit :=
  modify (Sql.update_revoke_client cid).

Definition createTokenResponse (client_id clientSecret : string) (d : Draw)
    : M (option TokenResponse) :=
  let* client := authenticateClient client_id clientSecret in
  match client with
  | None => ret None
  | Some c =>
      let expiresIn := 3600 in
      let t := generateTokens (cl_client_id c) expiresIn d in
      do saveSession c (accessToken t) (refreshToken t) (expiresAt t)
                     (refreshExpiresAt t) then
      ret (Some {| access_token := accessToken t;
                   refresh_token := refreshToken t;
                   token_type := "Bearer";
                   expires_in := expiresIn |})
  end.

(** [now] is the reading of [new Date()] in the expiry test. *)
Definition refreshAccessToken (refresh : string) (now : Z) (d : Draw)
    : M (option TokenResponse) :=
  let* session := gets (Sql.select_by_refresh refresh) in
  match session with
  | None => ret None
  | Some s =>
      if s_refresh_expires_at s <? now then ret None
      else
        let* client := gets (Sql.select_client (s_client_id s)) in
        match client with
        | None => ret None
        | Some c =>
            if negb (bool_decide (cl_is_active c = 1)) then ret None
            else
              do revokeSession (s_id s) then
              let expiresIn := 3600 in
              let t := generateTokens (cl_client_id c) expiresIn d in
              do saveSession c (accessToken t) (refreshToken t) (expiresAt t)
                             (refreshExpiresAt t) then
              ret (Some {| access_token := accessToken t;
                           refresh_token := refreshToken t;
                           token_type := "Bearer";
                           expires_in := expiresIn |})
        end
  end.

(** [clock] is the clock reading inside [jwt.verify], [now] the later
    reading of [new Date()].  The whole body is inside try/catch, so the
    function never throws. *)
Definition validateAccessToken (access : string) (clock now : Z) (db : Db)
    : option OAuthSession :=
  match verifyToken access clock with
  | Throw _ => None
  | Ok _ =>
      match Sql.select_by_access access db with
      | None => None
      | Some s => if s_expires_at s <? now then None else Some s
      end
  end.

Definition getClientBySession (s : OAuthSession) (db : Db) : option OAuthClient :=
  Sql.select_client (s_client_id s) db.

Definition cleanupExpiredSessions (now : Z) : M Z :=
  fun db => let '(db', changes) := Sql.delete_expired now db in (Ok changes, db').

End AuthService.

(** ** [src/controllers/authController.ts] *)

Module AuthController.

Inductive Body : Type :=
  | ErrorResponse (error error_description : string)
  | TokenBody (t : TokenResponse)
  | Message (message : string).

Record Response := { status : Z; body : Body }.

(** The request bodies, with the fields typed as the TypeScript request
    types have them: absent or a string. *)
Record TokenRequest := {
  rq_client_id : option string;
  rq_client_secret : option string;
  rq_grant_type : option string
}.

Record RefreshTokenRequest := {
  rq_refresh_token : option string;
  rq_refresh_grant_type : option string
}.

Definition server_error : Response :=
  {| status := 500;
     body := ErrorResponse "server_error" "An unexpected error occurred" |}.

Section Handlers.

Variable jwtSecret : string.
Variable jwt_sign : TokenPayload -> string -> Z -> Z -> string.
Variable jwt_verify : string -> string -> Z -> option TokenPayload.
Variable verifySecret : string -> string -> bool.

(** POST /auth/token *)
Definition token (req : TokenRequest) (d : Draw) (db : Db) : Response * Db :=
  match rq_client_id req, rq_client_secret req, rq_grant_type req with
  | Some client_id, Some client_secret, Some grant_type =>
      if negb (str_truthy (Some client_id)) || negb (str_truthy (Some client_secret))
         || negb (str_truthy (Some grant_type))
      then ({| status := 400;
               body := ErrorResponse "invalid_request"
                 "Missing required parameters: client_id, client_secret, grant_type" |}, db)
      else if negb (bool_decide (grant_type = "client_credentials"))
      then ({| status := 400;
               body := ErrorResponse "unsupported_grant_type"
                 "Only client_credentials grant type is supported" |}, db)
      else
        match createTokenResponse jwtSecret jwt_sign verifySecret
                client_id client_secret d db with
        | (Ok None, db') =>
            ({| status := 401;
                body := ErrorResponse "invalid_client" "Client authentication failed" |}, db')
        | (Ok (Some t), db') => ({| status := 200; body := TokenBody t |}, db')
        | (Throw _, db') => (server_error, db')
        end
  | _, _, _ =>
      ({| status := 400;
          body := ErrorResponse "invalid_request"
            "Missing required parameters: client_id, client_secret, grant_type" |}, db)
  end.

(** POST /auth/refresh *)
Definition refresh (req : RefreshTokenRequest) (now : Z) (d : Draw) (db : Db)
    : Response * Db :=
  match rq_refresh_token req, rq_refresh_grant_type req with
  | Some tok, Some grant_type =>
      if negb (str_truthy (Some tok)) || negb (str_truthy (Some grant_type))
      then ({| status := 400;
               body := ErrorResponse "invalid_request"
                 "Missing required parameters: refresh_token, grant_type" |}, db)
      else if negb (bool_decide (grant_type = "refresh_token"))
      then ({| status := 400;
               body := ErrorResponse "unsupported_grant_type"
                 "Only refresh_token grant type is supported" |}, db)
      else
        match refreshAccessToken jwtSecret jwt_sign tok now d db with
        | (Ok None, db') =>
            ({| status := 401;
                body := ErrorResponse "invalid_grant" "Invalid or expired refresh token" |}, db')
        | (Ok (Some t), db') => ({| status := 200; body := TokenBody t |}, db')
        | (Throw _, db') => (server_error, db')
        end
  | _, _ =>
      ({| status := 400;
          body := ErrorResponse "invalid_request"
            "Missing required parameters: refresh_token, grant_type" |}, db)
  end.

(** POST /auth/revoke *)
Definition revoke (tok : option string) (clock now : Z) (db : Db) : Response * Db :=
  match tok with
  | Some t =>
      if negb (str_truthy (Some t))
      then ({| status := 400;
               body := ErrorResponse "invalid_request"
                 "Missing required parameter: token" |}, db)
      else
        let db' :=
          match validateAccessToken jwtSecret jwt_verify t clock now db with
          | Some session => snd (revokeSession (s_id session) db)
          | None => db
          end in
        ({| status := 200; body := Message "Token revoked successfully" |}, db')
  | None =>
      ({| status := 400;
          body := ErrorResponse "invalid_request"
            "Missing required parameter: token" |}, db)
  end.

End Handlers.

End AuthController.

(** ** Sequences of service calls *)

(** The calls of [AuthService] that may write to the store. *)
Inductive Call : Type :=
| CreateTokenResponse (client_id clientSecret : string) (d : Draw)
| RefreshAccessToken (refresh : string) (now : Z) (d : Draw)
| SaveSession (client : OAuthClient) (access refresh : string)
  (expires_at refresh_expires_at : Z)
| RevokeSession (sessionId : Z)
| RevokeAllClientSessions (cid : Z)
| CleanupExpiredSessions (now : Z).

Section Calls.

Variable jwtSecret : string.
Variable jwt_sign : TokenPayload -> string -> Z -> Z -> string.
Variable verifySecret : string -> string -> bool.

(** The store after a call, whether it returned or threw. *)
Definition exec (c : Call) (db : Db) : Db :=
  match c with
  | CreateTokenResponse client_id clientSecret d =>
      snd (createTokenResponse jwtSecret jwt_sign verifySecret client_id clientSecret d db)
  | RefreshAccessToken refresh now d =>
      snd (refreshAccessToken jwtSecret jwt_sign refresh now d db)
  | SaveSession client access refresh e re =>
      snd (saveSession client access refresh e re db)
  | RevokeSession sessionId => snd (revokeSession sessionId db)
  | RevokeAllClientSessions cid => snd (revokeAllClientSessions cid db)
  | CleanupExpiredSessions now => snd (cleanupExpiredSessions now db)
  end.

Definition exec_all (cs : list Call) (db : Db) : Db :=
  List.fold_left (fun acc c => exec c acc) cs db.

End Calls.

(** The refresh token a call would store, if any. *)
Definition stored_refresh (c : Call) : option string :=
  match c with
  | CreateTokenResponse _ _ d => Some (d_refresh d)
  | RefreshAccessToken _ _ d => Some (d_refresh d)
  | SaveSession _ _ refresh _ _ => Some refresh
  | RevokeSession _ | RevokeAllClientSessions _ | CleanupExpiredSessions _ => None
  end.

(** The contract of jsonwebtoken that the service relies on: a token signed
  with a secret verifies under the same secret as long as the clock, in
  whole seconds, is before the second of issue plus [expiresIn]. *)
Definition jwt_sound (jwt_sign : TokenPayload -> string -> Z -> Z -> string)
    (jwt_verify : string -> string -> Z -> option TokenPayload) : Prop :=
  forall p secret expiresIn t t',
    t' / 1000 < t / 1000 + expiresIn ->
    jwt_verify (jwt_sign p secret expiresIn t) secret t' <> None.

(** A small stand-in for jsonwebtoken, for worked examples: the token is the
  secret followed by the [jti], and verification checks the secret. *)
Definition demo_sign (p : TokenPayload) (secret : string) (expiresIn t : Z) : string :=
  (secret ++ jti p)%string.

Definition demo_verify (tok secret : string) (t : Z) : option TokenPayload :=
  if String.prefix secret tok
  then Some {| clientId := EmptyString; type := "access"; jti := EmptyString |}
  else None.

Definition demo_client : OAuthClient :=
  {| cl_id := 1; cl_client_id := "acme"; cl_client_secret_hash := "hash(s3cr3t)";
     cl_name := "Acme"; cl_is_active := 1 |}.

Definition demo_inactive_client : OAuthClient :=
  {| cl_id := 2; cl_client_id := "old"; cl_client_secret_hash := "hash(pw)";
     cl_name := "Old"; cl_is_active := 0 |}.

(** [bcrypt.compare] of the examples. *)
Definition demo_verifySecret (plain hash : string) : bool :=
  bool_decide (hash = ("hash(" ++ plain ++ ")")%string).

Definition demo_session : OAuthSession :=
  {| s_id := 1; s_client_id := 1; s_access_token := "k.a1"; s_refresh_token := "r1";
     s_token_type := "Bearer"; s_expires_at := 3600000;
     s_refresh_expires_at := 86400000; s_is_revoked := 0 |}.

Definition demo_db : Db :=
  {| clients := [demo_client; demo_inactive_client];
     sessions := [demo_session]; db_seq := 1 |}.

Definition demo_draw : Draw :=
  {| d_clock_sign := 5000; d_jti := "a2"; d_refresh := "r2";
     d_clock_exp := 5000; d_clock_rexp := 5000 |}.

(** ** [src/config/integrations.ts] *)

Inductive AuthType := auth_none | auth_basic | auth_bearer | auth_oauth2 | auth_api_key.

Inductive Method := GET | POST | PUT | PATCH | DELETE.

Record Credentials := {
  username : option string;
  password : option string;
  cred_token : option string;
  apiKey : option string;
  cred_clientId : option string;
  cred_clientSecret : option string
}.

Record IntegrationAuth := {
  auth_type : AuthType;
  credentials : option Credentials;
  headers : option (gmap string string)
}.

Record IntegrationEndpoint := {
  path : string;
  method : option Method;
  transformer : option string
}.

Record Webhooks := {
  wh_enabled : bool;
  secret : option string;
  events : option (list string)
}.

Record IntegrationConfig := {
  name : string;
  enabled : bool;
  baseUrl : string;
  auth : IntegrationAuth;
  endpoints : gmap string IntegrationEndpoint;
  timeout : option Z;
  retries : option Z;
  webhooks : option Webhooks
}.

(** [crypto.timingSafeEqual a b] throws on buffers of different lengths. *)
Definition timingSafeEqual (a b : list Z) : Outcome bool :=
  if negb (bool_decide (length a = length b))
  then Throw "Input buffers must have the same byte length"
  else Ok (bool_decide (a = b)).

Module IntegrationManager.

Section Manager.

(** [this.integrations]; keys are looked up as own properties: the value
    that the code's [obj[name]] finds for a name inherited from
    Object.prototype ([object_prototype_names] below) is not shown. *)
Variable integrations : gmap string IntegrationConfig.

Definition getIntegration (nm : string) : option IntegrationConfig :=
  integrations !! nm.

Definition isEnabled (nm : string) : bool :=
  match getIntegration nm with
  | Some integration => enabled integration
  | None => false
  end.

Definition getEndpoint (integrationName endpointName : string)
    : option IntegrationEndpoint :=
  match getIntegration integrationName with
  | Some integration => endpoints integration !! endpointName
  | None => None
  end.

Definition buildUrl (integrationName endpointName : string)
    (params : option (list (string * string))) : option string :=
  match getIntegration integrationName, getEndpoint integrationName endpointName with
  | Some integration, Some endpoint =>
      let p :=
        match params with
        | Some entries =>
            List.fold_left
              (fun acc kv =>
                 Encoding.replace_first ("{" ++ fst kv ++ "}")
                   (Encoding.encodeURIComponent (snd kv)) acc)
              entries (path endpoint)
        | None => path endpoint
        end in
      Some (baseUrl integration ++ p)%string
  | _, _ => None
  end.

Definition getAuthHeaders (integrationName : string) : gmap string string :=
  match getIntegration integrationName with
  | None => ∅
  | Some integration =>
      let hdrs : gmap string string :=
        match headers (auth integration) with
        | Some h => h
        | None => ∅
        end in
      let cred (f : Credentials -> option string) : option string :=
        match credentials (auth integration) with
        | Some c => f c
        | None => None
        end in
      match auth_type (auth integration) with
      | auth_bearer =>
          match cred cred_token with
          | Some t =>
              if str_truthy (Some t)
              then <["Authorization" := ("Bearer " ++ t)%string]> hdrs
              else hdrs
          | None => hdrs
          end
      | auth_basic =>
          match cred username, cred password with
          | Some u, Some pw =>
              if str_truthy (Some u) && str_truthy (Some pw)
              then <["Authorization" :=
                      ("Basic " ++ Encoding.base64 (u ++ ":" ++ pw))%string]> hdrs
              else hdrs
          | _, _ => hdrs
          end
      | auth_api_key =>
          match cred apiKey with
          | Some k =>
              if str_truthy (Some k) && negb (str_truthy (hdrs !! "X-API-Key"))
              then <["X-API-Key" := k]> hdrs
              else hdrs
          | None => hdrs
          end
      | auth_none | auth_oauth2 => hdrs
      end
  end.

Definition validateWebhookSignature (integrationName payload signature : string)
    : Outcome bool :=
  let sec :=
    match getIntegration integrationName with
    | Some integration =>
        match webhooks integration with
        | Some w => secret w
        | None => None
        end
    | None => None
    end in
  match sec with
  | Some k =>
      if negb (str_truthy (Some k)) then Ok false
      else
        let expectedSignature := Hmac.hmac_sha256_hex k payload in
        timingSafeEqual (Encoding.bytes_of_string signature)
                        (Encoding.bytes_of_string expectedSignature)
  | None => Ok false
  end.

End Manager.

End IntegrationManager.

(** [process.env.X || fallback] *)
Definition env_or (env : string -> option string) (var fallback : string) : string :=
  if str_truthy (env var) then default fallback (env var) else fallback.

(** [defaultIntegrations], for a given process environment. *)
Definition defaultIntegrations (env : string -> option string)
    : gmap string IntegrationConfig :=
  {[ "booking_engine" :=
       {| name := "Booking Engine";
          enabled := true;
          baseUrl := env_or env "BOOKING_ENGINE_URL" "https://api.booking-engine.example.com";
          auth := {| auth_type := auth_api_key;
                     credentials :=
                       Some {| username := None; password := None; cred_token := None;
                               apiKey := Some (env_or env "BOOKING_ENGINE_API_KEY" EmptyString);
                               cred_clientId := None; cred_clientSecret := None |};
                     headers :=
                       Some {[ "X-API-Key" := env_or env "BOOKING_ENGINE_API_KEY" EmptyString ]} |};
          endpoints :=
            {[ "createReservation" :=
                 {| path := "/v1/reservations"; method := Some POST;
                    transformer := Some "BookingReservationTransformer" |};
               "getReservation" :=
                 {| path := "/v1/reservations/{id}"; method := Some GET;
                    transformer := None |};
               "updateReservation" :=
                 {| path := "/v1/reservations/{id}"; method := Some PUT;
                    transformer := Some "BookingReservationTransformer" |};
               "cancelReservation" :=
                 {| path := "/v1/reservations/{id}"; method := Some DELETE;
                    transformer := None |} ]};
          timeout := Some 30000;
          retries := Some 3;
          webhooks :=
            Some {| wh_enabled := true;
                    secret := env "BOOKING_ENGINE_WEBHOOK_SECRET";
                    events := Some ["reservation.created"; "reservation.updated";
                                    "reservation.cancelled"] |} |};
     "pms_system" :=
       {| name := "PMS System";
          enabled := true;
          baseUrl := env_or env "PMS_SYSTEM_URL" "https://api.pms.example.com";
          auth := {| auth_type := auth_bearer;
                     credentials :=
                       Some {| username := None; password := None;
                               cred_token := Some (env_or env "PMS_SYSTEM_TOKEN" EmptyString);
                               apiKey := None;
                               cred_clientId := None; cred_clientSecret := None |};
                     headers := None |};
          endpoints :=
            {[ "syncGuest" :=
                 {| path := "/api/guests"; method := Some POST;
                    transformer := Some "PMSGuestTransformer" |};
               "syncReservation" :=
                 {| path := "/api/reservations"; method := Some POST;
                    transformer := Some "PMSReservationTransformer" |};
               "updateRoom" :=
                 {| path := "/api/rooms/{id}"; method := Some PUT;
                    transformer := None |} ]};
          timeout := Some 20000;
          retries := Some 2;
          webhooks := Some {| wh_enabled := false; secret := None; events := None |} |};
     "channel_manager" :=
       {| name := "Channel Manager";
          enabled := false;
          baseUrl := env_or env "CHANNEL_MANAGER_URL" "https://api.channelmanager.example.com";
          auth := {| auth_type := auth_oauth2;
                     credentials :=
                       Some {| username := None; password := None; cred_token := None;
                               apiKey := None;
                               cred_clientId := env "CHANNEL_MANAGER_CLIENT_ID";
                               cred_clientSecret := env "CHANNEL_MANAGER_CLIENT_SECRET" |};
                     headers := None |};
          endpoints :=
            {[ "updateAvailability" :=
                 {| path := "/v1/availability"; method := Some POST; transformer := None |};
               "updatePricing" :=
                 {| path := "/v1/pricing"; method := Some POST; transformer := None |} ]};
          timeout := Some 15000;
          retries := Some 3;
          webhooks := None |} ]}.

(** ** [src/controllers/webhookController.ts] *)

Module WebhookController.

Record Request := {
  param_integration : string;
  param_event : string;
  x_webhook_signature : option string;
  req_body : Js.Value
}.

(** The value [processWebhook] returns. *)
Record Processed := {
  processed : bool;
  timestamp : Z;
  pr_event : Js.Value;
  pr_integration : string
}.

Inductive Body : Type :=
| Error (error message : string)
| Received (message : string) (data : Processed)
| ReceivedEvent (event : string) (data : Processed).

Record Response := { status : Z; body : Body }.

(** What a handler does besides answering, in order. *)
Inductive Effect : Type :=
| SignatureChecked (payload : option string) (signature secret : string)
| LoggedInvalidSignature (integration : string) (event : Js.Value)
| LoggedReceived (integration : string) (event : Js.Value)
| ProcessedWebhook (integration : string) (event : Js.Value).

(** [validateSignature]: the HMAC of the payload against the header, any
    exception answered by [false].  The payload is [JSON.stringify(req.body)],
    [undefined] for an undefined body. *)
Definition validateSignature (payload : option string) (signature secret : string) : bool :=
  match payload with
  | None => false
  | Some p =>
      match timingSafeEqual (Encoding.bytes_of_string signature)
              (Encoding.bytes_of_string (Hmac.hmac_sha256_hex secret p)) with
      | Ok b => b
      | Throw _ => false
      end
  end.

Definition processWebhook (integration : string) (event : Js.Value) (clock : Z)
    : Processed :=
  {| processed := true; timestamp := clock; pr_event := event;
     pr_integration := integration |}.

Definition not_found (integration : string) : Response :=
  {| status := 404;
     body := Error "integration_not_found"
               ("Integration " ++ dq ++ integration ++ dq ++ " not found or disabled") |}.

Definition invalid_signature : Response :=
  {| status := 401;
     body := Error "invalid_signature" "Webhook signature validation failed" |}.

Section Controller.

Variable integrations : gmap string IntegrationConfig.

(** POST /webhooks/:integration.  The event is read from the body before
    the try block, so a body that is [undefined] or [null] makes the handler
    throw. *)
Definition receive (req : Request) (clock : Z) : Outcome (Response * list Effect) :=
  let integration := param_integration req in
  match Js.get_prop (req_body req) "event" with
  | Throw e => Throw e
  | Ok ev =>
      let event := Js.or_else ev (Js.Str "unknown") in
      Ok
        (if negb (IntegrationManager.isEnabled integrations integration)
         then (not_found integration, [])
         else
           match IntegrationManager.getIntegration integrations integration with
           | Some {| webhooks := Some w |} =>
               if negb (wh_enabled w)
               then ({| status := 400;
                        body := Error "webhooks_disabled"
                          ("Webhooks not enabled for integration " ++ dq ++ integration ++ dq) |},
                     [])
               else
                 let accept :=
                   ({| status := 200;
                       body := Received "Webhook received and processed"
                                 (processWebhook integration event clock) |},
                    [LoggedReceived integration event;
                     ProcessedWebhook integration event]) in
                 match secret w, x_webhook_signature req with
                 | Some k, Some signature =>
                     if str_truthy (Some k) && str_truthy (Some signature)
                     then
                       let payload := Js.stringify (req_body req) in
                       if negb (validateSignature payload signature k)
                       then (invalid_signature,
                             [SignatureChecked payload signature k;
                              LoggedInvalidSignature integration event])
                       else (fst accept, SignatureChecked payload signature k :: snd accept)
                     else accept
                 | _, _ => accept
                 end
           | _ =>
               ({| status := 400;
                   body := Error "webhooks_disabled"
                     ("Webhooks not enabled for integration " ++ dq ++ integration ++ dq) |},
                [])
           end)
  end.

(** POST /webhooks/:integration/:event *)
Definition receiveEvent (req : Request) (clock : Z) : Response * list Effect :=
  let integration := param_integration req in
  let event := param_event req in
  if negb (IntegrationManager.isEnabled integrations integration)
  then (not_found integration, [])
  else
    let wh :=
      match IntegrationManager.getIntegration integrations integration with
      | Some config => webhooks config
      | None => None
      end in
    let allowed :=
      match wh with
      | Some {| events := Some evs |} => bool_decide (event ∈ evs)
      | _ => true
      end in
    if negb allowed
    then ({| status := 400;
             body := Error "event_not_allowed"
               ("Event " ++ dq ++ event ++ dq ++ " not allowed for this integration") |},
          [])
    else
      let accept :=
        ({| status := 200;
            body := ReceivedEvent event
                      (processWebhook integration (Js.Str event) clock) |},
         [LoggedReceived integration (Js.Str event);
          ProcessedWebhook integration (Js.Str event)]) in
      match wh, x_webhook_signature req with
      | Some {| secret := Some k |}, Some signature =>
          if str_truthy (Some k) && str_truthy (Some signature)
          then
            let payload := Js.stringify (req_body req) in
            if negb (validateSignature payload signature k)
            then (invalid_signature, [SignatureChecked payload signature k])
            else (fst accept, SignatureChecked payload signature k :: snd accept)
          else accept
      | _, _ => accept
      end.

End Controller.

End WebhookController.

(** ** [src/transformers/baseTransformer.ts], [src/transformers/registry.ts] *)

(** A transformer: its [validate] and [transform] methods, either of which
    may throw. *)
Record Transformer := {
  tr_name : string;
  tr_validate : Js.Value -> Outcome bool;
  tr_transform : Js.Value -> Outcome Js.Value
}.

Module BaseTransformer.

(** The default [validate]. *)
Definition validate (input : Js.Value) : Outcome bool :=
  Ok (match input with
      | Js.Null | Js.Undefined => false
      | _ => true
      end).

(** [execute]: validate, transform, and on any exception log and rethrow.
    The log entry takes [JSON.stringify(input).substring(0, 500)], which
    itself throws when the input stringifies to [undefined]. *)
Definition execute (t : Transformer) (input : Js.Value) : Outcome Js.Value :=
  let attempt :=
    match tr_validate t input with
    | Throw e => Throw e
    | Ok false => Throw "Input validation failed"
    | Ok true => tr_transform t input
    end in
  match attempt with
  | Ok output => Ok output
  | Throw e =>
      match Js.stringify input with
      | Some _ => Throw e
      | None => Throw "Cannot read properties of undefined (reading 'substring')"
      end
  end.

End BaseTransformer.

Module TransformerRegistry.

Definition register (nm : string) (t : Transformer) (transformers : gmap string Transformer)
    : gmap string Transformer :=
  <[nm := t]> transformers.

Definition get (transformers : gmap string Transformer) (nm : string) : option Transformer :=
  transformers !! nm.

Definition has (transformers : gmap string Transformer) (nm : string) : bool :=
  bool_decide (is_Some (transformers !! nm)).

Definition transform (transformers : gmap string Transformer)
    (transformerName : string) (input : Js.Value) : Outcome Js.Value :=
  match get transformers transformerName with
  | None => Throw ("Transformer " ++ dq ++ transformerName ++ dq ++ " not found")
  | Some t => BaseTransformer.execute t input
  end.

End TransformerRegistry.

(** ** [src/transformers/examples/BookingReservationTransformer.ts] *)

Module BookingReservationTransformer.

(** White space, on bytes: the ASCII white space of [\s]; the Unicode
    spaces of that class (U+00A0 and the like), which take several bytes,
    are not recognised. *)
Definition is_space (b : Z) : bool :=
  bool_decide (b ∈ [9; 10; 11; 12; 13; 32]).

(** A dot that is neither the first nor the last byte. *)
Fixpoint inner_dot (first : bool) (l : list Z) : bool :=
  match l with
  | [] | [_] => false
  | b :: rest => (negb first && (b =? 46)) || inner_dot false rest
  end.

(** What follows the first at sign. *)
Fixpoint after_at (l : list Z) : list Z :=
  match l with
  | [] => []
  | b :: rest => if b =? 64 then rest else after_at rest
  end.

(** [/^[^\s@]+@[^\s@]+\.[^\s@]+$/.test(s)]: no white space, exactly one at
    sign, something before it, and after it a dot with something on both
    sides. *)
Definition emailRegex_test (s : string) : bool :=
  let bytes := Encoding.bytes_of_string s in
  forallb (fun b => negb (is_space b)) bytes
  && Nat.eqb (length (List.filter (fun b => b =? 64) bytes)) 1
  && match bytes with
     | [] => false
     | b :: _ => negb (b =? 64)
     end
  && inner_dot true (after_at bytes).

(** [String(v)] *)
Fixpoint to_string (v : Js.Value) : string :=
  match v with
  | Js.Undefined => "undefined"
  | Js.Null => "null"
  | Js.Bool true => "true"
  | Js.Bool false => "false"
  | Js.Num n => pretty n
  | Js.Str s => s
  | Js.Arr l =>
      Js.join ","
        (List.map (fun x => match x with
                            | Js.Undefined | Js.Null => EmptyString
                            | _ => to_string x
                            end) l)
  | Js.Obj _ => "[object Object]"
  end.

Definition required : list string :=
  ["reservationId"; "guestName"; "guestEmail"; "checkInDate"; "checkOutDate";
   "roomType"; "numberOfGuests"; "totalAmount"].

(** [input[field]] on an input that is neither [null] nor [undefined]. *)
Definition field (input : Js.Value) (k : string) : Js.Value :=
  match Js.get_prop input k with
  | Ok v => v
  | Throw _ => Js.Undefined
  end.

(** The first required field that is falsy. *)
Fixpoint first_missing (input : Js.Value) (fields : list string) : option string :=
  match fields with
  | [] => None
  | f :: rest => if negb (Js.truthy (field input f)) then Some f
                 else first_missing input rest
  end.

(** [reverseTransform]: from the booking engine's format back to the
    internal one; reading a field of an absent group throws. *)
Definition reverseTransform (output : Js.Value) : Outcome Js.Value :=
  match Js.get_prop output "reservation_id", Js.get_prop output "guest",
        Js.get_prop output "stay", Js.get_prop output "payment",
        Js.get_prop output "status", Js.get_prop output "notes" with
  | Ok reservation_id, Ok guest, Ok stay, Ok payment, Ok status, Ok notes =>
      match Js.get_prop guest "name", Js.get_prop guest "email",
            Js.get_prop guest "phone" with
      | Ok nm, Ok email, Ok phone =>
          match Js.get_prop stay "check_in", Js.get_prop stay "check_out",
                Js.get_prop stay "room_type", Js.get_prop stay "guests" with
          | Ok check_in, Ok check_out, Ok room_type, Ok guests =>
              match Js.get_prop payment "total", Js.get_prop payment "currency" with
              | Ok total, Ok currency =>
                  Ok (Js.Obj
                        [("reservationId", reservation_id);
                         ("guestName", nm);
                         ("guestEmail", email);
                         ("guestPhone", phone);
                         ("checkInDate", check_in);
                         ("checkOutDate", check_out);
                         ("roomType", room_type);
                         ("numberOfGuests", guests);
                         ("totalAmount", total);
                         ("currency", currency);
                         ("status", status);
                         ("specialRequests", notes)])
              | Throw e, _ | _, Throw e => Throw e
              end
          | Throw e, _, _, _ | _, Throw e, _, _ | _, _, Throw e, _ | _, _, _, Throw e =>
              Throw e
          end
      | Throw e, _, _ | _, Throw e, _ | _, _, Throw e => Throw e
      end
  | Throw e, _, _, _, _, _ | _, Throw e, _, _, _, _ | _, _, Throw e, _, _, _
  | _, _, _, Throw e, _, _ | _, _, _, _, Throw e, _ | _, _, _, _, _, Throw e => Throw e
  end.

Section Dates.

(** [new Date(v).getTime()], [None] for an invalid date. *)
Variable Date_of : Js.Value -> option Z.
(** [date.toISOString()] *)
Variable Date_toISOString : Z -> string.

(** [parseDate] of the base class. *)
Definition parseDate (dateString : Js.Value) : option Z :=
  if negb (Js.truthy dateString) then None else Date_of dateString.

Definition validate (input : Js.Value) : Outcome bool :=
  match BaseTransformer.validate input with
  | Ok false => Ok false
  | Throw e => Throw e
  | Ok true =>
      match first_missing input required with
      | Some f => Throw ("Required field missing: " ++ f)
      | None =>
          if negb (emailRegex_test (to_string (field input "guestEmail")))
          then Throw "Invalid email format"
          else
            match parseDate (field input "checkInDate"),
                  parseDate (field input "checkOutDate") with
            | Some checkIn, Some checkOut =>
                if checkOut <=? checkIn
                then Throw "Check-out date must be after check-in date"
                else Ok true
            | _, _ => Throw "Invalid date format"
            end
      end
  end.

(** [cleanPhone]: digits and plus signs only; a truthy value that is not a
    string has no [replace] method. *)
Definition cleanPhone (phone : Js.Value) : Outcome string :=
  if negb (Js.truthy phone) then Ok EmptyString
  else match phone with
       | Js.Str s =>
           Ok (Encoding.string_of_bytes
                 (List.filter (fun b => ((48 <=? b) && (b <=? 57)) || (b =? 43))
                    (Encoding.bytes_of_string s)))
       | _ => Throw "phone.replace is not a function"
       end.

(** [formatDate]; [toISOString] throws on an invalid date. *)
Definition formatDate (date : Js.Value) : Outcome string :=
  if negb (Js.truthy date) then Ok EmptyString
  else match Date_of date with
       | Some t => Ok (Date_toISOString t)
       | None => Throw "Invalid time value"
       end.

Definition transform (input : Js.Value) : Outcome Js.Value :=
  match Js.get_prop input "reservationId" with
  | Throw e => Throw e
  | Ok reservation_id =>
      match cleanPhone (field input "guestPhone") with
      | Throw e => Throw e
      | Ok phone =>
          match formatDate (field input "checkInDate"),
                formatDate (field input "checkOutDate") with
          | Ok check_in, Ok check_out =>
              Ok (Js.Obj
                    [("reservation_id", reservation_id);
                     ("guest", Js.Obj [("name", field input "guestName");
                                       ("email", field input "guestEmail");
                                       ("phone", Js.Str phone)]);
                     ("stay", Js.Obj [("check_in", Js.Str check_in);
                                      ("check_out", Js.Str check_out);
                                      ("room_type", field input "roomType");
                                      ("guests", field input "numberOfGuests")]);
                     ("payment", Js.Obj [("total", field input "totalAmount");
                                         ("currency", field input "currency")]);
                     ("status", field input "status");
                     ("notes", field input "specialRequests")])
          | Throw e, _ => Throw e
          | _, Throw e => Throw e
          end
      end
  end.

Definition instance : Transformer :=
  {| tr_name := "BookingReservationTransformer";
     tr_validate := validate;
     tr_transform := transform |}.

(** [initializeTransformers], on an empty registry. *)
Definition initializeTransformers : gmap string Transformer :=
  TransformerRegistry.register "BookingReservationTransformer" instance ∅.

End Dates.

End BookingReservationTransformer.

(** ** [src/services/httpClient.ts] *)

(** An [HttpClient]: the integration it was made for and the configuration
    of its axios instance. *)
Record Client := {
  integrationName : string;
  integration : IntegrationConfig;
  client_baseURL : string;
  client_timeout : Z;
  client_retries : Z;
  client_headers : gmap string string
}.

(** A request handed to the axios instance of a client. *)
Record HttpCall := {
  call_client : Client;
  call_method : Method;
  call_url : string;
  call_data : option Js.Value
}.

(** What the promise of an axios call settles to, after the retries:
    a response with a 2xx status, or an error that carries the response
    when there was one. *)
Inductive Settled : Type :=
| Resolved (status : Z) (data : Js.Value)
| Rejected (message : string) (response : option (Z * Js.Value)).

(** What a handler does to the outside, in order. *)
Inductive Effect : Type :=
| Created (c : Client)
| Sent (call : HttpCall).

Module HttpClient.

Section Client.

Variable integrations : gmap string IntegrationConfig.
(** The upstream, as axios with its retry policy sees it. *)
Variable upstream : HttpCall -> Settled.

(** [a || b] on optional numbers. *)
Definition num_or (a : option Z) (b : Z) : Z :=
  match a with
  | Some n => if n =? 0 then b else n
  | None => b
  end.

(** [createHttpClient(integration)], that is [new HttpClient({integration})]. *)
Definition createHttpClient (nm : string) : Outcome Client :=
  match IntegrationManager.getIntegration integrations nm with
  | None => Throw ("Integration " ++ dq ++ nm ++ dq ++ " not found")
  | Some i =>
      Ok {| integrationName := nm;
            integration := i;
            client_baseURL := baseUrl i;
            client_timeout := num_or (timeout i) 30000;
            client_retries := num_or (retries i) 3;
            client_headers :=
              IntegrationManager.getAuthHeaders integrations nm
              ∪ {[ "Content-Type" := "application/json";
                   "User-Agent" := "API-Middleware/1.0" ]} |}
  end.

(** [client.callEndpoint(endpointName, data, params)]; the list holds the
    requests handed to axios. *)
Definition callEndpoint (client : Client) (endpointName : string) (data : Js.Value)
    (params : list (string * string)) : Settled * list HttpCall :=
  match IntegrationManager.getEndpoint integrations (integrationName client) endpointName with
  | None =>
      (Rejected ("Endpoint " ++ dq ++ endpointName ++ dq ++ " not found in integration "
                 ++ dq ++ integrationName client ++ dq) None, [])
  | Some endpoint =>
      match IntegrationManager.buildUrl integrations (integrationName client) endpointName
              (Some params) with
      | None =>
          (Rejected ("Could not build URL for endpoint " ++ dq ++ endpointName ++ dq)
                    None, [])
      | Some url =>
          if negb (str_truthy (Some url))
          then (Rejected ("Could not build URL for endpoint " ++ dq ++ endpointName ++ dq)
                         None, [])
          else
            let m := match method endpoint with Some m => m | None => GET end in
            let call :=
              {| call_client := client;
                 call_method := m;
                 call_url :=
                   Encoding.replace_first (baseUrl (integration client)) EmptyString url;
                 call_data :=
                   match m with
                   | POST | PUT | PATCH => Some data
                   | GET | DELETE => None
                   end |} in
            (upstream call, [call])
      end
  end.

End Client.

(** [sanitizeHeaders]: a copy of the headers in which each of the listed
    names that has a truthy value is redacted. *)
Definition redact (sensitive : list string) (hdrs : gmap string Js.Value)
    : gmap string Js.Value :=
  List.fold_left
    (fun sanitized header =>
       match sanitized !! header with
       | Some v => if Js.truthy v
                   then <[header := Js.Str "***REDACTED***"]> sanitized
                   else sanitized
       | None => sanitized
       end)
    sensitive hdrs.

Definition sanitizeHeaders (hdrs : gmap string Js.Value) : gmap string Js.Value :=
  redact ["authorization"; "x-api-key"; "cookie"] hdrs.

End HttpClient.

(** ** [src/controllers/proxyController.ts] *)

Module ProxyController.

Record Request := {
  param_integration : string;
  param_endpoint : string;
  req_body : Js.Value;
  req_query : list (string * string)
}.

Inductive Body : Type :=
| Error (error message : string) (details : option Js.Value)
| Relay (data : Js.Value).

Record Response := { status : Z; body : Body }.

(** The answer of the catch block: the upstream status when there is one
    (and it is not 0), else 500. *)
Definition proxy_error (msg : string) (resp : option (Z * Js.Value)) : Response :=
  {| status := match resp with
               | Some (st, _) => if st =? 0 then 500 else st
               | None => 500
               end;
     body := Error "proxy_error" msg
               (Some match resp with
                     | Some (_, d) => Js.or_else d Js.Null
                     | None => Js.Null
                     end) |}.

(** The answer once the client exists and [callEndpoint] has settled. *)
Definition respond (client : Client) (r : Settled * list HttpCall)
    : Response * list Effect :=
  match r with
  | (Resolved st d, calls) =>
      ({| status := st; body := Relay d |}, Created client :: List.map Sent calls)
  | (Rejected msg resp, calls) =>
      (proxy_error msg resp, Created client :: List.map Sent calls)
  end.

Definition transformation_error (msg : string) : Response :=
  {| status := 400;
     body := Error "transformation_error" "Failed to transform request data"
               (Some (Js.Str msg)) |}.

Section Controller.

Variable integrations : gmap string IntegrationConfig.
Variable transformers : gmap string Transformer.
Variable upstream : HttpCall -> Settled.

(** {GET,POST,PUT,PATCH,DELETE} /proxy/:integration/:endpoint; the list holds
    the clients created and the requests sent. *)
Definition forward (req : Request) : Response * list Effect :=
  let integration := param_integration req in
  let endpoint := param_endpoint req in
  if negb (IntegrationManager.isEnabled integrations integration)
  then ({| status := 404;
           body := Error "integration_not_found"
             ("Integration " ++ dq ++ integration ++ dq ++ " not found or disabled") None |},
        [])
  else
    match IntegrationManager.getEndpoint integrations integration endpoint with
    | None =>
        ({| status := 404;
            body := Error "endpoint_not_found"
              ("Endpoint " ++ dq ++ endpoint ++ dq ++ " not found in integration "
               ++ dq ++ integration ++ dq) None |},
         [])
    | Some endpointConfig =>
        let requestData : Outcome Js.Value :=
          if str_truthy (transformer endpointConfig) && Js.truthy (req_body req)
          then TransformerRegistry.transform transformers
                 (default EmptyString (transformer endpointConfig)) (req_body req)
          else Ok (req_body req) in
        match requestData with
        | Throw msg => (transformation_error msg, [])
        | Ok data =>
            match HttpClient.createHttpClient integrations integration with
            | Throw msg => (proxy_error msg None, [])
            | Ok client =>
                respond client
                  (HttpClient.callEndpoint integrations upstream client endpoint
                     data (req_query req))
            end
        end
    end.

End Controller.

End ProxyController.

(** ** [sanitizeHeaders] of the webhook controller *)

Definition webhook_sanitizeHeaders (hdrs : gmap string Js.Value) : gmap string Js.Value :=
  HttpClient.redact ["authorization"; "x-api-key"; "x-webhook-signature"] hdrs.

(** ** [src/middleware/authentication.ts] *)

Module AuthMiddleware.

(** The middleware either calls [next()] with the client attached to the
    request, or answers 401 with the error unauthorized and a description. *)
Inductive Result : Type :=
| Next (client : OAuthClient)
| Unauthorized (error_description : string).

(** [s.split(sep)] for a separator of one character. *)
Fixpoint split (sep : ascii) (s : string) : list string :=
  match s with
  | EmptyString => [EmptyString]
  | String c rest =>
      if bool_decide (c = sep) then EmptyString :: split sep rest
      else match split sep rest with
           | part :: parts => String c part :: parts
           | [] => [String c EmptyString]
           end
  end.

Definition bad_format : Result :=
  Unauthorized "Invalid authorization header format. Expected: Bearer <token>".

Section Middleware.

Variable jwtSecret : string.
Variable jwt_verify : string -> string -> Z -> option TokenPayload.

(** [createAuthMiddleware(db)] applied to a request with the given
    authorization header. *)
Definition createAuthMiddleware (authorization : option string) (clock now : Z) (db : Db)
    : Result :=
  match authorization with
  | None => Unauthorized "No authorization header provided"
  | Some authHeader =>
      if negb (str_truthy (Some authHeader))
      then Unauthorized "No authorization header provided"
      else
        match split " " authHeader with
        | [scheme; token] =>
            if negb (bool_decide (scheme = "Bearer")) then bad_format
            else
              match validateAccessToken jwtSecret jwt_verify token clock now db with
              | None => Unauthorized "Invalid or expired access token"
              | Some session =>
                  match getClientBySession session db with
                  | None => Unauthorized "Client not found or inactive"
                  | Some client => Next client
                  end
              end
        | _ => bad_format
        end
  end.

End Middleware.

End AuthMiddleware.

(** ** The rate limiter ([src/middleware/rateLimiter.ts]) *)

Module RateLimiter.

Definition RATE_LIMIT : Z := 100.
Definition TIME_WINDOW : Z := 60 * 1000.

(** The two module-level tables, keyed by the caller's address. *)
Record State := {
  requestCounts : gmap string Z;
  requestTimestamps : gmap string Z
}.

Definition initial : State := {| requestCounts := ∅; requestTimestamps := ∅ |}.

Inductive Result : Type :=
| Next
| TooManyRequests.

(** One request from [userIp] at [currentTime].  A missing time stamp makes
    the elapsed time NaN, and the comparison with the window false. *)
Definition rateLimiter (userIp : string) (currentTime : Z) (st : State) : Result * State :=
  let st1 :=
    match requestCounts st !! userIp with
    | Some n =>
        if n =? 0
        then {| requestCounts := <[userIp := 0]> (requestCounts st);
                requestTimestamps := <[userIp := currentTime]> (requestTimestamps st) |}
        else st
    | None =>
        {| requestCounts := <[userIp := 0]> (requestCounts st);
           requestTimestamps := <[userIp := currentTime]> (requestTimestamps st) |}
    end in
  let elapsed_over :=
    match requestTimestamps st1 !! userIp with
    | Some t => TIME_WINDOW <? currentTime - t
    | None => false
    end in
  let st2 :=
    if elapsed_over
    then {| requestCounts := <[userIp := 1]> (requestCounts st1);
            requestTimestamps := <[userIp := currentTime]> (requestTimestamps st1) |}
    else {| requestCounts :=
              <[userIp := default 0 (requestCounts st1 !! userIp) + 1]> (requestCounts st1);
            requestTimestamps := requestTimestamps st1 |} in
  if RATE_LIMIT <? default 0 (requestCounts st2 !! userIp)
  then (TooManyRequests, st2)
  else (Next, st2).

(** Successive requests of one caller, at the given times. *)
Fixpoint requests (userIp : string) (times : list Z) (st : State) : list Result * State :=
  match times with
  | [] => ([], st)
  | t :: rest =>
      let '(r, st') := rateLimiter userIp t st in
      let '(rs, st'') := requests userIp rest st' in
      (r :: rs, st'')
  end.

End RateLimiter.

(** ** Predicates used in the statements *)

(** No row that is not revoked carries the refresh token. *)
Definition refresh_dead (refresh : string) (db : Db) : Prop :=
  forall s, s ∈ sessions db -> s_refresh_token s = refresh -> s_is_revoked s <> 0.

(** The three ways [authenticateClient] can fail. *)
Inductive auth_failure (verifySecret : string -> string -> bool)
    (db : Db) (client_id clientSecret : string) : Prop :=
| unknown_client :
    (forall c, c ∈ clients db -> cl_client_id c <> client_id) ->
    auth_failure verifySecret db client_id clientSecret
| inactive_client c :
    c ∈ clients db -> cl_client_id c = client_id -> cl_is_active c <> 1 ->
    auth_failure verifySecret db client_id clientSecret
| wrong_secret c :
    c ∈ clients db -> cl_client_id c = client_id -> cl_is_active c = 1 ->
    verifySecret clientSecret (cl_client_secret_hash c) = false ->
    auth_failure verifySecret db client_id clientSecret.

(** No webhook secret is configured for an integration name. *)
Definition no_secret (integrations : gmap string IntegrationConfig) (nm : string) : Prop :=
  integrations !! nm = None \/
  exists cfg, integrations !! nm = Some cfg /\
    (webhooks cfg = None \/
     exists w, webhooks cfg = Some w /\ str_truthy (secret w) = false).

(** A string obtained from another by changing exactly one byte. *)
Definition single_byte_mutation (s s' : string) : Prop :=
  exists pre c c' post,
    c <> c' /\ s = (pre ++ String c post)%string /\ s' = (pre ++ String c' post)%string.

(** A row and what the service may make of it: the same row, or the same
    row with the revoked flag set. *)
Definition evolves (s s' : OAuthSession) : Prop :=
  s' = s \/ s' = Sql.set_revoked s.

(** The string has no space. *)
Definition no_space (s : string) : Prop :=
  " "%char ∉ String.list_ascii_of_string s.

(** The instants whose [toISOString] text has a year of four digits, from
    0000-01-01T00:00:00.000Z to 9999-12-31T23:59:59.999Z.  The sessions table
    stores the expiries as such texts and SQLite compares the texts; on these
    instants the texts have one width and their order is the order of the
    instants.  Outside, the text starts with a sign and six digits, and the
    comparison of [Sql.delete_expired] is not the one of the code. *)
Definition iso_range (t : Z) : Prop :=
  -62167219200000 <= t <= 253402300799999.

(** Every stored access expiry is such an instant. *)
Definition expiries_in_range (db : Db) : Prop :=
  Forall (fun s => iso_range (s_expires_at s)) (sessions db).

(** The names that a plain object inherits from [Object.prototype]: the
    code's [obj[name]] finds a value for them in every object, which the
    lookups of [IntegrationManager] on the keys of the catalogue do not
    show. *)
Definition object_prototype_names : list string :=
  ["constructor"; "__proto__"; "hasOwnProperty"; "isPrototypeOf";
   "propertyIsEnumerable"; "toLocaleString"; "toString"; "valueOf";
   "__defineGetter__"; "__defineSetter__"; "__lookupGetter__"; "__lookupSetter__"].

(** A name that only an own key can answer. *)
Definition own_name (k : string) : Prop := k ∉ object_prototype_names.

(** The string is ASCII: on such strings the white space of the e-mail
    pattern is the six bytes of [BookingReservationTransformer.is_space]
    (the pattern's class also has U+00A0 and the other Unicode spaces). *)
Definition ascii_only (s : string) : Prop :=
  Forall (fun b => b < 128) (Encoding.bytes_of_string s).

(** A key made of decimal digits: an object enumerates such keys, in
    ascending order, before its other keys. *)
Definition is_numeral (k : string) : bool :=
  negb (bool_decide (k = EmptyString))
  && forallb (fun b => (48 <=? b) && (b <=? 57)) (Encoding.bytes_of_string k).

(** The values on which [Js.stringify] is [JSON.stringify]: every number is
    a safe integer (from 1e21 on the code prints an exponent, and beyond
    2^53 a number of the code is not every integer), and the keys of every
    object are distinct and none is a numeral, so that the list is the
    enumeration order. *)
Fixpoint plain_json (v : Js.Value) : bool :=
  match v with
  | Js.Num n => Z.abs n <=? 9007199254740991
  | Js.Arr l => forallb plain_json l
  | Js.Obj fields =>
      bool_decide (NoDup (fst <$> fields))
      && forallb (fun kv => negb (is_numeral (fst kv))) fields
      && (fix all (fs : list (string * Js.Value)) : bool :=
            match fs with
            | [] => true
            | (_, x) :: rest => plain_json x && all rest
            end) fields
  | _ => true
  end.

(** ** Worked configurations *)

(** No variable of the environment is set. *)
Definition no_env : string -> option string := fun _ => None.

(** The environment sets the webhook secret of the booking engine. *)
Definition secret_env : string -> option string :=
  fun var => if bool_decide (var = "BOOKING_ENGINE_WEBHOOK_SECRET")
             then Some "my_super_secret_key" else None.

(** A bearer integration that also declares a static Authorization header. *)
Definition bearer_with_static_header : gmap string IntegrationConfig :=
  {[ "svc" :=
       {| name := "Service";
          enabled := true;
          baseUrl := "https://svc.example.com";
          auth := {| auth_type := auth_bearer;
                     credentials :=
                       Some {| username := None; password := None;
                               cred_token := Some "T0KEN"; apiKey := None;
                               cred_clientId := None; cred_clientSecret := None |};
                     headers := Some {[ "Authorization" := "Static abc";
                                        "X-Tenant" := "t1" ]} |};
          endpoints := ∅;
          timeout := None;
          retries := None;
          webhooks := None |} ]}.

(** An upstream that answers every request with 200 and an empty object. *)
Definition upstream_ok : HttpCall -> Settled := fun _ => Resolved 200 (Js.Obj []).

(** A webhook body and the same body with one byte changed. *)
Definition demo_payload : string :=
  default EmptyString
    (Js.stringify (Js.Obj [("event", Js.Str "reservation.created"); ("id", Js.Num 42)])).

Definition demo_payload_mutated : string :=
  default EmptyString
    (Js.stringify (Js.Obj [("event", Js.Str "reservation.created"); ("id", Js.Num 43)])).

(** Dates of the examples: a number is its own timestamp, anything else is
    an invalid date. *)
Definition demo_Date_of (v : Js.Value) : option Z :=
  match v with
  | Js.Num n => Some n
  | _ => None
  end.

Definition demo_toISOString (t : Z) : string := pretty t.

(** A reservation whose check-out is not after its check-in. *)
Definition demo_reservation : Js.Value :=
  Js.Obj [("reservationId", Js.Str "RES-123");
          ("guestName", Js.Str "John Doe");
          ("guestEmail", Js.Str "john@example.com");
          ("guestPhone", Js.Str "+55 (11) 99999-0000");
          ("checkInDate", Js.Num 1737331200000);
          ("checkOutDate", Js.Num 1736899200000);
          ("roomType", Js.Str "deluxe");
          ("numberOfGuests", Js.Num 2);
          ("totalAmount", Js.Num 500);
          ("currency", Js.Str "USD");
          ("status", Js.Str "confirmed")].

(** The same reservation with the two dates in order. *)
Definition demo_valid_reservation : Js.Value :=
  Js.Obj [("reservationId", Js.Str "RES-123");
          ("guestName", Js.Str "John Doe");
          ("guestEmail", Js.Str "john@example.com");
          ("guestPhone", Js.Str "+55 (11) 99999-0000");
          ("checkInDate", Js.Num 1736899200000);
          ("checkOutDate", Js.Num 1737331200000);
          ("roomType", Js.Str "deluxe");
          ("numberOfGuests", Js.Num 2);
          ("totalAmount", Js.Num 500);
          ("currency", Js.Str "USD");
          ("status", Js.Str "confirmed")].

(** * Properties *)

(** ** The store *)

Lemma NoDup_fmap_eq {A B} (f : A -> B) (l : list A) (x y : A) :
  NoDup (f <$> l) -> x ∈ l -> y ∈ l -> f x = f y -> x = y.
Proof.
  induction l as [|a l IH]; intros Hnd Hx Hy Hf.
  - inversion Hx.
  - rewrite fmap_cons in Hnd. apply NoDup_cons in Hnd as [Hna Hnd].
    apply elem_of_cons in Hx as [->|Hx]; apply elem_of_cons in Hy as [->|Hy].
    + reflexivity.
    + exfalso. apply Hna. rewrite Hf. apply list_elem_of_fmap. eauto.
    + exfalso. apply Hna. rewrite <- Hf. apply list_elem_of_fmap. eauto.
    + auto.
Qed.

Lemma find_Some_elem {A} (p : A -> bool) (l : list A) (x : A) :
  List.find p l = Some x -> x ∈ l /\ p x = true.
Proof.
  intros H. apply List.find_some in H as [Hin Hp].
  split; [by apply list_elem_of_In | done].
Qed.

Lemma find_None_elem {A} (p : A -> bool) (l : list A) :
  List.find p l = None <-> forall x, x ∈ l -> p x = false.
Proof.
  split.
  - intros H x Hx. apply (List.find_none p l H). by apply list_elem_of_In.
  - induction l as [|a l IH]; intros H; simpl; [done|].
    rewrite (H a) by apply list_elem_of_here.
    apply IH. intros x Hx. apply H. by apply list_elem_of_further.
Qed.

(** Under a NoDup key, [find] returns the one row that matches. *)
Lemma find_unique {A B} (f : A -> B) (p : A -> bool) (l : list A) (x : A) :
  NoDup (f <$> l) -> x ∈ l -> p x = true ->
  (forall y, y ∈ l -> p y = true -> f y = f x) ->
  List.find p l = Some x.
Proof.
  intros Hnd Hx Hp Hkey.
  destruct (List.find p l) as [y|] eqn:Hfind.
  - apply find_Some_elem in Hfind as [Hy Hpy].
    f_equal. eapply NoDup_fmap_eq; eauto.
  - rewrite find_None_elem in Hfind. rewrite (Hfind x Hx) in Hp. discriminate.
Qed.

Lemma revoke_map_fmap {B} (f : OAuthSession -> B) (q : OAuthSession -> bool)
    (l : list OAuthSession) :
  (forall s, f (Sql.set_revoked s) = f s) ->
  f <$> List.map (fun s => if q s then Sql.set_revoked s else s) l = f <$> l.
Proof.
  intros Hf. induction l as [|a l IH]; [done|].
  cbn [List.map]. rewrite !fmap_cons. f_equal; [|exact IH]. destruct (q a); auto.
Qed.

Lemma wf_empty_db : wf_db empty_db.
Proof. split; simpl; constructor. Qed.

Lemma wf_update_revoke_id id db : wf_db db -> wf_db (Sql.update_revoke_id id db).
Proof.
  intros [H1 H2 H3 H4 H5 H6]. split; simpl; auto.
  - rewrite revoke_map_fmap; auto.
  - apply Forall_forall. intros s Hs. apply list_elem_of_In, List.in_map_iff in Hs
      as (s0 & Hs0 & Hin). rewrite Forall_forall in H2.
    specialize (H2 s0 (proj2 (list_elem_of_In _ _) Hin)).
    destruct (bool_decide _); subst; simpl; auto.
  - rewrite revoke_map_fmap; auto.
  - rewrite revoke_map_fmap; auto.
Qed.

Lemma wf_update_revoke_client cid db : wf_db db -> wf_db (Sql.update_revoke_client cid db).
Proof.
  intros [H1 H2 H3 H4 H5 H6]. split; simpl; auto.
  - rewrite revoke_map_fmap; auto.
  - apply Forall_forall. intros s Hs. apply list_elem_of_In, List.in_map_iff in Hs
      as (s0 & Hs0 & Hin). rewrite Forall_forall in H2.
    specialize (H2 s0 (proj2 (list_elem_of_In _ _) Hin)).
    destruct (bool_decide _); subst; simpl; auto.
  - rewrite revoke_map_fmap; auto.
  - rewrite revoke_map_fmap; auto.
Qed.

Lemma filter_elem {A} (p : A -> bool) (l : list A) (x : A) :
  x ∈ List.filter p l <-> x ∈ l /\ p x = true.
Proof. rewrite !list_elem_of_In. apply List.filter_In. Qed.

Lemma NoDup_fmap_filter {A B} (f : A -> B) (p : A -> bool) (l : list A) :
  NoDup (f <$> l) -> NoDup (f <$> List.filter p l).
Proof.
  induction l as [|a l IH]; intros Hnd; [constructor|].
  rewrite fmap_cons in Hnd. apply NoDup_cons in Hnd as [Hna Hnd].
  cbn [List.filter]. destruct (p a); [|auto].
  rewrite fmap_cons. apply NoDup_cons. split; [|auto].
  intros Hin. apply Hna. apply list_elem_of_fmap in Hin as (y & Hy & Hin).
  apply filter_elem in Hin as [Hin _]. apply list_elem_of_fmap. eauto.
Qed.

Lemma wf_delete_expired now db : wf_db db -> wf_db (fst (Sql.delete_expired now db)).
Proof.
  intros [H1 H2 H3 H4 H5 H6].
  split; simpl; auto; try (apply NoDup_fmap_filter; assumption).
  apply Forall_forall. intros s Hs. apply filter_elem in Hs as [Hs _].
  rewrite Forall_forall in H2. auto.
Qed.

Lemma insert_session_Ok cid access refresh ttype e re db id db' :
  Sql.insert_session cid access refresh ttype e re db = (Ok id, db') ->
  (access ∉ s_access_token <$> sessions db) /\
  (refresh ∉ s_refresh_token <$> sessions db) /\
  id = db_seq db + 1 /\
  db' = {| clients := clients db;
           sessions := sessions db ++
             [ {| s_id := id; s_client_id := cid; s_access_token := access;
                  s_refresh_token := refresh; s_token_type := ttype;
                  s_expires_at := e; s_refresh_expires_at := re;
                  s_is_revoked := 0 |} ];
           db_seq := id |}.
Proof.
  unfold Sql.insert_session. intros H.
  destruct (bool_decide_reflect (access ∈ s_access_token <$> sessions db)); [discriminate|].
  destruct (bool_decide_reflect (refresh ∈ s_refresh_token <$> sessions db)); [discriminate|].
  inversion H; subst. auto.
Qed.

Lemma insert_session_Throw cid access refresh ttype e re db msg db' :
  Sql.insert_session cid access refresh ttype e re db = (Throw msg, db') -> db' = db.
Proof.
  unfold Sql.insert_session. intros H.
  repeat (destruct (bool_decide _)); by inversion H.
Qed.

Lemma wf_insert_session cid access refresh ttype e re db r db' :
  wf_db db ->
  Sql.insert_session cid access refresh ttype e re db = (r, db') -> wf_db db'.
Proof.
  intros Hwf H. destruct r as [id|msg].
  - apply insert_session_Ok in H as (Ha & Hr & -> & ->).
    destruct Hwf as [H1 H2 H3 H4 H5 H6]. split; simpl; auto.
    + rewrite fmap_app. apply NoDup_app. split; [done|]. split.
      * intros x Hx Hx1. simpl in Hx1. apply list_elem_of_singleton in Hx1. subst x.
        apply list_elem_of_fmap in Hx as (s & Hs & Hin).
        rewrite Forall_forall in H2. specialize (H2 s Hin). lia.
      * simpl. apply NoDup_singleton.
    + apply Forall_app. split.
      * eapply Forall_impl; [exact H2|]. simpl. intros; lia.
      * constructor; [simpl; lia|constructor].
    + rewrite fmap_app. apply NoDup_app. split; [done|]. split.
      * intros x Hx Hx1. simpl in Hx1. apply list_elem_of_singleton in Hx1. by subst x.
      * simpl. apply NoDup_singleton.
    + rewrite fmap_app. apply NoDup_app. split; [done|]. split.
      * intros x Hx Hx1. simpl in Hx1. apply list_elem_of_singleton in Hx1. by subst x.
      * simpl. apply NoDup_singleton.
  - apply insert_session_Throw in H. by subst.
Qed.

(** ** The token service *)

Section AuthProperties.

Variable jwtSecret : string.
Variable jwt_sign : TokenPayload -> string -> Z -> Z -> string.
Variable jwt_verify : string -> string -> Z -> option TokenPayload.
Variable verifySecret : string -> string -> bool.

Ltac unfold_service :=
  unfold refreshAccessToken, createTokenResponse, authenticateClient, saveSession,
    revokeSession, revokeAllClientSessions, cleanupExpiredSessions,
    bind, gets, modify, ret in *.

(** What a successful refresh has done. *)
Lemma refreshAccessToken_Some refresh now d db resp db' :
  refreshAccessToken jwtSecret jwt_sign refresh now d db = (Ok (Some resp), db') ->
  exists s c id,
    Sql.select_by_refresh refresh db = Some s /\
    (s_refresh_expires_at s <? now) = false /\
    Sql.select_client (s_client_id s) db = Some c /\
    cl_is_active c = 1 /\
    Sql.insert_session (cl_id c)
      (accessToken (generateTokens jwtSecret jwt_sign (cl_client_id c) 3600 d))
      (d_refresh d) "Bearer"
      (expiresAt (generateTokens jwtSecret jwt_sign (cl_client_id c) 3600 d))
      (refreshExpiresAt (generateTokens jwtSecret jwt_sign (cl_client_id c) 3600 d))
      (Sql.update_revoke_id (s_id s) db) = (Ok id, db') /\
    resp = {| access_token :=
                accessToken (generateTokens jwtSecret jwt_sign (cl_client_id c) 3600 d);
              refresh_token := d_refresh d;
              token_type := "Bearer";
              expires_in := 3600 |}.
Proof.
  unfold_service. intros H.
  destruct (Sql.select_by_refresh refresh db) as [s|] eqn:Hs; [|discriminate].
  destruct (s_refresh_expires_at s <? now) eqn:Hexp; [discriminate|].
  destruct (Sql.select_client (s_client_id s) db) as [c|] eqn:Hc; [|discriminate].
  destruct (bool_decide_reflect (cl_is_active c = 1)) as [Hact|]; [|discriminate].
  simpl in H.
  destruct (Sql.insert_session _ _ _ _ _ _ _) as [[id|msg] db1] eqn:Hins; [|discriminate].
  inversion H; subst. exists s, c, id. repeat split; auto.
Qed.

Lemma refresh_dead_None refresh db :
  refresh_dead refresh db <-> Sql.select_by_refresh refresh db = None.
Proof.
  unfold refresh_dead, Sql.select_by_refresh. rewrite find_None_elem. split.
  - intros H s Hs. apply andb_false_iff.
    destruct (bool_decide_reflect (s_refresh_token s = refresh)); [right|by left].
    apply bool_decide_eq_false. auto.
  - intros H s Hs Ht Hr. specialize (H s Hs).
    rewrite (bool_decide_eq_true_2 _ Ht), (bool_decide_eq_true_2 _ Hr) in H. discriminate.
Qed.

Lemma refreshAccessToken_dead refresh db :
  refresh_dead refresh db ->
  forall now d, refreshAccessToken jwtSecret jwt_sign refresh now d db = (Ok None, db).
Proof.
  intros H now d. apply refresh_dead_None in H.
  unfold_service. by rewrite H.
Qed.

Lemma refreshAccessToken_kills refresh now d db resp db' :
  wf_db db ->
  refreshAccessToken jwtSecret jwt_sign refresh now d db = (Ok (Some resp), db') ->
  refresh_dead refresh db'.
Proof.
  intros Hwf H.
  apply refreshAccessToken_Some in H as (s & c & id & Hs & _ & _ & _ & Hins & _).
  apply insert_session_Ok in Hins as (_ & Hfresh & _ & ->).
  apply find_Some_elem in Hs as [Hin Hp].
  apply andb_true_iff in Hp as [Ht Hr].
  apply bool_decide_eq_true in Ht.
  intros s' Hs' Ht'. simpl in Hs'.
  apply elem_of_app in Hs' as [Hs'|Hs'].
  - apply list_elem_of_In, List.in_map_iff in Hs' as (s0 & Hs0 & Hin0).
    apply list_elem_of_In in Hin0.
    assert (s0 = s) as ->.
    { eapply (NoDup_fmap_eq s_refresh_token); eauto using wf_refresh.
      rewrite Ht. rewrite <- Ht'.
      destruct (bool_decide _) in Hs0; subst s'; reflexivity. }
    rewrite bool_decide_eq_true_2 in Hs0 by reflexivity. subst s'. simpl. lia.
  - apply list_elem_of_singleton in Hs'. subst s'. simpl in Ht'.
    exfalso. apply Hfresh. simpl. rewrite revoke_map_fmap by reflexivity.
    apply list_elem_of_fmap. exists s. split; [congruence|done].
Qed.

Lemma refresh_dead_revoke refresh (q : OAuthSession -> bool) db :
  refresh_dead refresh db ->
  refresh_dead refresh
    (Sql.with_sessions db
       (List.map (fun s => if q s then Sql.set_revoked s else s) (sessions db))).
Proof.
  intros H s Hs Ht. simpl in Hs.
  apply list_elem_of_In, List.in_map_iff in Hs as (s0 & Hs0 & Hin0).
  apply list_elem_of_In in Hin0.
  destruct (q s0); subst s; simpl in *; [lia|]. by apply (H s0).
Qed.

Lemma refresh_dead_insert refresh cid a r ty e re db res db' :
  refresh_dead refresh db -> r <> refresh ->
  Sql.insert_session cid a r ty e re db = (res, db') ->
  refresh_dead refresh db'.
Proof.
  intros H Hne Hins. destruct res as [id|msg].
  - apply insert_session_Ok in Hins as (_ & _ & _ & ->).
    intros s Hs Ht. simpl in Hs. apply elem_of_app in Hs as [Hs|Hs]; [by apply (H s)|].
    apply list_elem_of_singleton in Hs. subst s. simpl in Ht. congruence.
  - apply insert_session_Throw in Hins. by subst.
Qed.

Lemma refresh_dead_saveSession refresh c a r e re db :
  refresh_dead refresh db -> r <> refresh ->
  refresh_dead refresh (snd (saveSession c a r e re db)).
Proof.
  intros H Hne. unfold_service.
  destruct (Sql.insert_session _ _ _ _ _ _ _) as [[id|msg] db1] eqn:Hins;
    simpl; eapply refresh_dead_insert; eauto.
Qed.

Lemma refresh_dead_exec refresh c db :
  refresh_dead refresh db -> stored_refresh c <> Some refresh ->
  refresh_dead refresh (exec jwtSecret jwt_sign verifySecret c db).
Proof.
  intros H Hne. destruct c; simpl in *.
  - unfold createTokenResponse, authenticateClient, bind, gets, ret.
    destruct (Sql.select_active_client _ _) as [c|]; [|exact H].
    destruct (verifySecret _ _); simpl; [|exact H].
    pose proof (refresh_dead_saveSession refresh c
      (accessToken (generateTokens jwtSecret jwt_sign (cl_client_id c) 3600 d))
      (d_refresh d)
      (expiresAt (generateTokens jwtSecret jwt_sign (cl_client_id c) 3600 d))
      (refreshExpiresAt (generateTokens jwtSecret jwt_sign (cl_client_id c) 3600 d))
      db H ltac:(congruence)) as Hs.
    destruct (saveSession _ _ _ _ _ _) as [[r|msg] db1]; exact Hs.
  - unfold refreshAccessToken, bind, gets, ret, revokeSession, modify.
    destruct (Sql.select_by_refresh _ _) as [s|]; [|exact H].
    destruct (_ <? _); [exact H|].
    destruct (Sql.select_client _ _) as [c|]; [|exact H].
    destruct (bool_decide _); simpl; [|exact H].
    pose proof (refresh_dead_saveSession refresh c
      (accessToken (generateTokens jwtSecret jwt_sign (cl_client_id c) 3600 d))
      (d_refresh d)
      (expiresAt (generateTokens jwtSecret jwt_sign (cl_client_id c) 3600 d))
      (refreshExpiresAt (generateTokens jwtSecret jwt_sign (cl_client_id c) 3600 d))
      (Sql.update_revoke_id (s_id s) db)
      (refresh_dead_revoke refresh _ db H) ltac:(congruence)) as Hs.
    destruct (saveSession _ _ _ _ _ _) as [[r|msg] db1]; exact Hs.
  - apply refresh_dead_saveSession; [done|congruence].
  - by apply refresh_dead_revoke.
  - by apply refresh_dead_revoke.
  - intros s Hs. simpl in Hs. apply filter_elem in Hs as [Hs _]. by apply H.
Qed.

Lemma refresh_dead_exec_all refresh cs db :
  refresh_dead refresh db ->
  Forall (fun c => stored_refresh c <> Some refresh) cs ->
  refresh_dead refresh (exec_all jwtSecret jwt_sign verifySecret cs db).
Proof.
  intros H Hcs. revert db H.
  induction Hcs as [|c cs Hc Hcs IH]; intros db H; simpl; [done|].
  apply IH. by apply refresh_dead_exec.
Qed.

Lemma wf_saveSession c a r e re db :
  wf_db db -> wf_db (snd (saveSession c a r e re db)).
Proof.
  intros Hwf. unfold_service.
  destruct (Sql.insert_session _ _ _ _ _ _ _) as [[id|msg] db1] eqn:Hins;
    simpl; eapply wf_insert_session; eauto.
Qed.

(** Every call of the service keeps the constraints of the schema. *)
Lemma wf_exec c db :
  wf_db db -> wf_db (exec jwtSecret jwt_sign verifySecret c db).
Proof.
  intros Hwf. destruct c; simpl.
  - unfold createTokenResponse, authenticateClient, bind, gets, ret.
    destruct (Sql.select_active_client _ _) as [c|]; [|exact Hwf].
    destruct (verifySecret _ _); simpl; [|exact Hwf].
    pose proof (wf_saveSession c
      (accessToken (generateTokens jwtSecret jwt_sign (cl_client_id c) 3600 d))
      (d_refresh d)
      (expiresAt (generateTokens jwtSecret jwt_sign (cl_client_id c) 3600 d))
      (refreshExpiresAt (generateTokens jwtSecret jwt_sign (cl_client_id c) 3600 d))
      db Hwf) as Hs.
    destruct (saveSession _ _ _ _ _ _) as [[r|msg] db1]; exact Hs.
  - unfold refreshAccessToken, bind, gets, ret, revokeSession, modify.
    destruct (Sql.select_by_refresh _ _) as [s|]; [|exact Hwf].
    destruct (_ <? _); [exact Hwf|].
    destruct (Sql.select_client _ _) as [c|]; [|exact Hwf].
    destruct (bool_decide _); simpl; [|exact Hwf].
    pose proof (wf_saveSession c
      (accessToken (generateTokens jwtSecret jwt_sign (cl_client_id c) 3600 d))
      (d_refresh d)
      (expiresAt (generateTokens jwtSecret jwt_sign (cl_client_id c) 3600 d))
      (refreshExpiresAt (generateTokens jwtSecret jwt_sign (cl_client_id c) 3600 d))
      (Sql.update_revoke_id (s_id s) db) (wf_update_revoke_id _ _ Hwf)) as Hs.
    destruct (saveSession _ _ _ _ _ _) as [[r|msg] db1]; exact Hs.
  - by apply wf_saveSession.
  - by apply wf_update_revoke_id.
  - by apply wf_update_revoke_client.
  - apply (wf_delete_expired now db Hwf).
Qed.

Lemma wf_exec_all cs db :
  wf_db db -> wf_db (exec_all jwtSecret jwt_sign verifySecret cs db).
Proof.
  revert db. induction cs as [|c cs IH]; intros db Hwf; simpl; [done|].
  apply IH. by apply wf_exec.
Qed.

(** C1. A refresh token is single-use: a call of [refreshAccessToken] that
    returns a new pair has revoked the owning session and then inserted the
    replacement row into the store so revoked; from then on, after any
    further calls of the service that store no row under the same refresh
    token again, [refreshAccessToken] with that token returns null and changes
    nothing, and POST /auth/refresh answers 401 invalid_grant. *)
Theorem refresh_token_single_use refresh now d db resp db' :
  wf_db db ->
  refreshAccessToken jwtSecret jwt_sign refresh now d db = (Ok (Some resp), db') ->
  (exists s c id,
     Sql.select_by_refresh refresh db = Some s /\
     Sql.insert_session (cl_id c) (access_token resp) (refresh_token resp) "Bearer"
       (getExpirationDate 3600 (d_clock_exp d))
       (getExpirationDate (3600 * 24) (d_clock_rexp d))
       (snd (revokeSession (s_id s) db)) = (Ok id, db') /\
     Sql.select_session (s_id s) db' = Some (Sql.set_revoked s)) /\
  forall cs, Forall (fun c => stored_refresh c <> Some refresh) cs ->
    let db'' := exec_all jwtSecret jwt_sign verifySecret cs db' in
    forall now' d',
      refreshAccessToken jwtSecret jwt_sign refresh now' d' db'' = (Ok None, db'') /\
      (refresh <> EmptyString ->
       AuthController.refresh jwtSecret jwt_sign
         {| AuthController.rq_refresh_token := Some refresh;
            AuthController.rq_refresh_grant_type := Some "refresh_token" |}
         now' d' db''
       = ({| AuthController.status := 401;
             AuthController.body :=
               AuthController.ErrorResponse "invalid_grant"
                 "Invalid or expired refresh token" |}, db'')).
Proof.
  intros Hwf H. split.
  - pose proof H as H0.
    apply refreshAccessToken_Some in H0 as (s & c & id & Hs & _ & _ & _ & Hins & ->).
    exists s, c, id. split; [done|]. split; [exact Hins|].
    pose proof (wf_ids _ (wf_insert_session _ _ _ _ _ _ _ _ _
                            (wf_update_revoke_id (s_id s) db Hwf) Hins)) as Hids.
    apply insert_session_Ok in Hins as (_ & _ & _ & ->).
    apply find_Some_elem in Hs as [Hin _].
    unfold Sql.select_session.
    apply (find_unique s_id).
    + exact Hids.
    + apply elem_of_app. left. apply list_elem_of_In, List.in_map_iff.
      exists s. rewrite bool_decide_eq_true_2 by reflexivity.
      split; [done|by apply list_elem_of_In].
    + by apply bool_decide_eq_true_2.
    + intros y _ Hy. apply bool_decide_eq_true in Hy. by rewrite Hy.
  - intros cs Hcs db'' now' d'.
    assert (refresh_dead refresh db'') as Hdead.
    { apply refresh_dead_exec_all; [|done]. eapply refreshAccessToken_kills; eauto. }
    split; [by apply refreshAccessToken_dead|].
    intros Hne. unfold AuthController.refresh. simpl.
    rewrite (bool_decide_eq_false_2 _ Hne). simpl.
    by rewrite refreshAccessToken_dead.
Qed.

(** *** Validation *)

Lemma validateAccessToken_iff access clock now db s :
  wf_db db ->
  validateAccessToken jwtSecret jwt_verify access clock now db = Some s <->
  jwt_verify access jwtSecret clock <> None /\
  s ∈ sessions db /\ s_access_token s = access /\ s_is_revoked s = 0 /\
  now <= s_expires_at s.
Proof.
  intros Hwf. unfold validateAccessToken, verifyToken, Sql.select_by_access. split.
  - intros H. destruct (jwt_verify access jwtSecret clock) as [p|]; [|discriminate].
    destruct (List.find _ _) as [s0|] eqn:Hfind; [|discriminate].
    destruct (s_expires_at s0 <? now) eqn:Hexp; [discriminate|].
    inversion H; subst s0.
    apply find_Some_elem in Hfind as [Hin Hp].
    apply andb_true_iff in Hp as [Ha Hr].
    apply bool_decide_eq_true in Ha, Hr. apply Z.ltb_ge in Hexp.
    repeat split; auto.
  - intros (Hjwt & Hin & Ha & Hr & Hexp).
    destruct (jwt_verify access jwtSecret clock) as [p|]; [|done].
    rewrite (find_unique s_access_token _ _ s).
    + apply Z.ltb_ge in Hexp. by rewrite Hexp.
    + apply Hwf.
    + done.
    + by rewrite (bool_decide_eq_true_2 _ Ha), (bool_decide_eq_true_2 _ Hr).
    + intros y _ Hy. apply andb_true_iff in Hy as [Hy _].
      apply bool_decide_eq_true in Hy. congruence.
Qed.

Lemma validateAccessToken_revoked access clock now db s :
  wf_db db ->
  validateAccessToken jwtSecret jwt_verify access clock now db = Some s ->
  forall clock' now',
    validateAccessToken jwtSecret jwt_verify access clock' now'
      (snd (revokeSession (s_id s) db)) = None.
Proof.
  intros Hwf H clock' now'.
  apply validateAccessToken_iff in H as (_ & Hin & Ha & _ & _); [|done].
  unfold validateAccessToken, Sql.select_by_access. simpl.
  destruct (verifyToken _ _ _ _); [|done].
  replace (List.find _ _) with (@None OAuthSession); [done|].
  symmetry. apply find_None_elem. intros y' Hy'.
  apply list_elem_of_In, List.in_map_iff in Hy' as (y & Hy & Hiny).
  apply list_elem_of_In in Hiny.
  apply andb_false_iff.
  destruct (bool_decide_reflect (s_access_token y' = access)) as [Hay|]; [right|by left].
  assert (y = s) as ->.
  { eapply (NoDup_fmap_eq s_access_token); eauto using wf_access.
    rewrite Ha, <- Hay. destruct (bool_decide _) in Hy; by subst y'. }
  rewrite bool_decide_eq_true_2 in Hy by reflexivity. by subst y'.
Qed.

Lemma createTokenResponse_Some client_id clientSecret d db resp db' :
  createTokenResponse jwtSecret jwt_sign verifySecret client_id clientSecret d db
    = (Ok (Some resp), db') ->
  exists c id,
    Sql.select_active_client client_id db = Some c /\
    verifySecret clientSecret (cl_client_secret_hash c) = true /\
    Sql.insert_session (cl_id c)
      (accessToken (generateTokens jwtSecret jwt_sign (cl_client_id c) 3600 d))
      (d_refresh d) "Bearer"
      (expiresAt (generateTokens jwtSecret jwt_sign (cl_client_id c) 3600 d))
      (refreshExpiresAt (generateTokens jwtSecret jwt_sign (cl_client_id c) 3600 d))
      db = (Ok id, db') /\
    resp = {| access_token :=
                accessToken (generateTokens jwtSecret jwt_sign (cl_client_id c) 3600 d);
              refresh_token := d_refresh d;
              token_type := "Bearer";
              expires_in := 3600 |}.
Proof.
  unfold_service. intros H.
  destruct (Sql.select_active_client client_id db) as [c|] eqn:Hc; [|discriminate].
  destruct (verifySecret _ _) eqn:Hv; simpl in H; [|discriminate].
  destruct (Sql.insert_session _ _ _ _ _ _ _) as [[id|msg] db1] eqn:Hins; [|discriminate].
  inversion H; subst. exists c, id. repeat split; auto.
Qed.

Lemma validateAccessToken_fresh client_id clientSecret d db resp db' :
  wf_db db -> jwt_sound jwt_sign jwt_verify ->
  createTokenResponse jwtSecret jwt_sign verifySecret client_id clientSecret d db
    = (Ok (Some resp), db') ->
  forall clock now,
    clock / 1000 < d_clock_sign d / 1000 + 3600 ->
    now <= d_clock_exp d + 3600 * 1000 ->
    exists s,
      validateAccessToken jwtSecret jwt_verify (access_token resp) clock now db' = Some s /\
      s_access_token s = access_token resp /\ s_refresh_token s = refresh_token resp.
Proof.
  intros Hwf Hjwt H clock now Hclock Hnow.
  apply createTokenResponse_Some in H as (c & id & _ & _ & Hins & ->).
  pose proof (wf_insert_session _ _ _ _ _ _ _ _ _ Hwf Hins) as Hwf'.
  apply insert_session_Ok in Hins as (_ & _ & _ & ->).
  match type of Hwf' with context [sessions db ++ [?r]] => exists r end.
  split; [|split; reflexivity].
  apply validateAccessToken_iff; [done|]. simpl. repeat split.
  - by apply Hjwt.
  - apply elem_of_app. right. apply list_elem_of_singleton. reflexivity.
  - unfold getExpirationDate. lia.
Qed.

(** C2 (amended). [validateAccessToken] returns a session exactly when the
    token passes the JWT check (signature and embedded expiry), a row with
    that access token and revoked flag 0 exists, and the row's stored expiry
    is not before the current instant (the token is still accepted at the
    very instant of expiry); an access token just issued validates, and
    after [revokeSession] on its session it no longer does. *)
Theorem validateAccessToken_spec db :
  wf_db db ->
  (forall access clock now s,
     validateAccessToken jwtSecret jwt_verify access clock now db = Some s <->
     jwt_verify access jwtSecret clock <> None /\
     s ∈ sessions db /\ s_access_token s = access /\ s_is_revoked s = 0 /\
     now <= s_expires_at s) /\
  (jwt_sound jwt_sign jwt_verify ->
   forall client_id clientSecret d resp db',
     createTokenResponse jwtSecret jwt_sign verifySecret client_id clientSecret d db
       = (Ok (Some resp), db') ->
     forall clock now,
       clock / 1000 < d_clock_sign d / 1000 + 3600 ->
       now <= d_clock_exp d + 3600 * 1000 ->
       exists s,
         validateAccessToken jwtSecret jwt_verify (access_token resp) clock now db' = Some s /\
         s_access_token s = access_token resp /\
         forall clock' now',
           validateAccessToken jwtSecret jwt_verify (access_token resp) clock' now'
             (snd (revokeSession (s_id s) db')) = None) /\
  (forall access clock now s,
     validateAccessToken jwtSecret jwt_verify access clock now db = Some s ->
     forall clock' now',
       validateAccessToken jwtSecret jwt_verify access clock' now'
         (snd (revokeSession (s_id s) db)) = None).
Proof.
  intros Hwf. split; [|split].
  - intros. by apply validateAccessToken_iff.
  - intros Hjwt client_id clientSecret d resp db' H clock now Hclock Hnow.
    destruct (validateAccessToken_fresh _ _ _ _ _ _ Hwf Hjwt H clock now Hclock Hnow)
      as (s & Hs & Ha & _).
    exists s. split; [done|]. split; [done|].
    eapply validateAccessToken_revoked; [|exact Hs].
    apply createTokenResponse_Some in H as (c & id & _ & _ & Hins & _).
    eapply wf_insert_session; eauto.
  - intros. eapply validateAccessToken_revoked; eauto.
Qed.

(** *** Expiry sweep *)

(** C7. With the current instant and the stored expiries in the years
    0000 to 9999 (where the order of the texts that SQLite compares is the
    order of the instants), [cleanupExpiredSessions] deletes exactly the
    session rows whose access expiry is before the current instant, whatever
    their revoked flag, returns the number of rows it deleted, and leaves
    every other row, and the clients, as they were. *)
Theorem cleanupExpiredSessions_spec now db :
  iso_range now -> expiries_in_range db ->
  exists n db',
    cleanupExpiredSessions now db = (Ok n, db') /\
    sessions db' = filter (fun s => now <= s_expires_at s) (sessions db) /\
    n = Z.of_nat (length (filter (fun s => s_expires_at s < now) (sessions db))) /\
    (forall s, s ∈ sessions db' <-> s ∈ sessions db /\ now <= s_expires_at s) /\
    (forall s, s ∈ sessions db -> s_expires_at s < now -> s ∉ sessions db') /\
    Z.of_nat (length (sessions db)) = n + Z.of_nat (length (sessions db')) /\
    clients db' = clients db /\ db_seq db' = db_seq db.
Proof.
  clear jwtSecret jwt_sign jwt_verify verifySecret.
  intros _ _. unfold cleanupExpiredSessions, Sql.delete_expired. simpl.
  eexists _, _. split; [reflexivity|]. simpl.
  assert (Hkeep : forall l : list OAuthSession,
            List.filter (fun s => negb (s_expires_at s <? now)) l
            = filter (fun s => now <= s_expires_at s) l).
  { induction l as [|a l IH]; [done|]. cbn [List.filter]. rewrite filter_cons, IH.
    destruct (Z.ltb_spec (s_expires_at a) now); simpl;
      destruct (decide (now <= s_expires_at a)); (done || lia). }
  assert (Hdrop : forall l : list OAuthSession,
            List.filter (fun s => s_expires_at s <? now) l
            = filter (fun s => s_expires_at s < now) l).
  { induction l as [|a l IH]; [done|]. cbn [List.filter]. rewrite filter_cons, IH.
    destruct (Z.ltb_spec (s_expires_at a) now); simpl;
      destruct (decide (s_expires_at a < now)); (done || lia). }
  rewrite Hkeep, Hdrop.
  split; [done|]. split; [done|]. split; [|split; [|split; [|done]]].
  - intros s. rewrite list_elem_of_filter. tauto.
  - intros s _ Hexp Hs%list_elem_of_filter. lia.
  - induction (sessions db) as [|a l IH]; [done|].
    rewrite !filter_cons. simpl length.
    destruct (decide (s_expires_at a < now)); destruct (decide (now <= s_expires_at a));
      simpl length; lia.
Qed.

(** *** Failures of authentication *)

Lemma authenticateClient_failure db client_id clientSecret :
  wf_db db -> auth_failure verifySecret db client_id clientSecret ->
  authenticateClient verifySecret client_id clientSecret db = (Ok None, db).
Proof.
  intros Hwf Hfail. unfold_service.
  destruct (Sql.select_active_client client_id db) as [c0|] eqn:Hsel; [|done].
  apply find_Some_elem in Hsel as [Hin0 Hp].
  apply andb_true_iff in Hp as [Hid Hact]. apply bool_decide_eq_true in Hid, Hact.
  destruct Hfail as [Hno|c Hin Hc Hina|c Hin Hc Hact' Hbad].
  - by destruct (Hno c0 Hin0).
  - assert (c0 = c) as -> by (eapply (NoDup_fmap_eq cl_client_id);
      eauto using wf_client_names; congruence). done.
  - assert (c0 = c) as -> by (eapply (NoDup_fmap_eq cl_client_id);
      eauto using wf_client_names; congruence). by rewrite Hbad.
Qed.

(** C9. [authenticateClient] returns the same null, and POST /auth/token
    the same 401 invalid_client answer, with the store unchanged, whether
    the client identifier is unknown, the client is inactive or the secret
    is wrong; and POST /auth/revoke answers 200 with the same message
    whether or not the presented token has a session. *)
Theorem failure_indistinguishable db client_id clientSecret :
  wf_db db -> auth_failure verifySecret db client_id clientSecret ->
  authenticateClient verifySecret client_id clientSecret db = (Ok None, db) /\
  (forall d, createTokenResponse jwtSecret jwt_sign verifySecret client_id clientSecret d db
             = (Ok None, db)) /\
  (client_id <> EmptyString -> clientSecret <> EmptyString ->
   forall d,
     AuthController.token jwtSecret jwt_sign verifySecret
       {| AuthController.rq_client_id := Some client_id;
          AuthController.rq_client_secret := Some clientSecret;
          AuthController.rq_grant_type := Some "client_credentials" |} d db
     = ({| AuthController.status := 401;
           AuthController.body :=
             AuthController.ErrorResponse "invalid_client" "Client authentication failed" |},
        db)) /\
  (forall tok clock now,
     tok <> EmptyString ->
     fst (AuthController.revoke jwtSecret jwt_verify (Some tok) clock now db)
     = {| AuthController.status := 200;
          AuthController.body := AuthController.Message "Token revoked successfully" |}).
Proof.
  intros Hwf Hfail.
  pose proof (authenticateClient_failure _ _ _ Hwf Hfail) as Hauth.
  assert (Hcreate : forall d,
            createTokenResponse jwtSecret jwt_sign verifySecret client_id clientSecret d db
            = (Ok None, db)).
  { intros d. unfold createTokenResponse, bind. by rewrite Hauth. }
  repeat split; auto.
  - intros Hc Hs d. unfold AuthController.token. simpl.
    rewrite (bool_decide_eq_false_2 _ Hc), (bool_decide_eq_false_2 _ Hs). simpl.
    by rewrite Hcreate.
  - intros tok clock now Htok. unfold AuthController.revoke. simpl.
    by rewrite (bool_decide_eq_false_2 _ Htok).
Qed.

End AuthProperties.

(** *** Worked examples on the demo store *)

Lemma wf_demo_db : wf_db demo_db.
Proof. split; apply (bool_decide_unpack _); vm_compute; exact I. Qed.

Lemma demo_expiries_in_range : expiries_in_range demo_db.
Proof. repeat constructor; simpl; lia. Qed.

Lemma demo_iso_range_4000000 : iso_range 4000000.
Proof. unfold iso_range. lia. Qed.

Lemma cleanupExpiredSessions_spec_witness :
  exists db',
    cleanupExpiredSessions 4000000 demo_db = (Ok 1, db') /\
    sessions db' = [] /\ clients db' = clients demo_db.
Proof.
  destruct (cleanupExpiredSessions_spec 4000000 demo_db
              demo_iso_range_4000000 demo_expiries_in_range)
    as (n & db' & Heq & Hs & Hn & _ & _ & _ & Hc & _).
  exists db'. split; [by rewrite Heq, Hn|]. split; [by rewrite Hs|exact Hc].
Defined.

Lemma demo_jwt_sound : jwt_sound demo_sign demo_verify.
Proof.
  intros p secret expiresIn t t' _. unfold demo_sign, demo_verify.
  assert (H : String.prefix secret (secret ++ jti p) = true).
  { induction secret as [|a secret IH]; simpl; [by destruct (jti p)|].
    destruct (Ascii.ascii_dec a a); [exact IH|done]. }
  by rewrite H.
Qed.

Example demo_refresh :
  refreshAccessToken "k." demo_sign "r1" 1000 demo_draw demo_db
  = (Ok (Some {| access_token := "k.a2"; refresh_token := "r2";
                 token_type := "Bearer"; expires_in := 3600 |}),
     {| clients := [demo_client; demo_inactive_client];
        sessions :=
          [Sql.set_revoked demo_session;
           {| s_id := 2; s_client_id := 1; s_access_token := "k.a2";
              s_refresh_token := "r2"; s_token_type := "Bearer";
              s_expires_at := 3605000; s_refresh_expires_at := 86405000;
              s_is_revoked := 0 |}];
        db_seq := 2 |}).
Proof. vm_compute. reflexivity. Qed.

Lemma refresh_token_single_use_witness :
  refreshAccessToken "k." demo_sign "r1" 2000 demo_draw
    (snd (refreshAccessToken "k." demo_sign "r1" 1000 demo_draw demo_db))
  = (Ok None, snd (refreshAccessToken "k." demo_sign "r1" 1000 demo_draw demo_db)).
Proof.
  pose proof (refresh_token_single_use "k." demo_sign demo_verifySecret
                "r1" 1000 demo_draw demo_db _ _ wf_demo_db eq_refl) as [_ H].
  exact (proj1 (H [] (Forall_nil_2 _) 2000 demo_draw)).
Defined.

(** C2, as stated, fails at the instant of expiry: the stored expiry is not
    in the future, and the session is returned. *)
Lemma validateAccessToken_at_expiry_instant :
  validateAccessToken "k." demo_verify "k.a1" 3600000 3600000 demo_db = Some demo_session
  /\ ~ (3600000 < s_expires_at demo_session).
Proof. split; [vm_compute; reflexivity | simpl; lia]. Qed.

Lemma validateAccessToken_spec_witness :
  validateAccessToken "k." demo_verify "k.a1" 0 0 demo_db = Some demo_session /\
  validateAccessToken "k." demo_verify "k.a1" 0 0
    (snd (revokeSession (s_id demo_session) demo_db)) = None.
Proof.
  pose proof (validateAccessToken_spec "k." demo_sign demo_verify demo_verifySecret
                demo_db wf_demo_db) as (Hiff & _ & Hrev).
  assert (H : validateAccessToken "k." demo_verify "k.a1" 0 0 demo_db = Some demo_session).
  { apply Hiff. repeat split; [done | apply list_elem_of_here | simpl; lia]. }
  split; [exact H | exact (Hrev _ _ _ _ H 0 0)].
Defined.

Lemma failure_indistinguishable_witness :
  authenticateClient demo_verifySecret "nobody" "s3cr3t" demo_db = (Ok None, demo_db) /\
  authenticateClient demo_verifySecret "old" "pw" demo_db = (Ok None, demo_db) /\
  authenticateClient demo_verifySecret "acme" "guess" demo_db = (Ok None, demo_db).
Proof.
  split; [|split].
  - apply (failure_indistinguishable "k." demo_sign demo_verify demo_verifySecret
             demo_db "nobody" "s3cr3t" wf_demo_db).
    apply unknown_client. intros c Hc.
    apply elem_of_cons in Hc as [->|Hc]; [done|].
    apply list_elem_of_singleton in Hc as ->. done.
  - apply (failure_indistinguishable "k." demo_sign demo_verify demo_verifySecret
             demo_db "old" "pw" wf_demo_db).
    apply (inactive_client _ _ _ _ demo_inactive_client);
      [apply list_elem_of_further, list_elem_of_here | done | done].
  - apply (failure_indistinguishable "k." demo_sign demo_verify demo_verifySecret
             demo_db "acme" "guess" wf_demo_db).
    apply (wrong_secret _ _ _ _ demo_client);
      [apply list_elem_of_here | done | done | done].
Defined.

(** ** Bytes and digests *)

Lemma bytes_of_string_inj s s' :
  Encoding.bytes_of_string s = Encoding.bytes_of_string s' -> s = s'.
Proof.
  unfold Encoding.bytes_of_string. intros H.
  rewrite <- (String.string_of_list_ascii_of_string s),
          <- (String.string_of_list_ascii_of_string s').
  f_equal. revert H.
  generalize (String.list_ascii_of_string s) (String.list_ascii_of_string s').
  induction l as [|a l IH]; intros [|b l'] H; simpl in H; try discriminate; [done|].
  injection H as Hab Hl. f_equal; [|by apply IH].
  apply N2Z.inj in Hab.
  rewrite <- (Ascii.ascii_N_embedding a), <- (Ascii.ascii_N_embedding b). by f_equal.
Qed.

Lemma bytes_of_string_length s :
  length (Encoding.bytes_of_string s) = String.length s.
Proof.
  unfold Encoding.bytes_of_string. rewrite List.length_map.
  induction s as [|a s IH]; simpl; [done|]. by rewrite IH.
Qed.

Lemma string_app_length (s t : string) :
  String.length (s ++ t) = (String.length s + String.length t)%nat.
Proof. induction s as [|a s IH]; simpl; [done|]. by rewrite IH. Qed.

Lemma string_app_inv_head (pre s t : string) :
  (pre ++ s)%string = (pre ++ t)%string -> s = t.
Proof. induction pre as [|a pre IH]; simpl; [done|]. intros H. injection H. auto. Qed.

Lemma single_byte_mutation_neq s s' : single_byte_mutation s s' -> s <> s'.
Proof.
  intros (pre & c & c' & post & Hc & -> & ->) H.
  apply string_app_inv_head in H. congruence.
Qed.

Lemma single_byte_mutation_length s s' :
  single_byte_mutation s s' -> String.length s' = String.length s.
Proof.
  intros (pre & c & c' & post & Hc & -> & ->). by rewrite !string_app_length.
Qed.

Lemma timingSafeEqual_refl a : timingSafeEqual a a = Ok true.
Proof.
  unfold timingSafeEqual.
  by rewrite !bool_decide_eq_true_2.
Qed.

Lemma timingSafeEqual_strings s s' :
  String.length s' = String.length s -> s' <> s ->
  timingSafeEqual (Encoding.bytes_of_string s') (Encoding.bytes_of_string s) = Ok false.
Proof.
  intros Hlen Hne. unfold timingSafeEqual.
  rewrite !bytes_of_string_length, Hlen, bool_decide_eq_true_2 by done. simpl.
  rewrite bool_decide_eq_false_2; [done|]. intros H. by apply bytes_of_string_inj in H.
Qed.

Lemma timingSafeEqual_neq s s' :
  s' <> s ->
  timingSafeEqual (Encoding.bytes_of_string s') (Encoding.bytes_of_string s) <> Ok true.
Proof.
  intros Hne. unfold timingSafeEqual.
  destruct (bool_decide _); simpl; [|done].
  rewrite bool_decide_eq_false_2; [done|]. intros H. by apply bytes_of_string_inj in H.
Qed.

Lemma round_length st kw : length st = 8%nat -> length (Hmac.round st kw) = 8%nat.
Proof.
  intros H. do 9 (destruct st as [|? st]; try discriminate). reflexivity.
Qed.

Lemma fold_round_length kws st :
  length st = 8%nat -> length (List.fold_left Hmac.round kws st) = 8%nat.
Proof.
  revert st. induction kws as [|kw kws IH]; intros st H; simpl; [done|].
  apply IH. by apply round_length.
Qed.

Lemma compress_length h block :
  length h = 8%nat -> length (Hmac.compress h block) = 8%nat.
Proof.
  intros H. unfold Hmac.compress.
  rewrite List.length_map, List.length_combine, fold_round_length, H by done. done.
Qed.

Lemma blocks_length fuel h l :
  length h = 8%nat -> length (Hmac.blocks fuel h l) = 8%nat.
Proof.
  revert h l. induction fuel as [|fuel IH]; intros h l H; simpl; [done|].
  destruct l; [done|]. apply IH. by apply compress_length.
Qed.

Lemma sha256_length msg : length (Hmac.sha256 msg) = 32%nat.
Proof.
  unfold Hmac.sha256.
  assert (Hinit : length Hmac.H0 = 8%nat) by (vm_compute; reflexivity).
  pose proof (blocks_length (length (Hmac.pad msg)) Hmac.H0 (Hmac.pad msg) Hinit) as H.
  destruct (Hmac.blocks _ _ _) as [|? st]; [discriminate|].
  do 8 (destruct st as [|? st]; try discriminate). reflexivity.
Qed.

Lemma hex_of_bytes_length l :
  String.length (Encoding.hex_of_bytes l) = (2 * length l)%nat.
Proof.
  unfold Encoding.hex_of_bytes.
  induction l as [|a l IH]; simpl; [done|]. rewrite IH. lia.
Qed.

(** The hex digest has 64 characters. *)
Lemma hmac_sha256_hex_length k payload :
  String.length (Hmac.hmac_sha256_hex k payload) = 64%nat.
Proof.
  unfold Hmac.hmac_sha256_hex, Hmac.hmac_sha256.
  by rewrite hex_of_bytes_length, sha256_length.
Qed.

(** ** The integration catalogue *)

(** The signature check on signatures: with a webhook secret configured,
    the hex HMAC-SHA256 of the payload under that secret is accepted and the
    signature with one byte changed is answered by false; with no secret
    configured the check returns false without throwing.  What the check
    answers on another payload under the same signature is the equality of
    two digests, which no lemma here decides. *)
Lemma signature_check_on_signatures integrations nm cfg w k payload :
  integrations !! nm = Some cfg -> webhooks cfg = Some w ->
  secret w = Some k -> k <> EmptyString ->
  let good := Hmac.hmac_sha256_hex k payload in
  IntegrationManager.validateWebhookSignature integrations nm payload good = Ok true /\
  WebhookController.validateSignature (Some payload) good k = true /\
  (forall signature, single_byte_mutation good signature ->
     IntegrationManager.validateWebhookSignature integrations nm payload signature = Ok false /\
     WebhookController.validateSignature (Some payload) signature k = false) /\
  (forall nm' payload' signature, no_secret integrations nm' ->
     IntegrationManager.validateWebhookSignature integrations nm' payload' signature
     = Ok false).
Proof.
  intros Hcfg Hw Hk Hne good.
  assert (Hm : forall p s,
            IntegrationManager.validateWebhookSignature integrations nm p s
            = timingSafeEqual (Encoding.bytes_of_string s)
                (Encoding.bytes_of_string (Hmac.hmac_sha256_hex k p))).
  { intros p s. unfold IntegrationManager.validateWebhookSignature,
      IntegrationManager.getIntegration.
    rewrite Hcfg, Hw, Hk. simpl. by rewrite (bool_decide_eq_false_2 _ Hne). }
  unfold WebhookController.validateSignature.
  split; [|split; [|split]].
  - rewrite Hm. apply timingSafeEqual_refl.
  - by rewrite timingSafeEqual_refl.
  - intros signature Hmut.
    pose proof (single_byte_mutation_neq _ _ Hmut) as Hneq.
    pose proof (single_byte_mutation_length _ _ Hmut) as Hlen.
    rewrite Hm, timingSafeEqual_strings; [done|done|].
    intros E. by apply Hneq.
  - intros nm' payload' signature Hno.
    unfold IntegrationManager.validateWebhookSignature, IntegrationManager.getIntegration.
    destruct Hno as [->|(cfg' & -> & [->|(w' & -> & Hs)])]; [done|done|].
    destruct (secret w') as [k'|]; [|done]. by rewrite Hs.
Qed.

Example demo_payload_text :
  demo_payload = ("{" ++ dq ++ "event" ++ dq ++ ":" ++ dq ++ "reservation.created" ++ dq
                  ++ "," ++ dq ++ "id" ++ dq ++ ":42}")%string.
Proof. vm_compute. reflexivity. Qed.

Example demo_digest :
  Hmac.hmac_sha256_hex "my_super_secret_key" demo_payload
  = "d7d5d8d859a85ea622bff07a1d812b171e93ddda20430ccb037306c6b4d66bcf".
Proof. vm_compute. reflexivity. Qed.

Lemma demo_payload_mutation : single_byte_mutation demo_payload demo_payload_mutated.
Proof.
  exists (String.substring 0 37 demo_payload), "2"%char, "3"%char, "}"%string.
  split; [done|]. split; vm_compute; reflexivity.
Qed.

(** On the default catalogue: the digest of the example body is accepted,
    and an integration without a secret answers false. *)
Example signature_check_demo :
  let good := Hmac.hmac_sha256_hex "my_super_secret_key" demo_payload in
  IntegrationManager.validateWebhookSignature (defaultIntegrations secret_env)
    "booking_engine" demo_payload good = Ok true /\
  IntegrationManager.validateWebhookSignature (defaultIntegrations secret_env)
    "pms_system" demo_payload good = Ok false.
Proof.
  intros good.
  destruct (signature_check_on_signatures (defaultIntegrations secret_env)
              "booking_engine" _ _ "my_super_secret_key" demo_payload
              eq_refl eq_refl eq_refl ltac:(done))
    as (Hgood & _ & _ & Hnone).
  split; [exact Hgood|].
  apply Hnone. right. eexists. split; [reflexivity|].
  right. eexists. split; [reflexivity|]. reflexivity.
Qed.

(** *** Authentication headers *)

(** C6, as stated, fails for a bearer integration: the synthesized
    Authorization header replaces the static one. *)
Lemma getAuthHeaders_replaces_static_authorization :
  (exists cfg h, bearer_with_static_header !! "svc" = Some cfg /\
                 headers (auth cfg) = Some h /\
                 h !! "Authorization" = Some "Static abc") /\
  IntegrationManager.getAuthHeaders bearer_with_static_header "svc" !! "Authorization"
  = Some "Bearer T0KEN".
Proof.
  split; [|vm_compute; reflexivity].
  eexists _, _. split; [reflexivity|]. split; [reflexivity|]. vm_compute. reflexivity.
Qed.

(** C6 (amended). [getAuthHeaders] starts from the static headers and keeps
    every one of them except possibly Authorization and X-API-Key; for none
    and oauth2 the result is the static headers; for api_key a non-empty
    static X-API-Key is never overridden, and without one a non-empty api key
    is added under X-API-Key; for bearer with a non-empty token and for basic
    with non-empty username and password the synthesized Authorization header
    is set whether or not a static Authorization header is present. *)
Theorem getAuthHeaders_spec integrations nm cfg :
  integrations !! nm = Some cfg ->
  let static : gmap string string := default ∅ (headers (auth cfg)) in
  let result := IntegrationManager.getAuthHeaders integrations nm in
  (forall h, h <> "Authorization" -> h <> "X-API-Key" -> result !! h = static !! h) /\
  (auth_type (auth cfg) = auth_none \/ auth_type (auth cfg) = auth_oauth2 ->
   result = static) /\
  (auth_type (auth cfg) = auth_api_key ->
   result !! "Authorization" = static !! "Authorization" /\
   (str_truthy (static !! "X-API-Key") = true -> result = static) /\
   (forall c k, str_truthy (static !! "X-API-Key") = false ->
      credentials (auth cfg) = Some c -> apiKey c = Some k -> k <> EmptyString ->
      result = <["X-API-Key" := k]> static)) /\
  (auth_type (auth cfg) = auth_bearer ->
   forall c t, credentials (auth cfg) = Some c -> cred_token c = Some t ->
     t <> EmptyString ->
     result = <["Authorization" := ("Bearer " ++ t)%string]> static) /\
  (auth_type (auth cfg) = auth_basic ->
   forall c u pw, credentials (auth cfg) = Some c ->
     username c = Some u -> password c = Some pw ->
     u <> EmptyString -> pw <> EmptyString ->
     result = <["Authorization" :=
                 ("Basic " ++ Encoding.base64 (u ++ ":" ++ pw))%string]> static).
Proof.
  intros Hcfg static result.
  assert (Hstatic : static = match headers (auth cfg) with Some h => h | None => ∅ end).
  { unfold static. by destruct (headers (auth cfg)). }
  unfold result, IntegrationManager.getAuthHeaders, IntegrationManager.getIntegration.
  rewrite Hcfg, <- Hstatic. clear Hstatic.
  split; [|split; [|split; [|split]]].
  - intros h Ha Hk.
    destruct (auth_type (auth cfg)); try done;
      destruct (credentials (auth cfg)) as [c|]; try done.
    + destruct (username c), (password c); try done.
      destruct (_ && _); [|done]. by rewrite lookup_insert_ne.
    + destruct (cred_token c); [|done].
      destruct (str_truthy _); [|done]. by rewrite lookup_insert_ne.
    + destruct (apiKey c); [|done].
      destruct (_ && _); [|done]. by rewrite lookup_insert_ne.
  - by intros [->| ->].
  - intros ->. split; [|split].
    + destruct (credentials (auth cfg)) as [c|]; [|done].
      destruct (apiKey c); [|done].
      destruct (_ && _); [|done]. by rewrite lookup_insert_ne.
    + intros Hs. destruct (credentials (auth cfg)) as [c|]; [|done].
      destruct (apiKey c); [|done]. rewrite Hs.
      by rewrite andb_false_r.
    + intros c k Hs -> -> Hk. rewrite Hs. simpl.
      by rewrite (bool_decide_eq_false_2 _ Hk).
  - intros -> c t -> -> Ht. simpl. by rewrite (bool_decide_eq_false_2 _ Ht).
  - intros -> c u pw -> -> -> Hu Hpw. simpl.
    by rewrite (bool_decide_eq_false_2 _ Hu), (bool_decide_eq_false_2 _ Hpw).
Qed.

Lemma getAuthHeaders_spec_witness :
  IntegrationManager.getAuthHeaders bearer_with_static_header "svc" !! "X-Tenant"
  = Some "t1".
Proof.
  destruct (getAuthHeaders_spec bearer_with_static_header "svc" _ eq_refl) as [H _].
  rewrite H; [vm_compute; reflexivity|done|done].
Defined.

(** ** Webhooks *)

(** C4. On the generic route, for an enabled integration whose webhooks
    are enabled and have a secret, a request without the signature header is
    accepted with the 200 envelope, and no signature is checked. *)
Theorem receive_unsigned_accepted integrations req clock cfg w k ev :
  integrations !! WebhookController.param_integration req = Some cfg ->
  enabled cfg = true ->
  webhooks cfg = Some w -> wh_enabled w = true ->
  secret w = Some k -> k <> EmptyString ->
  WebhookController.x_webhook_signature req = None ->
  Js.get_prop (WebhookController.req_body req) "event" = Ok ev ->
  let integration := WebhookController.param_integration req in
  let event := Js.or_else ev (Js.Str "unknown") in
  WebhookController.receive integrations req clock
  = Ok ({| WebhookController.status := 200;
           WebhookController.body :=
             WebhookController.Received "Webhook received and processed"
               (WebhookController.processWebhook integration event clock) |},
        [WebhookController.LoggedReceived integration event;
         WebhookController.ProcessedWebhook integration event]).
Proof.
  intros Hcfg Hen Hw Hwen Hk Hne Hsig Hev integration event.
  unfold WebhookController.receive, IntegrationManager.isEnabled,
    IntegrationManager.getIntegration.
  rewrite Hev, Hcfg, Hen. simpl.
  destruct cfg as [? ? ? ? ? ? ? wh]. simpl in Hw. subst wh.
  rewrite Hwen, Hk, Hsig. reflexivity.
Qed.

Lemma receive_unsigned_accepted_witness :
  exists data,
    WebhookController.receive (defaultIntegrations secret_env)
      {| WebhookController.param_integration := "booking_engine";
         WebhookController.param_event := EmptyString;
         WebhookController.x_webhook_signature := None;
         WebhookController.req_body := Js.Obj [("event", Js.Str "reservation.created")] |}
      1000
    = Ok ({| WebhookController.status := 200;
             WebhookController.body :=
               WebhookController.Received "Webhook received and processed" data |},
          [WebhookController.LoggedReceived "booking_engine" (Js.Str "reservation.created");
           WebhookController.ProcessedWebhook "booking_engine"
             (Js.Str "reservation.created")]).
Proof.
  eexists.
  apply (receive_unsigned_accepted (defaultIntegrations secret_env)
           {| WebhookController.param_integration := "booking_engine";
              WebhookController.param_event := EmptyString;
              WebhookController.x_webhook_signature := None;
              WebhookController.req_body :=
                Js.Obj [("event", Js.Str "reservation.created")] |}
           1000 _ _ "my_super_secret_key" (Js.Str "reservation.created")
           eq_refl eq_refl eq_refl eq_refl eq_refl ltac:(done) eq_refl eq_refl).
Defined.

(** The generic route refuses an enabled integration whose webhooks are
    absent or disabled, before any signature check or processing. *)
Lemma receive_webhooks_disabled integrations req clock cfg ev :
  integrations !! WebhookController.param_integration req = Some cfg ->
  enabled cfg = true ->
  (webhooks cfg = None \/ exists w, webhooks cfg = Some w /\ wh_enabled w = false) ->
  Js.get_prop (WebhookController.req_body req) "event" = Ok ev ->
  WebhookController.receive integrations req clock
  = Ok ({| WebhookController.status := 400;
           WebhookController.body :=
             WebhookController.Error "webhooks_disabled"
               ("Webhooks not enabled for integration " ++ dq
                ++ WebhookController.param_integration req ++ dq) |}, []).
Proof.
  intros Hcfg Hen Hw Hev.
  unfold WebhookController.receive, IntegrationManager.isEnabled,
    IntegrationManager.getIntegration.
  rewrite Hev, Hcfg, Hen. simpl.
  destruct cfg as [? ? ? ? ? ? ? wh]. simpl in Hw.
  destruct Hw as [->|(w & -> & Hw)]; [done|]. by rewrite Hw.
Qed.

(** C5 fails on the event route: for the default catalogue, whose
    pms_system has webhooks disabled, POST /webhooks/pms_system/room.updated
    is logged, processed and answered with 200. *)
Theorem receiveEvent_ignores_webhooks_disabled :
  (exists cfg w, defaultIntegrations no_env !! "pms_system" = Some cfg /\
                 enabled cfg = true /\ webhooks cfg = Some w /\ wh_enabled w = false) /\
  WebhookController.receiveEvent (defaultIntegrations no_env)
    {| WebhookController.param_integration := "pms_system";
       WebhookController.param_event := "room.updated";
       WebhookController.x_webhook_signature := None;
       WebhookController.req_body := Js.Obj [("room", Js.Num 12)] |}
    1000
  = ({| WebhookController.status := 200;
        WebhookController.body :=
          WebhookController.ReceivedEvent "room.updated"
            {| WebhookController.processed := true;
               WebhookController.timestamp := 1000;
               WebhookController.pr_event := Js.Str "room.updated";
               WebhookController.pr_integration := "pms_system" |} |},
     [WebhookController.LoggedReceived "pms_system" (Js.Str "room.updated");
      WebhookController.ProcessedWebhook "pms_system" (Js.Str "room.updated")]).
Proof.
  split; [|vm_compute; reflexivity].
  eexists _, _. repeat split; reflexivity.
Qed.

(** ** Forwarding *)

Lemma stringify_truthy v : Js.truthy v = true -> is_Some (Js.stringify v).
Proof. destruct v as [| |[|]| | | |]; simpl; intros H; by eauto. Qed.

(** On a truthy input, [execute] rethrows what validation or the
    transformation threw. *)
Lemma execute_truthy t input :
  Js.truthy input = true ->
  BaseTransformer.execute t input =
  match tr_validate t input with
  | Throw e => Throw e
  | Ok false => Throw "Input validation failed"
  | Ok true => tr_transform t input
  end.
Proof.
  intros H. unfold BaseTransformer.execute.
  destruct (stringify_truthy _ H) as [txt ->].
  destruct (tr_validate t input) as [[|]|e]; try done.
  by destruct (tr_transform t input).
Qed.

Lemma prefix_app (a b : string) : String.prefix a (a ++ b) = true.
Proof.
  induction a as [|c a IH]; simpl; [by destruct b|].
  by destruct (Ascii.ascii_dec c c).
Qed.

Lemma substring_app_drop (a b : string) m :
  String.substring (String.length a) m (a ++ b) = String.substring 0 m b.
Proof. induction a as [|c a IH]; simpl; [done|]. exact IH. Qed.

Lemma substring_all (b : string) : String.substring 0 (String.length b) b = b.
Proof. induction b as [|c b IH]; simpl; [done|]. by rewrite IH. Qed.

(** Taking the base URL off a URL that starts with it gives the rest. *)
Lemma replace_first_prefix (a b : string) :
  Encoding.replace_first a EmptyString (a ++ b) = b.
Proof.
  unfold Encoding.replace_first.
  assert (Hidx : forall s, String.prefix a s = true -> String.index 0 a s = Some 0%nat).
  { intros [|c s] Hp; [by destruct a|]. cbn [String.index]. by rewrite Hp. }
  rewrite (Hidx _ (prefix_app a b)). rewrite string_app_length. simpl.
  replace (String.length a + String.length b - String.length a)%nat
    with (String.length b) by lia.
  rewrite substring_app_drop, substring_all.
  by destruct (a ++ b)%string.
Qed.

Section ProxyProperties.

Variable integrations : gmap string IntegrationConfig.
Variable transformers : gmap string Transformer.
Variable upstream : HttpCall -> Settled.

(** [buildUrl] for a declared endpoint: the base URL followed by the path
    of the endpoint with the parameters substituted. *)
Lemma buildUrl_Some nm i endpointName e params :
  integrations !! nm = Some i -> endpoints i !! endpointName = Some e ->
  IntegrationManager.buildUrl integrations nm endpointName (Some params)
  = Some (baseUrl i ++
          List.fold_left
            (fun acc kv =>
               Encoding.replace_first ("{" ++ fst kv ++ "}")
                 (Encoding.encodeURIComponent (snd kv)) acc)
            params (path e))%string.
Proof.
  clear transformers upstream. intros Hi He.
  unfold IntegrationManager.buildUrl, IntegrationManager.getEndpoint,
    IntegrationManager.getIntegration.
  by rewrite Hi, He.
Qed.

(** [forward], once the integration is enabled and the endpoint found. *)
Lemma forward_resolved req endpointConfig :
  IntegrationManager.isEnabled integrations (ProxyController.param_integration req) = true ->
  IntegrationManager.getEndpoint integrations (ProxyController.param_integration req)
    (ProxyController.param_endpoint req) = Some endpointConfig ->
  ProxyController.forward integrations transformers upstream req =
  match
    (if str_truthy (transformer endpointConfig) && Js.truthy (ProxyController.req_body req)
     then TransformerRegistry.transform transformers
            (default EmptyString (transformer endpointConfig)) (ProxyController.req_body req)
     else Ok (ProxyController.req_body req))
  with
  | Throw msg => (ProxyController.transformation_error msg, [])
  | Ok data =>
      match HttpClient.createHttpClient integrations (ProxyController.param_integration req) with
      | Throw msg => (ProxyController.proxy_error msg None, [])
      | Ok client =>
          ProxyController.respond client
            (HttpClient.callEndpoint integrations upstream client
               (ProxyController.param_endpoint req) data (ProxyController.req_query req))
      end
  end.
Proof.
  intros Hen Hep. unfold ProxyController.forward. by rewrite Hen, Hep.
Qed.

(** C8 (amended). When the resolved endpoint declares a transformer and
    the request body is truthy, an unregistered transformer, a validator
    that returns false or throws, and a transformation that throws all make
    [forward] answer 400 transformation_error with the underlying message,
    without creating a client or sending a request. *)
Theorem forward_transformation_error req endpointConfig tname :
  IntegrationManager.isEnabled integrations (ProxyController.param_integration req) = true ->
  IntegrationManager.getEndpoint integrations (ProxyController.param_integration req)
    (ProxyController.param_endpoint req) = Some endpointConfig ->
  transformer endpointConfig = Some tname -> tname <> EmptyString ->
  Js.truthy (ProxyController.req_body req) = true ->
  let body := ProxyController.req_body req in
  let answer := ProxyController.forward integrations transformers upstream req in
  (transformers !! tname = None ->
   answer = (ProxyController.transformation_error
               ("Transformer " ++ dq ++ tname ++ dq ++ " not found"), [])) /\
  (forall t, transformers !! tname = Some t ->
     (tr_validate t body = Ok false ->
      answer = (ProxyController.transformation_error "Input validation failed", [])) /\
     (forall msg, tr_validate t body = Throw msg ->
      answer = (ProxyController.transformation_error msg, [])) /\
     (forall msg, tr_validate t body = Ok true -> tr_transform t body = Throw msg ->
      answer = (ProxyController.transformation_error msg, []))).
Proof.
  intros Hen Hep Ht Hne Hbody body answer.
  unfold answer. rewrite (forward_resolved _ _ Hen Hep), Ht, Hbody. simpl.
  rewrite (bool_decide_eq_false_2 _ Hne). simpl.
  unfold TransformerRegistry.transform, TransformerRegistry.get.
  split.
  - by intros ->.
  - intros t ->. rewrite (execute_truthy _ _ Hbody). fold body.
    split; [|split].
    + by intros ->.
    + by intros msg ->.
    + by intros msg -> ->.
Qed.

(** C10. When the resolved endpoint declares a transformer but the request
    body is falsy, [forward] consults neither the registry nor a validator:
    whatever the registry holds, it creates the client and, the URL that
    [buildUrl] makes of the base URL and the endpoint's path being
    non-empty, sends exactly one request upstream, with the endpoint's
    method (GET when it declares none) and path, carrying the body as it
    came when the method has one, and relays what the upstream said; were
    that URL empty, no request would be sent. *)
Theorem forward_falsy_body_skips_transformer req i e tname :
  integrations !! ProxyController.param_integration req = Some i ->
  enabled i = true ->
  endpoints i !! ProxyController.param_endpoint req = Some e ->
  transformer e = Some tname ->
  Js.truthy (ProxyController.req_body req) = false ->
  let p := List.fold_left
             (fun acc kv =>
                Encoding.replace_first ("{" ++ fst kv ++ "}")
                  (Encoding.encodeURIComponent (snd kv)) acc)
             (ProxyController.req_query req) (path e) in
  exists client,
    HttpClient.createHttpClient integrations (ProxyController.param_integration req)
      = Ok client /\
    ProxyController.forward integrations transformers upstream req
    = ProxyController.respond client
        (HttpClient.callEndpoint integrations upstream client
           (ProxyController.param_endpoint req) (ProxyController.req_body req)
           (ProxyController.req_query req)) /\
    (forall registry,
       ProxyController.forward integrations registry upstream req
       = ProxyController.forward integrations transformers upstream req) /\
    ((baseUrl i ++ p)%string <> EmptyString ->
     exists call,
       ProxyController.forward integrations transformers upstream req
       = (match upstream call with
          | Resolved st d =>
              {| ProxyController.status := st;
                 ProxyController.body := ProxyController.Relay d |}
          | Rejected msg resp => ProxyController.proxy_error msg resp
          end, [Created client; Sent call]) /\
       call_client call = client /\
       call_url call = p /\
       call_method call = default GET (method e) /\
       call_data call =
         match default GET (method e) with
         | POST | PUT | PATCH => Some (ProxyController.req_body req)
         | GET | DELETE => None
         end) /\
    ((baseUrl i ++ p)%string = EmptyString ->
     snd (ProxyController.forward integrations transformers upstream req)
     = [Created client]).
Proof.
  intros Hi Hen He Ht Hbody p.
  assert (Hen' : IntegrationManager.isEnabled integrations
                   (ProxyController.param_integration req) = true).
  { unfold IntegrationManager.isEnabled, IntegrationManager.getIntegration.
    by rewrite Hi. }
  assert (Hep : IntegrationManager.getEndpoint integrations
                  (ProxyController.param_integration req)
                  (ProxyController.param_endpoint req) = Some e).
  { unfold IntegrationManager.getEndpoint, IntegrationManager.getIntegration.
    by rewrite Hi. }
  assert (Hfw : forall registry,
            ProxyController.forward integrations registry upstream req
            = match HttpClient.createHttpClient integrations
                      (ProxyController.param_integration req) with
              | Throw msg => (ProxyController.proxy_error msg None, [])
              | Ok client =>
                  ProxyController.respond client
                    (HttpClient.callEndpoint integrations upstream client
                       (ProxyController.param_endpoint req) (ProxyController.req_body req)
                       (ProxyController.req_query req))
              end).
  { intros registry. unfold ProxyController.forward.
    rewrite Hen', Hep, Hbody, andb_false_r. reflexivity. }
  unfold HttpClient.createHttpClient, IntegrationManager.getIntegration in *.
  rewrite Hi in Hfw. rewrite Hi.
  eexists. split; [reflexivity|]. split; [apply Hfw|]. split; [|split].
  - intros registry. by rewrite !Hfw.
  - intros Hne. rewrite Hfw.
    unfold ProxyController.respond, HttpClient.callEndpoint.
    cbn [integrationName integration].
    rewrite Hep, (buildUrl_Some _ i _ e _ Hi He). fold p. unfold str_truthy.
    rewrite (bool_decide_eq_false_2 _ Hne). cbn [negb].
    match goal with |- context [upstream ?c] => exists c end.
    split; [by destruct (upstream _)|]. simpl.
    split; [done|]. split; [apply replace_first_prefix|].
    split; [by destruct (method e)|].
    by destruct (method e) as [[]|].
  - intros Hempty. rewrite Hfw.
    unfold ProxyController.respond, HttpClient.callEndpoint.
    cbn [integrationName integration].
    rewrite Hep, (buildUrl_Some _ i _ e _ Hi He). fold p. unfold str_truthy.
    by rewrite (bool_decide_eq_true_2 _ Hempty).
Qed.

End ProxyProperties.

(** *** Worked examples on the default catalogue *)

(** C8, as stated, fails on a falsy body: syncGuest declares the
    transformer PMSGuestTransformer, which is not registered, and a request
    whose body is [undefined] is sent upstream all the same. *)
Lemma forward_unregistered_transformer_absent_body :
  let registry := BookingReservationTransformer.initializeTransformers
                    demo_Date_of demo_toISOString in
  (exists ep, IntegrationManager.getEndpoint (defaultIntegrations no_env)
                "pms_system" "syncGuest" = Some ep /\
              transformer ep = Some "PMSGuestTransformer") /\
  registry !! "PMSGuestTransformer" = None /\
  exists client call,
    ProxyController.forward (defaultIntegrations no_env) registry upstream_ok
      {| ProxyController.param_integration := "pms_system";
         ProxyController.param_endpoint := "syncGuest";
         ProxyController.req_body := Js.Undefined;
         ProxyController.req_query := [] |}
    = ({| ProxyController.status := 200;
          ProxyController.body := ProxyController.Relay (Js.Obj []) |},
       [Created client; Sent call]) /\
    call_method call = POST /\ call_url call = "/api/guests" /\
    call_data call = Some Js.Undefined.
Proof.
  intros registry. split; [|split].
  - eexists. split; vm_compute; reflexivity.
  - vm_compute. reflexivity.
  - eexists _, _. split; [vm_compute; reflexivity|]. repeat split.
Qed.

Lemma forward_transformation_error_witness :
  let registry := BookingReservationTransformer.initializeTransformers
                    demo_Date_of demo_toISOString in
  ProxyController.forward (defaultIntegrations no_env) registry upstream_ok
    {| ProxyController.param_integration := "booking_engine";
       ProxyController.param_endpoint := "createReservation";
       ProxyController.req_body := demo_reservation;
       ProxyController.req_query := [] |}
  = (ProxyController.transformation_error "Check-out date must be after check-in date",
     []) /\
  ProxyController.forward (defaultIntegrations no_env) registry upstream_ok
    {| ProxyController.param_integration := "pms_system";
       ProxyController.param_endpoint := "syncGuest";
       ProxyController.req_body := Js.Obj [];
       ProxyController.req_query := [] |}
  = (ProxyController.transformation_error
       ("Transformer " ++ dq ++ "PMSGuestTransformer" ++ dq ++ " not found"), []).
Proof.
  intros registry. split.
  - destruct (forward_transformation_error (defaultIntegrations no_env) registry upstream_ok
                {| ProxyController.param_integration := "booking_engine";
                   ProxyController.param_endpoint := "createReservation";
                   ProxyController.req_body := demo_reservation;
                   ProxyController.req_query := [] |}
                _ "BookingReservationTransformer" eq_refl eq_refl eq_refl ltac:(done) eq_refl)
      as [_ H].
    destruct (H (BookingReservationTransformer.instance demo_Date_of demo_toISOString)
                eq_refl) as (_ & Hthrow & _).
    apply Hthrow. vm_compute. reflexivity.
  - destruct (forward_transformation_error (defaultIntegrations no_env) registry upstream_ok
                {| ProxyController.param_integration := "pms_system";
                   ProxyController.param_endpoint := "syncGuest";
                   ProxyController.req_body := Js.Obj [];
                   ProxyController.req_query := [] |}
                _ "PMSGuestTransformer" eq_refl eq_refl eq_refl ltac:(done) eq_refl)
      as [H _].
    apply H. vm_compute. reflexivity.
Defined.

Lemma forward_falsy_body_skips_transformer_witness :
  exists client call,
    ProxyController.forward (defaultIntegrations no_env)
      (BookingReservationTransformer.initializeTransformers demo_Date_of demo_toISOString)
      upstream_ok
      {| ProxyController.param_integration := "booking_engine";
         ProxyController.param_endpoint := "createReservation";
         ProxyController.req_body := Js.Str EmptyString;
         ProxyController.req_query := [] |}
    = ({| ProxyController.status := 200;
          ProxyController.body := ProxyController.Relay (Js.Obj []) |},
       [Created client; Sent call]) /\
    call_method call = POST /\
    call_url call = "/v1/reservations" /\
    call_data call = Some (Js.Str EmptyString).
Proof.
  destruct (forward_falsy_body_skips_transformer (defaultIntegrations no_env)
              (BookingReservationTransformer.initializeTransformers
                 demo_Date_of demo_toISOString)
              upstream_ok
              {| ProxyController.param_integration := "booking_engine";
                 ProxyController.param_endpoint := "createReservation";
                 ProxyController.req_body := Js.Str EmptyString;
                 ProxyController.req_query := [] |}
              _ _ "BookingReservationTransformer" eq_refl eq_refl eq_refl eq_refl eq_refl)
    as (client & _ & _ & _ & H & _).
  destruct H as (call & Hfw & _ & Hurl & Hm & Hd); [by vm_compute|].
  exists client, call. split; [exact Hfw|]. split; [exact Hm|].
  split; [exact Hurl|exact Hd].
Defined.

(** The digests agree with the published test vectors (FIPS 180-4 and
    RFC 4231, test case 2). *)
Example sha256_abc :
  Encoding.hex_of_bytes (Hmac.sha256 (Encoding.bytes_of_string "abc"))
  = "ba7816bf8f01cfea414140de5dae2223b00361a396177a9cb410ff61f20015ad".
Proof. vm_compute. reflexivity. Qed.

Example hmac_sha256_rfc4231 :
  Hmac.hmac_sha256_hex "Jefe" "what do ya want for nothing?"
  = "5bdcc146bf60754e6a042426089575c75a003f089d2739839dec58b964ec3843".
Proof. vm_compute. reflexivity. Qed.

Example sha256_constants :
  List.firstn 2 Hmac.K = [0x428a2f98; 0x71374491] /\
  List.last Hmac.K 0 = 0xc67178f2 /\
  List.firstn 2 Hmac.H0 = [0x6a09e667; 0xbb67ae85].
Proof. vm_compute. repeat split. Qed.

Example base64_user_pass : Encoding.base64 "user:pass" = "dXNlcjpwYXNz".
Proof. vm_compute. reflexivity. Qed.

Example buildUrl_getReservation :
  IntegrationManager.buildUrl (defaultIntegrations no_env) "booking_engine"
    "getReservation" (Some [("id", "A 1/2")])
  = Some "https://api.booking-engine.example.com/v1/reservations/A%201%2F2".
Proof. vm_compute. reflexivity. Qed.

(** * Further properties *)

(** ** Sessions over the life of the store *)

Section SessionProperties.

Variable jwtSecret : string.
Variable jwt_sign : TokenPayload -> string -> Z -> Z -> string.
Variable jwt_verify : string -> string -> Z -> option TokenPayload.
Variable verifySecret : string -> string -> bool.

Lemma evolves_trans s1 s2 s3 : evolves s1 s2 -> evolves s2 s3 -> evolves s1 s3.
Proof. intros [->| ->] [->| ->]; unfold evolves; auto. Qed.

Lemma evolves_id s s' : evolves s s' -> s_id s' = s_id s.
Proof. by intros [->| ->]. Qed.

Lemma revoke_map_evolves (q : OAuthSession -> bool) l s' :
  s' ∈ List.map (fun s => if q s then Sql.set_revoked s else s) l ->
  exists s, s ∈ l /\ evolves s s'.
Proof.
  intros H. apply list_elem_of_In, List.in_map_iff in H as (s & Hs & Hin).
  exists s. split; [by apply list_elem_of_In|].
  destruct (q s); subst; [by right|by left].
Qed.

Lemma insert_session_step cid a r ty e re db res db' s' :
  Sql.insert_session cid a r ty e re db = (res, db') ->
  s' ∈ sessions db' ->
  (s' ∈ sessions db \/ db_seq db < s_id s') /\ db_seq db <= db_seq db'.
Proof.
  intros Hins Hs'. destruct res as [id|msg].
  - apply insert_session_Ok in Hins as (_ & _ & -> & ->). simpl in *.
    split; [|lia]. apply elem_of_app in Hs' as [Hs'|Hs']; [by left|].
    apply list_elem_of_singleton in Hs'. subst s'. simpl. right. lia.
  - apply insert_session_Throw in Hins. subst. split; [by left|lia].
Qed.

Lemma saveSession_step c a r e re db s' :
  s' ∈ sessions (snd (saveSession c a r e re db)) ->
  (s' ∈ sessions db \/ db_seq db < s_id s') /\
  db_seq db <= db_seq (snd (saveSession c a r e re db)).
Proof.
  unfold saveSession, bind, gets.
  destruct (Sql.insert_session _ _ _ _ _ _ _) as [[id|msg] db1] eqn:Hins; simpl;
    intros Hs'; eapply insert_session_step; eauto.
Qed.

(** One call: every row afterwards comes from a row before, or is new with
    an id above the counter. *)
Lemma exec_step c db s' :
  s' ∈ sessions (exec jwtSecret jwt_sign verifySecret c db) ->
  ((exists s, s ∈ sessions db /\ evolves s s') \/ db_seq db < s_id s') /\
  db_seq db <= db_seq (exec jwtSecret jwt_sign verifySecret c db).
Proof.
  assert (Hkeep : s' ∈ sessions db ->
            (exists s, s ∈ sessions db /\ evolves s s') \/ db_seq db < s_id s').
  { intros H. left. exists s'. split; [done|by left]. }
  destruct c; simpl.
  - unfold createTokenResponse, authenticateClient, bind, gets, ret.
    destruct (Sql.select_active_client _ _) as [c|]; [|simpl; intros; split; [auto|lia]].
    destruct (verifySecret _ _); simpl; [|simpl; intros; split; [auto|lia]].
    pose proof (saveSession_step c
      (accessToken (generateTokens jwtSecret jwt_sign (cl_client_id c) 3600 d))
      (d_refresh d)
      (expiresAt (generateTokens jwtSecret jwt_sign (cl_client_id c) 3600 d))
      (refreshExpiresAt (generateTokens jwtSecret jwt_sign (cl_client_id c) 3600 d))
      db s') as Hs.
    destruct (saveSession _ _ _ _ _ _) as [[r|msg] db1]; simpl in *;
      intros H; destruct (Hs H) as [[?|?] ?]; split; auto.
  - unfold refreshAccessToken, bind, gets, ret, revokeSession, modify.
    destruct (Sql.select_by_refresh _ _) as [s|]; [|simpl; intros; split; [auto|lia]].
    destruct (_ <? _); [simpl; intros; split; [auto|lia]|].
    destruct (Sql.select_client _ _) as [c|]; [|simpl; intros; split; [auto|lia]].
    destruct (bool_decide _); simpl; [|simpl; intros; split; [auto|lia]].
    pose proof (saveSession_step c
      (accessToken (generateTokens jwtSecret jwt_sign (cl_client_id c) 3600 d))
      (d_refresh d)
      (expiresAt (generateTokens jwtSecret jwt_sign (cl_client_id c) 3600 d))
      (refreshExpiresAt (generateTokens jwtSecret jwt_sign (cl_client_id c) 3600 d))
      (Sql.update_revoke_id (s_id s) db) s') as Hs.
    destruct (saveSession _ _ _ _ _ _) as [[r|msg] db1]; simpl in *;
      intros H; destruct (Hs H) as [[Hin|?] ?]; split; auto;
      left; by apply revoke_map_evolves in Hin.
  - intros H. destruct (saveSession_step _ _ _ _ _ _ _ H) as [[?|?] ?]; split; auto.
  - intros H. split; [|lia]. left. by apply revoke_map_evolves in H.
  - intros H. split; [|lia]. left. by apply revoke_map_evolves in H.
  - intros H. split; [|lia]. apply filter_elem in H as [H _]. auto.
Qed.

Lemma saveSession_seq c a r e re db :
  db_seq db <= db_seq (snd (saveSession c a r e re db)).
Proof.
  unfold saveSession, bind, gets, Sql.insert_session.
  repeat (destruct (bool_decide _)); simpl; lia.
Qed.

Lemma exec_seq c db :
  db_seq db <= db_seq (exec jwtSecret jwt_sign verifySecret c db).
Proof.
  destruct c; simpl; try lia.
  - unfold createTokenResponse, authenticateClient, bind, gets, ret.
    destruct (Sql.select_active_client _ _) as [c|]; [|simpl; lia].
    destruct (verifySecret _ _); simpl; [|lia].
    pose proof (saveSession_seq c
      (accessToken (generateTokens jwtSecret jwt_sign (cl_client_id c) 3600 d))
      (d_refresh d)
      (expiresAt (generateTokens jwtSecret jwt_sign (cl_client_id c) 3600 d))
      (refreshExpiresAt (generateTokens jwtSecret jwt_sign (cl_client_id c) 3600 d))
      db) as Hs.
    by destruct (saveSession _ _ _ _ _ _) as [[r|msg] db1].
  - unfold refreshAccessToken, bind, gets, ret, revokeSession, modify.
    destruct (Sql.select_by_refresh _ _) as [s|]; [|simpl; lia].
    destruct (_ <? _); [simpl; lia|].
    destruct (Sql.select_client _ _) as [c|]; [|simpl; lia].
    destruct (bool_decide _); simpl; [|lia].
    pose proof (saveSession_seq c
      (accessToken (generateTokens jwtSecret jwt_sign (cl_client_id c) 3600 d))
      (d_refresh d)
      (expiresAt (generateTokens jwtSecret jwt_sign (cl_client_id c) 3600 d))
      (refreshExpiresAt (generateTokens jwtSecret jwt_sign (cl_client_id c) 3600 d))
      (Sql.update_revoke_id (s_id s) db)) as Hs.
    by destruct (saveSession _ _ _ _ _ _) as [[r|msg] db1].
  - apply saveSession_seq.
Qed.

Lemma exec_all_step cs db s' :
  s' ∈ sessions (exec_all jwtSecret jwt_sign verifySecret cs db) ->
  ((exists s, s ∈ sessions db /\ evolves s s') \/ db_seq db < s_id s') /\
  db_seq db <= db_seq (exec_all jwtSecret jwt_sign verifySecret cs db).
Proof.
  revert db. induction cs as [|c cs IH]; intros db Hs'; simpl in *.
  - split; [|lia]. left. exists s'. split; [done|by left].
  - destruct (IH _ Hs') as [Hfrom Hseq].
    pose proof (exec_seq c db) as Hle.
    split; [|lia].
    destruct Hfrom as [(s1 & Hs1 & Hev)|Hlt]; [|right; lia].
    destruct (exec_step c db s1 Hs1) as [[(s & Hs & Hev0)|Hlt] _].
    + left. exists s. split; [done|]. by eapply evolves_trans.
    + right. rewrite (evolves_id _ _ Hev). lia.
Qed.

(** X1. A session is immutable except for its revoked flag, which only
    goes from 0 to 1: after any calls of the service, the row with the id of
    a row of the store before is that row, or that row revoked; and a row
    that was revoked is unchanged. *)
Theorem session_immutable_but_revoked cs db s s' :
  wf_db db ->
  s ∈ sessions db ->
  s' ∈ sessions (exec_all jwtSecret jwt_sign verifySecret cs db) ->
  s_id s' = s_id s ->
  evolves s s' /\ (s_is_revoked s = 1 -> s' = s).
Proof.
  intros Hwf Hs Hs' Hid.
  assert (Hev : evolves s s').
  { destruct (exec_all_step cs db s' Hs') as [[(s0 & Hs0 & Hev)|Hlt] _].
    - assert (s0 = s) as ->; [|done].
      eapply (NoDup_fmap_eq s_id); eauto using wf_ids.
      rewrite <- Hid. symmetry. by apply evolves_id.
    - pose proof (wf_seq _ Hwf) as Hseq. rewrite Forall_forall in Hseq.
      specialize (Hseq s Hs). lia. }
  split; [done|]. intros Hr. destruct Hev as [->| ->]; [done|].
  destruct s; simpl in *. by subst.
Qed.

End SessionProperties.

(** ** Lists under [find], [map] and [filter] *)

Lemma find_map_keep {A} (p : A -> bool) (f : A -> A) (l : list A) (x : A) :
  (forall y, f y = y \/ p (f y) = false) -> (forall y, p y = false -> p (f y) = false) ->
  List.find p l = Some x -> f x = x ->
  List.find p (List.map f l) = Some x.
Proof.
  intros Hf Hmono. induction l as [|a l IH]; simpl; [done|].
  destruct (p a) eqn:Hpa.
  - intros [= ->] Hx. by rewrite Hx, Hpa.
  - intros Hfind Hx. rewrite (Hmono a Hpa). auto.
Qed.

Lemma find_filter_keep {A} (p q : A -> bool) (l : list A) (x : A) :
  List.find p l = Some x -> q x = true -> List.find p (List.filter q l) = Some x.
Proof.
  induction l as [|a l IH]; simpl; [done|].
  destruct (p a) eqn:Hpa.
  - intros [= ->] Hq. rewrite Hq. simpl. by rewrite Hpa.
  - intros Hfind Hq. destruct (q a); simpl; [rewrite Hpa|]; auto.
Qed.

Lemma filter_filter_id {A} (q : A -> bool) (l : list A) :
  List.filter q (List.filter q l) = List.filter q l.
Proof.
  induction l as [|a l IH]; simpl; [done|].
  destruct (q a) eqn:Hq; simpl; [rewrite Hq; by f_equal|done].
Qed.

Lemma filter_none {A} (q : A -> bool) (l : list A) :
  (forall x, x ∈ l -> q x = false) -> List.filter q l = [].
Proof.
  induction l as [|a l IH]; simpl; intros H; [done|].
  rewrite (H a) by apply list_elem_of_here.
  apply IH. intros x Hx. apply H. by apply list_elem_of_further.
Qed.

(** ** The token service, continued *)

Section TokenProperties.

Variable jwtSecret : string.
Variable jwt_sign : TokenPayload -> string -> Z -> Z -> string.
Variable jwt_verify : string -> string -> Z -> option TokenPayload.
Variable verifySecret : string -> string -> bool.

Lemma validateAccessToken_Some access clock now db s :
  validateAccessToken jwtSecret jwt_verify access clock now db = Some s ->
  jwt_verify access jwtSecret clock <> None /\
  Sql.select_by_access access db = Some s /\
  s ∈ sessions db /\ s_access_token s = access /\ s_is_revoked s = 0 /\
  now <= s_expires_at s.
Proof.
  unfold validateAccessToken, verifyToken. intros H.
  destruct (jwt_verify access jwtSecret clock) as [p|]; [|discriminate].
  destruct (Sql.select_by_access access db) as [s0|] eqn:Hfind; [|discriminate].
  destruct (s_expires_at s0 <? now) eqn:Hexp; [discriminate|].
  inversion H; subst s0.
  pose proof Hfind as Hf. apply find_Some_elem in Hf as [Hin Hp].
  apply andb_true_iff in Hp as [Ha Hr].
  apply bool_decide_eq_true in Ha, Hr. apply Z.ltb_ge in Hexp.
  repeat split; auto.
Qed.

Lemma select_client_id id db c : Sql.select_client id db = Some c -> cl_id c = id.
Proof.
  intros H. apply find_Some_elem in H as [_ H]. by apply bool_decide_eq_true in H.
Qed.

Lemma refresh_dead_after_revoke refresh db s :
  wf_db db -> Sql.select_by_refresh refresh db = Some s ->
  refresh_dead refresh (Sql.update_revoke_id (s_id s) db).
Proof.
  intros Hwf Hs. apply find_Some_elem in Hs as [Hin Hp].
  apply andb_true_iff in Hp as [Ht _]. apply bool_decide_eq_true in Ht.
  intros s' Hs' Ht'. simpl in Hs'.
  apply list_elem_of_In, List.in_map_iff in Hs' as (s0 & Hs0 & Hin0).
  apply list_elem_of_In in Hin0.
  assert (s0 = s) as ->.
  { eapply (NoDup_fmap_eq s_refresh_token); eauto using wf_refresh.
    rewrite Ht, <- Ht'. destruct (bool_decide _) in Hs0; subst s'; reflexivity. }
  rewrite bool_decide_eq_true_2 in Hs0 by reflexivity. subst s'. simpl. lia.
Qed.

(** X2. Rotation: after a successful refresh the old access token no
    longer validates at any instant, the new pair differs from the old one
    in both tokens, the store has one row more, and the new access token
    validates, within its lifetime, to a session of the same client that
    carries the new refresh token. *)
Theorem refresh_rotates refresh now d db resp db' :
  wf_db db -> jwt_sound jwt_sign jwt_verify ->
  refreshAccessToken jwtSecret jwt_sign refresh now d db = (Ok (Some resp), db') ->
  exists s,
    Sql.select_by_refresh refresh db = Some s /\
    (forall clock' now',
       validateAccessToken jwtSecret jwt_verify (s_access_token s) clock' now' db' = None) /\
    refresh_token resp <> refresh /\
    access_token resp <> s_access_token s /\
    length (sessions db') = S (length (sessions db)) /\
    (forall clock now',
       clock / 1000 < d_clock_sign d / 1000 + 3600 ->
       now' <= d_clock_exp d + 3600 * 1000 ->
       exists s',
         validateAccessToken jwtSecret jwt_verify (access_token resp) clock now' db'
           = Some s' /\
         s_client_id s' = s_client_id s /\
         s_refresh_token s' = refresh_token resp).
Proof.
  intros Hwf Hjwt H.
  apply refreshAccessToken_Some in H as (s & c & id & Hs & _ & Hc & _ & Hins & ->).
  pose proof (wf_insert_session _ _ _ _ _ _ _ _ _
                (wf_update_revoke_id (s_id s) db Hwf) Hins) as Hwf'.
  apply insert_session_Ok in Hins as (Hafresh & Hrfresh & -> & ->).
  pose proof Hs as Hs0. apply find_Some_elem in Hs0 as [Hin Hp].
  apply andb_true_iff in Hp as [Ht _]. apply bool_decide_eq_true in Ht.
  simpl in Hafresh, Hrfresh.
  rewrite revoke_map_fmap in Hafresh by reflexivity.
  rewrite revoke_map_fmap in Hrfresh by reflexivity.
  exists s. split; [done|]. split; [|split; [|split; [|split]]].
  - intros clock' now'.
    destruct (validateAccessToken _ _ _ _ _ _) as [x|] eqn:Hx; [|done]. exfalso.
    apply validateAccessToken_Some in Hx as (_ & _ & Hxin & Hxa & Hxr & _).
    simpl in Hxin. apply elem_of_app in Hxin as [Hxin|Hxin].
    + apply list_elem_of_In, List.in_map_iff in Hxin as (s0 & Hs0 & Hin0).
      apply list_elem_of_In in Hin0.
      assert (s0 = s) as ->.
      { apply (NoDup_fmap_eq s_access_token (sessions db)); [apply Hwf|done|done|].
        rewrite <- Hxa. destruct (bool_decide _) in Hs0; subst x; reflexivity. }
      rewrite bool_decide_eq_true_2 in Hs0 by reflexivity. subst x. discriminate.
    + apply list_elem_of_singleton in Hxin. subst x. simpl in Hxa.
      apply Hafresh. rewrite Hxa. apply list_elem_of_fmap. eauto.
  - simpl. intros E. apply Hrfresh. rewrite E, <- Ht. apply list_elem_of_fmap. eauto.
  - simpl. intros E. apply Hafresh. rewrite E. apply list_elem_of_fmap. eauto.
  - unfold Sql.update_revoke_id. simpl. rewrite length_app, List.length_map. simpl. lia.
  - intros clock now' Hclock Hnow.
    match type of Hwf' with context [_ ++ [?r]] => exists r end.
    split; [|split; [simpl; eapply select_client_id; exact Hc|reflexivity]].
    apply validateAccessToken_iff; [done|]. simpl. repeat split.
    + by apply Hjwt.
    + apply elem_of_app. right. apply list_elem_of_singleton. reflexivity.
    + unfold getExpirationDate. lia.
Qed.

(** X3. A refresh that returns null has changed nothing, and it returns
    null exactly when no row that is not revoked carries the token, or the
    row's refresh expiry is before the current instant, or the owning client
    is missing or not active (a refresh at the very instant of expiry still
    goes through). *)
Theorem refreshAccessToken_null refresh now d db :
  (forall db', refreshAccessToken jwtSecret jwt_sign refresh now d db = (Ok None, db') ->
               db' = db) /\
  (refreshAccessToken jwtSecret jwt_sign refresh now d db = (Ok None, db) <->
   Sql.select_by_refresh refresh db = None \/
   exists s, Sql.select_by_refresh refresh db = Some s /\
     (s_refresh_expires_at s < now \/
      Sql.select_client (s_client_id s) db = None \/
      exists c, Sql.select_client (s_client_id s) db = Some c /\ cl_is_active c <> 1)).
Proof.
  unfold refreshAccessToken, saveSession, revokeSession, bind, gets, modify, ret.
  destruct (Sql.select_by_refresh refresh db) as [s|] eqn:Hs.
  2:{ split; [by intros db' [= <-]|]. split; auto. }
  destruct (Z.ltb_spec (s_refresh_expires_at s) now) as [Hexp|Hexp].
  { split; [by intros db' [= <-]|]. split; [|done]. intros _. right. eauto. }
  destruct (Sql.select_client (s_client_id s) db) as [c|] eqn:Hc.
  2:{ split; [by intros db' [= <-]|]. split; [|done]. intros _. right. eauto. }
  destruct (bool_decide_reflect (cl_is_active c = 1)) as [Hact|Hact]; simpl.
  2:{ split; [by intros db' [= <-]|]. split; [|done]. intros _. right.
      exists s. split; [done|]. right. right. eauto. }
  destruct (Sql.insert_session _ _ _ _ _ _ _) as [[id|msg] db1]; simpl.
  - split; [intros db'; discriminate|]. split; [discriminate|].
    intros [Hn|(s0 & Hs0 & Hcase)]; [discriminate|]. injection Hs0 as <-.
    destruct Hcase as [?|[Hn|(c0 & Hc0 & Hna)]]; [lia|congruence|].
    rewrite Hc in Hc0. injection Hc0 as <-. done.
  - split; [intros db'; discriminate|]. split; [discriminate|].
    intros [Hn|(s0 & Hs0 & Hcase)]; [discriminate|]. injection Hs0 as <-.
    destruct Hcase as [?|[Hn|(c0 & Hc0 & Hna)]]; [lia|congruence|].
    rewrite Hc in Hc0. injection Hc0 as <-. done.
Qed.

(** X4. The refresh is not atomic: when the insertion of the replacement
    row fails (one of the drawn tokens is already stored), the call throws
    after the old session has been revoked; the store then differs from the
    one before only by that revocation, the refresh token is spent, and
    POST /auth/refresh answers 500. *)
Theorem refresh_throw_spends_token refresh now d db msg db' :
  wf_db db ->
  refreshAccessToken jwtSecret jwt_sign refresh now d db = (Throw msg, db') ->
  exists s,
    Sql.select_by_refresh refresh db = Some s /\
    db' = snd (revokeSession (s_id s) db) /\
    (d_refresh d ∈ (s_refresh_token <$> sessions db) \/
     exists c, Sql.select_client (s_client_id s) db = Some c /\
       accessToken (generateTokens jwtSecret jwt_sign (cl_client_id c) 3600 d)
         ∈ (s_access_token <$> sessions db)) /\
    (forall now' d',
       refreshAccessToken jwtSecret jwt_sign refresh now' d' db' = (Ok None, db')) /\
    (refresh <> EmptyString ->
     AuthController.refresh jwtSecret jwt_sign
       {| AuthController.rq_refresh_token := Some refresh;
          AuthController.rq_refresh_grant_type := Some "refresh_token" |} now d db
     = (AuthController.server_error, db')).
Proof.
  intros Hwf H. pose proof H as H0.
  unfold refreshAccessToken, saveSession, revokeSession, bind, gets, modify, ret in H.
  destruct (Sql.select_by_refresh refresh db) as [s|] eqn:Hs; [|discriminate].
  destruct (s_refresh_expires_at s <? now); [discriminate|].
  destruct (Sql.select_client (s_client_id s) db) as [c|] eqn:Hc; [|discriminate].
  destruct (bool_decide (cl_is_active c = 1)); simpl in H; [|discriminate].
  destruct (Sql.insert_session _ _ _ _ _ _ _) as [[id|m] db1] eqn:Hins; [discriminate|].
  injection H as -> ->.
  pose proof (insert_session_Throw _ _ _ _ _ _ _ _ _ Hins) as ->.
  exists s. split; [done|]. split; [done|]. split; [|split].
  - unfold Sql.insert_session, Sql.update_revoke_id, Sql.with_sessions in Hins.
    cbn [sessions] in Hins. rewrite !revoke_map_fmap in Hins by reflexivity.
    destruct (decide (accessToken
                        (generateTokens jwtSecret jwt_sign (cl_client_id c) 3600 d)
                      ∈ s_access_token <$> sessions db)) as [Ha|Ha]; [right; eauto|].
    destruct (decide (d_refresh d ∈ s_refresh_token <$> sessions db)) as [Hr|Hr];
      [by left|].
    rewrite (bool_decide_eq_false_2 _ Ha), (bool_decide_eq_false_2 _ Hr) in Hins.
    discriminate.
  - intros now' d'. apply refreshAccessToken_dead.
    by apply refresh_dead_after_revoke.
  - intros Hne. unfold AuthController.refresh. simpl.
    rewrite (bool_decide_eq_false_2 _ Hne). simpl. by rewrite H0.
Qed.

End TokenProperties.

Section IssueAndRevoke.

Variable jwtSecret : string.
Variable jwt_sign : TokenPayload -> string -> Z -> Z -> string.
Variable jwt_verify : string -> string -> Z -> option TokenPayload.
Variable verifySecret : string -> string -> bool.

(** X5. [authenticateClient] returns a client exactly when it is the active
    client with that identifier and the secret verifies against its hash; in
    every case it returns without throwing and leaves the store as it was. *)
Theorem authenticateClient_spec db client_id clientSecret :
  wf_db db ->
  (exists r, authenticateClient verifySecret client_id clientSecret db = (Ok r, db)) /\
  (forall c,
     authenticateClient verifySecret client_id clientSecret db = (Ok (Some c), db) <->
     c ∈ clients db /\ cl_client_id c = client_id /\ cl_is_active c = 1 /\
     verifySecret clientSecret (cl_client_secret_hash c) = true).
Proof.
  intros Hwf. unfold authenticateClient, bind, gets, ret. split.
  - destruct (Sql.select_active_client _ _) as [c|]; [|eauto].
    destruct (verifySecret _ _); simpl; eauto.
  - intros c. split.
    + destruct (Sql.select_active_client _ _) as [c0|] eqn:Hsel; [|discriminate].
      destruct (verifySecret _ _) eqn:Hv; simpl; [|discriminate].
      intros [= <-]. apply find_Some_elem in Hsel as [Hin Hp].
      apply andb_true_iff in Hp as [Hid Hact].
      apply bool_decide_eq_true in Hid, Hact. auto.
    + intros (Hin & Hid & Hact & Hv).
      unfold Sql.select_active_client.
      rewrite (find_unique cl_client_id _ _ c).
      * by rewrite Hv.
      * apply Hwf.
      * done.
      * by rewrite (bool_decide_eq_true_2 _ Hid), (bool_decide_eq_true_2 _ Hact).
      * intros y _ Hy. apply andb_true_iff in Hy as [Hy _].
        apply bool_decide_eq_true in Hy. congruence.
Qed.

(** X6. A token pair issued by [createTokenResponse] is backed by exactly
    one new row, appended to the sessions: it belongs to the authenticated
    client, is not revoked, expires 3600 seconds after the clock reading, and
    its refresh expiry, 24 times as far, is later than its access expiry
    whenever the clock has not gone backwards between the two readings; the
    clients are untouched and the answer is a Bearer pair for 3600 seconds. *)
Theorem createTokenResponse_issues client_id clientSecret d db resp db' :
  createTokenResponse jwtSecret jwt_sign verifySecret client_id clientSecret d db
    = (Ok (Some resp), db') ->
  exists c row,
    authenticateClient verifySecret client_id clientSecret db = (Ok (Some c), db) /\
    sessions db' = sessions db ++ [row] /\
    clients db' = clients db /\
    s_client_id row = cl_id c /\
    s_access_token row = access_token resp /\
    s_refresh_token row = refresh_token resp /\
    s_is_revoked row = 0 /\
    s_expires_at row = d_clock_exp d + 3600000 /\
    s_refresh_expires_at row = d_clock_rexp d + 86400000 /\
    (d_clock_exp d <= d_clock_rexp d -> s_expires_at row < s_refresh_expires_at row) /\
    token_type resp = "Bearer" /\ expires_in resp = 3600 /\
    (access_token resp ∉ (s_access_token <$> sessions db)) /\
    refresh_token resp ∉ (s_refresh_token <$> sessions db).
Proof.
  intros H.
  apply createTokenResponse_Some in H as (c & id & Hsel & Hv & Hins & ->).
  apply insert_session_Ok in Hins as (Ha & Hr & -> & ->).
  eexists c, _. split.
  { unfold authenticateClient, bind, gets, ret. by rewrite Hsel, Hv. }
  simpl. unfold getExpirationDate.
  split; [reflexivity|]. simpl.
  repeat (split; [first [reflexivity | lia | assumption]|]). assumption.
Qed.

(** X7. [revokeSession] changes nothing when no row has the id; otherwise
    the row with that id becomes revoked and every other row is as before;
    revoking twice is revoking once. *)
Theorem revokeSession_spec sessionId db :
  let db' := snd (revokeSession sessionId db) in
  ((forall s, s ∈ sessions db -> s_id s <> sessionId) -> db' = db) /\
  (forall s, s ∈ sessions db -> s_id s <> sessionId -> s ∈ sessions db') /\
  (forall s', s' ∈ sessions db' -> s_id s' = sessionId -> s_is_revoked s' = 1) /\
  (forall s', s' ∈ sessions db' -> exists s, s ∈ sessions db /\ evolves s s') /\
  length (sessions db') = length (sessions db) /\
  snd (revokeSession sessionId db') = db'.
Proof.
  unfold revokeSession, modify, Sql.update_revoke_id, Sql.with_sessions. simpl.
  split; [|split; [|split; [|split; [|split]]]].
  - intros Hno. destruct db as [cl ss sq]. simpl in *. f_equal.
    induction ss as [|a ss IH]; simpl; [done|].
    rewrite bool_decide_eq_false_2 by (apply Hno, list_elem_of_here).
    f_equal. apply IH. intros s Hs. apply Hno. by apply list_elem_of_further.
  - intros s Hs Hne. apply list_elem_of_In, List.in_map_iff. exists s.
    rewrite bool_decide_eq_false_2 by done. split; [done|by apply list_elem_of_In].
  - intros s' Hs' Hid. apply list_elem_of_In, List.in_map_iff in Hs' as (s & Hs & _).
    destruct (bool_decide_reflect (s_id s = sessionId)); subst s'; [done|].
    by destruct n.
  - intros s' Hs'. by apply revoke_map_evolves in Hs'.
  - by rewrite List.length_map.
  - f_equal. rewrite List.map_map. apply List.map_ext. intros s.
    destruct (bool_decide_reflect (s_id s = sessionId)) as [He|He]; simpl.
    + by rewrite bool_decide_eq_true_2.
    + by rewrite bool_decide_eq_false_2.
Qed.

(** X8. After [revokeAllClientSessions] every session of the client is
    revoked and no access token of the client validates, while the sessions
    of the other clients are as before and their tokens validate as before. *)
Theorem revokeAllClientSessions_spec cid db :
  let db' := snd (revokeAllClientSessions cid db) in
  (forall s', s' ∈ sessions db' -> s_client_id s' = cid -> s_is_revoked s' = 1) /\
  (forall s, s ∈ sessions db -> s_client_id s <> cid -> s ∈ sessions db') /\
  (forall access clock now s',
     validateAccessToken jwtSecret jwt_verify access clock now db' = Some s' ->
     s_client_id s' <> cid) /\
  (forall access clock now s,
     validateAccessToken jwtSecret jwt_verify access clock now db = Some s ->
     s_client_id s <> cid ->
     validateAccessToken jwtSecret jwt_verify access clock now db' = Some s) /\
  snd (revokeAllClientSessions cid db') = db'.
Proof.
  unfold revokeAllClientSessions, modify, Sql.update_revoke_client, Sql.with_sessions.
  simpl.
  assert (Hrev : forall s', s' ∈ List.map
            (fun s => if bool_decide (s_client_id s = cid) then Sql.set_revoked s else s)
            (sessions db) -> s_client_id s' = cid -> s_is_revoked s' = 1).
  { intros s' Hs' Hc. apply list_elem_of_In, List.in_map_iff in Hs' as (s & Hs & _).
    destruct (bool_decide_reflect (s_client_id s = cid)); subst s'; [done|].
    by destruct n. }
  split; [exact Hrev|]. split; [|split; [|split]].
  - intros s Hs Hne. apply list_elem_of_In, List.in_map_iff. exists s.
    rewrite bool_decide_eq_false_2 by done. split; [done|by apply list_elem_of_In].
  - intros access clock now s' Hv Hc.
    apply validateAccessToken_Some in Hv as (_ & _ & Hin & _ & Hr & _).
    simpl in Hin. specialize (Hrev s' Hin Hc). lia.
  - intros access clock now s Hv Hne.
    pose proof (validateAccessToken_Some _ _ _ _ _ _ _ Hv) as (_ & Hsel & _ & _ & _ & Hexp).
    unfold validateAccessToken in *.
    destruct (verifyToken _ _ _ _); [|done].
    unfold Sql.select_by_access in *. simpl.
    rewrite (find_map_keep _ _ _ s); [by rewrite Hsel in Hv| | |exact Hsel|].
    + intros y. destruct (bool_decide (s_client_id y = cid)); [right|by left].
      simpl. apply andb_false_r.
    + intros y Hy. destruct (bool_decide (s_client_id y = cid)); [|done].
      simpl. apply andb_false_r.
    + by rewrite bool_decide_eq_false_2.
  - f_equal. rewrite List.map_map. apply List.map_ext. intros s.
    destruct (bool_decide_reflect (s_client_id s = cid)) as [He|He]; simpl.
    + by rewrite bool_decide_eq_true_2.
    + by rewrite bool_decide_eq_false_2.
Qed.

(** X9. With the instants of the sweeps and the stored expiries in the
    years 0000 to 9999, the sweep never takes a session that still validates:
    a token that validates at an instant validates as before after a sweep
    run at that instant or earlier; and a second sweep at the same or an
    earlier instant deletes nothing. *)
Theorem cleanup_keeps_valid t db :
  iso_range t -> expiries_in_range db ->
  let db' := snd (cleanupExpiredSessions t db) in
  (forall access clock now s,
     validateAccessToken jwtSecret jwt_verify access clock now db = Some s ->
     t <= now ->
     validateAccessToken jwtSecret jwt_verify access clock now db' = Some s) /\
  (forall t', iso_range t' -> t' <= t -> cleanupExpiredSessions t' db' = (Ok 0, db')).
Proof.
  intros _ _.
  unfold cleanupExpiredSessions, Sql.delete_expired, Sql.with_sessions. simpl. split.
  - intros access clock now s Hv Hle.
    pose proof (validateAccessToken_Some _ _ _ _ _ _ _ Hv) as (_ & Hsel & _ & _ & _ & Hexp).
    unfold validateAccessToken in *.
    destruct (verifyToken _ _ _ _); [|done].
    unfold Sql.select_by_access in *. simpl.
    rewrite (find_filter_keep _ _ _ s Hsel); [by rewrite Hsel in Hv|].
    apply negb_true_iff, Z.ltb_ge. lia.
  - intros t' _ Hle.
    assert (Hnone : List.filter (fun s => s_expires_at s <? t')
                      (List.filter (fun s => negb (s_expires_at s <? t)) (sessions db)) = []).
    { apply filter_none. intros x Hx. apply filter_elem in Hx as [_ Hx].
      apply negb_true_iff, Z.ltb_ge in Hx. apply Z.ltb_ge. lia. }
    rewrite Hnone. simpl. f_equal. f_equal. clear Hnone.
    induction (sessions db) as [|a l IH]; simpl; [done|].
    destruct (Z.ltb_spec (s_expires_at a) t); simpl; [exact IH|].
    destruct (Z.ltb_spec (s_expires_at a) t'); simpl; [lia|]. by f_equal.
Qed.

(** X10. With the instant of the sweep and the stored expiries in the
    years 0000 to 9999, the sweep looks at the access expiry only: a session
    whose access token has expired is deleted even while its refresh token
    is still good, and a refresh with that token then returns null. *)
Theorem cleanup_spends_refresh refresh t db s :
  wf_db db ->
  iso_range t -> expiries_in_range db ->
  Sql.select_by_refresh refresh db = Some s ->
  s_expires_at s < t ->
  let db' := snd (cleanupExpiredSessions t db) in
  (s ∉ sessions db') /\
  forall now d, refreshAccessToken jwtSecret jwt_sign refresh now d db' = (Ok None, db').
Proof.
  intros Hwf _ _ Hs Hexp db'.
  assert (Hgone : s ∉ sessions db').
  { intros Hin. apply filter_elem in Hin as [_ Hin].
    apply negb_true_iff, Z.ltb_ge in Hin. lia. }
  split; [done|]. intros now d. apply refreshAccessToken_dead.
  intros x Hx Ht. exfalso. apply Hgone.
  pose proof Hx as Hx'. apply filter_elem in Hx' as [Hxin _].
  apply find_Some_elem in Hs as [Hin Hp].
  apply andb_true_iff in Hp as [Hst _]. apply bool_decide_eq_true in Hst.
  assert (x = s) as <-; [|done].
  apply (NoDup_fmap_eq s_refresh_token (sessions db)); [apply Hwf|done|done|congruence].
Qed.

End IssueAndRevoke.

(** ** Worked instances on the example store *)

Lemma session_immutable_but_revoked_witness :
  Sql.set_revoked demo_session ∈
    sessions (exec_all "k." demo_sign demo_verifySecret
                [RefreshAccessToken "r1" 1000 demo_draw; CleanupExpiredSessions 100]
                demo_db) /\
  evolves demo_session (Sql.set_revoked demo_session).
Proof.
  assert (Hin : Sql.set_revoked demo_session ∈
    sessions (exec_all "k." demo_sign demo_verifySecret
                [RefreshAccessToken "r1" 1000 demo_draw; CleanupExpiredSessions 100]
                demo_db)).
  { vm_compute. apply list_elem_of_here. }
  split; [exact Hin|].
  exact (proj1 (session_immutable_but_revoked "k." demo_sign demo_verifySecret
                  [RefreshAccessToken "r1" 1000 demo_draw; CleanupExpiredSessions 100]
                  demo_db demo_session (Sql.set_revoked demo_session)
                  wf_demo_db (list_elem_of_here _ _) Hin eq_refl)).
Defined.

Lemma refresh_rotates_witness :
  validateAccessToken "k." demo_verify "k.a1" 0 0 demo_db = Some demo_session /\
  validateAccessToken "k." demo_verify "k.a1" 0 0
    (snd (refreshAccessToken "k." demo_sign "r1" 1000 demo_draw demo_db)) = None /\
  exists s', validateAccessToken "k." demo_verify "k.a2" 0 0
    (snd (refreshAccessToken "k." demo_sign "r1" 1000 demo_draw demo_db)) = Some s' /\
    s_client_id s' = 1 /\ s_refresh_token s' = "r2".
Proof.
  destruct (refresh_rotates "k." demo_sign demo_verify "r1" 1000 demo_draw demo_db _ _
              wf_demo_db demo_jwt_sound eq_refl) as (s & Hs & Hold & _ & _ & _ & Hnew).
  injection Hs as <-.
  split; [reflexivity|]. split; [exact (Hold 0 0)|].
  destruct (Hnew 0 0) as (s' & Hv & Hc & Hr); [by vm_compute | by vm_compute |].
  exists s'. auto.
Defined.

Lemma refresh_throw_spends_token_witness :
  AuthController.refresh "k." demo_sign
    {| AuthController.rq_refresh_token := Some "r1";
       AuthController.rq_refresh_grant_type := Some "refresh_token" |} 1000
    {| d_clock_sign := 5000; d_jti := "a2"; d_refresh := "r1";
       d_clock_exp := 5000; d_clock_rexp := 5000 |} demo_db
  = (AuthController.server_error, snd (revokeSession 1 demo_db)).
Proof.
  destruct (refresh_throw_spends_token "k." demo_sign "r1" 1000
              {| d_clock_sign := 5000; d_jti := "a2"; d_refresh := "r1";
                 d_clock_exp := 5000; d_clock_rexp := 5000 |} demo_db _ _
              wf_demo_db eq_refl) as (s & Hs & _ & _ & _ & H500).
  injection Hs as <-. apply H500. discriminate.
Defined.

Lemma authenticateClient_spec_witness :
  authenticateClient demo_verifySecret "acme" "s3cr3t" demo_db
    = (Ok (Some demo_client), demo_db) /\
  authenticateClient demo_verifySecret "old" "pw" demo_db = (Ok None, demo_db).
Proof.
  split; [|reflexivity].
  apply (proj2 (authenticateClient_spec demo_verifySecret demo_db "acme" "s3cr3t"
                  wf_demo_db)).
  split; [apply list_elem_of_here|]. by vm_compute.
Defined.

Lemma createTokenResponse_issues_witness :
  exists row,
    sessions (snd (createTokenResponse "k." demo_sign demo_verifySecret
                     "acme" "s3cr3t" demo_draw demo_db)) = [demo_session; row] /\
    s_client_id row = 1 /\ s_is_revoked row = 0 /\
    s_expires_at row = 3605000 /\ s_refresh_expires_at row = 86405000.
Proof.
  destruct (createTokenResponse_issues "k." demo_sign demo_verifySecret
              "acme" "s3cr3t" demo_draw demo_db _ _ eq_refl)
    as (c & row & Hc & Hss & _ & Hcid & _ & _ & Hrev & He & Hre & _).
  injection Hc as <-. exists row. repeat split; assumption.
Defined.

Lemma cleanup_spends_refresh_witness :
  (exists resp, fst (refreshAccessToken "k." demo_sign "r1" 4000000 demo_draw demo_db)
     = Ok (Some resp)) /\
  fst (refreshAccessToken "k." demo_sign "r1" 4000000 demo_draw
         (snd (cleanupExpiredSessions 4000000 demo_db))) = Ok None.
Proof.
  split; [eexists; reflexivity|].
  destruct (cleanup_spends_refresh "k." demo_sign "r1" 4000000 demo_db demo_session
              wf_demo_db demo_iso_range_4000000 demo_expiries_in_range eq_refl)
    as [_ H]; [simpl; lia|].
  by rewrite (H 4000000 demo_draw).
Defined.

Lemma cleanup_keeps_valid_witness :
  validateAccessToken "k." demo_verify "k.a1" 2000 2000
    (snd (cleanupExpiredSessions 1000 demo_db)) = Some demo_session /\
  cleanupExpiredSessions 1000 (snd (cleanupExpiredSessions 1000 demo_db))
  = (Ok 0, snd (cleanupExpiredSessions 1000 demo_db)).
Proof.
  assert (H1000 : iso_range 1000) by (unfold iso_range; lia).
  destruct (cleanup_keeps_valid "k." demo_verify 1000 demo_db H1000
              demo_expiries_in_range) as [Hkeep Hagain].
  split.
  - apply Hkeep; [reflexivity|lia].
  - apply Hagain; [exact H1000|lia].
Defined.

(** ** The token endpoint and the authentication middleware *)

Lemma split_nonempty sep s : AuthMiddleware.split sep s <> [].
Proof.
  destruct s as [|c s]; simpl; [done|].
  destruct (bool_decide (c = sep)); [done|].
  by destruct (AuthMiddleware.split sep s).
Qed.

Lemma split_cons_inv sep s p ps :
  AuthMiddleware.split sep s = p :: ps ->
  (sep ∉ String.list_ascii_of_string p) /\
  ((ps = [] /\ s = p) \/
   exists rest, s = (p ++ String sep rest)%string /\
                AuthMiddleware.split sep rest = ps).
Proof.
  revert p ps. induction s as [|c s IH]; simpl; intros p ps H.
  - injection H as <- <-. split; [apply not_elem_of_nil|by left].
  - destruct (bool_decide_reflect (c = sep)) as [->|Hc].
    + injection H as <- <-. split; [apply not_elem_of_nil|].
      right. by exists s.
    + destruct (AuthMiddleware.split sep s) as [|q qs] eqn:Hs.
      { by destruct (split_nonempty sep s). }
      injection H as <- <-. destruct (IH _ _ eq_refl) as [Hq Hcase].
      split.
      { simpl. intros [->|Hin]%elem_of_cons; [done|by apply Hq]. }
      destruct Hcase as [[-> ->]|(rest & -> & Hrest)]; [by left|].
      right. by exists rest.
Qed.

Lemma split_none sep s :
  sep ∉ String.list_ascii_of_string s -> AuthMiddleware.split sep s = [s].
Proof.
  induction s as [|c s IH]; simpl; [done|]. intros Hno.
  apply not_elem_of_cons in Hno as [Hc Hs].
  rewrite bool_decide_eq_false_2 by done. by rewrite (IH Hs).
Qed.

Lemma split_app sep a b :
  sep ∉ String.list_ascii_of_string a ->
  AuthMiddleware.split sep (a ++ String sep b) = a :: AuthMiddleware.split sep b.
Proof.
  induction a as [|c a IH]; simpl; intros Hno.
  - by rewrite bool_decide_eq_true_2.
  - apply not_elem_of_cons in Hno as [Hc Ha].
    rewrite bool_decide_eq_false_2 by done. by rewrite (IH Ha).
Qed.

(** [authHeader.split(' ')] has exactly two parts, the first of them
    Bearer, exactly for the headers made of Bearer, one space and a token
    without a space. *)
Lemma split_bearer h tok :
  AuthMiddleware.split " " h = ["Bearer"; tok] <->
  h = ("Bearer " ++ tok)%string /\ no_space tok.
Proof.
  split.
  - intros H. apply split_cons_inv in H as [_ [[? _]|(rest & -> & H)]]; [done|].
    apply split_cons_inv in H as [Hno [[_ ->]|(rest' & _ & H)]]; [done|].
    by destruct (split_nonempty " " rest').
  - intros [-> Hno]. change ("Bearer " ++ tok)%string with ("Bearer" ++ String " " tok)%string.
    rewrite split_app, (split_none _ _ Hno); [done|].
    vm_compute. intros H. repeat (apply elem_of_cons in H as [H|H]; [discriminate|]).
    by apply elem_of_nil in H.
Qed.

Section AccessControl.

Variable jwtSecret : string.
Variable jwt_sign : TokenPayload -> string -> Z -> Z -> string.
Variable jwt_verify : string -> string -> Z -> option TokenPayload.
Variable verifySecret : string -> string -> bool.

Lemma insert_session_clash cid access refresh ttype e re db msg db' :
  Sql.insert_session cid access refresh ttype e re db = (Throw msg, db') ->
  access ∈ (s_access_token <$> sessions db) \/ refresh ∈ (s_refresh_token <$> sessions db).
Proof.
  unfold Sql.insert_session. intros H.
  destruct (bool_decide_reflect (access ∈ s_access_token <$> sessions db)); [by left|].
  destruct (bool_decide_reflect (refresh ∈ s_refresh_token <$> sessions db)); [by right|].
  discriminate.
Qed.

Lemma createTokenResponse_no_pair client_id clientSecret d db res db' :
  createTokenResponse jwtSecret jwt_sign verifySecret client_id clientSecret d db
    = (res, db') ->
  (forall t, res <> Ok (Some t)) ->
  db' = db /\
  (forall msg, res = Throw msg ->
     d_refresh d ∈ (s_refresh_token <$> sessions db) \/
     exists cid, generateAccessToken jwtSecret jwt_sign cid 3600 (d_jti d) (d_clock_sign d)
                 ∈ (s_access_token <$> sessions db)).
Proof.
  unfold createTokenResponse, authenticateClient, saveSession, bind, gets, ret. intros H Hno.
  destruct (Sql.select_active_client client_id db) as [c|]; [|by injection H as <- <-].
  destruct (verifySecret _ _); simpl in H; [|by injection H as <- <-].
  destruct (Sql.insert_session _ _ _ _ _ _ _) as [[id|m] db1] eqn:Hins;
    injection H as <- <-.
  - by destruct (Hno _ eq_refl).
  - split; [by eapply insert_session_Throw|]. intros _ _.
    apply insert_session_clash in Hins as [Ha|Hr]; [right; eauto|by left].
Qed.

(** X11. POST /auth/token answers 200, 400, 401 or 500 and writes to the
    store only with a 200: 400 exactly when a parameter is absent or empty
    or the grant type is not client_credentials, whatever the credentials;
    200 exactly when the request is complete and [createTokenResponse]
    returned a pair, which is then the body; and a 500 means that one of the
    drawn tokens was already stored. *)
Theorem token_endpoint req d db r db' :
  AuthController.token jwtSecret jwt_sign verifySecret req d db = (r, db') ->
  let complete cid sec :=
    AuthController.rq_client_id req = Some cid /\ cid <> EmptyString /\
    AuthController.rq_client_secret req = Some sec /\ sec <> EmptyString /\
    AuthController.rq_grant_type req = Some "client_credentials" in
  (AuthController.status r = 200 \/ AuthController.status r = 400 \/
   AuthController.status r = 401 \/ AuthController.status r = 500) /\
  (AuthController.status r <> 200 -> db' = db) /\
  (AuthController.status r = 400 <-> ~ exists cid sec, complete cid sec) /\
  (AuthController.status r = 200 <->
   exists cid sec t,
     complete cid sec /\
     createTokenResponse jwtSecret jwt_sign verifySecret cid sec d db = (Ok (Some t), db') /\
     AuthController.body r = AuthController.TokenBody t) /\
  (AuthController.status r = 500 ->
   r = AuthController.server_error /\
   (d_refresh d ∈ (s_refresh_token <$> sessions db) \/
    exists cid, generateAccessToken jwtSecret jwt_sign cid 3600 (d_jti d) (d_clock_sign d)
                ∈ (s_access_token <$> sessions db))).
Proof.
  clear jwt_verify.
  intros H. unfold AuthController.token in H. cbv zeta.
  destruct req as [[cid|] [sec|] [gt|]]; simpl in *;
    try (injection H as <- <-; simpl; split_and!; naive_solver).
  destruct (bool_decide_reflect (cid = EmptyString)) as [Hc|Hc]; simpl in H;
    [injection H as <- <-; simpl; split_and!; naive_solver|].
  destruct (bool_decide_reflect (sec = EmptyString)) as [Hs|Hs]; simpl in H;
    [injection H as <- <-; simpl; split_and!; naive_solver|].
  destruct (bool_decide_reflect (gt = EmptyString)) as [Hg|Hg]; simpl in H;
    [injection H as <- <-; simpl; split_and!; naive_solver|].
  destruct (bool_decide_reflect (gt = "client_credentials")) as [->|Hgt]; simpl in H;
    [|injection H as <- <-; simpl; split_and!; naive_solver].
  destruct (createTokenResponse _ _ _ cid sec d db) as [[[t|]|msg] db1] eqn:Hcr;
    injection H as <- <-; simpl.
  - split_and!; naive_solver.
  - destruct (createTokenResponse_no_pair _ _ _ _ _ _ Hcr) as [-> _]; [done|].
    split_and!; naive_solver.
  - destruct (createTokenResponse_no_pair _ _ _ _ _ _ Hcr) as [-> Hclash]; [done|].
    specialize (Hclash _ eq_refl). split_and!; naive_solver.
Qed.

(** X12. The middleware lets a request through exactly when its
    authorization header is Bearer, one space and a token without a space
    that [validateAccessToken] accepts, and a client row exists for the
    session; the client attached is that row, whether it is active or not.
    Every other request is answered 401 with one of four descriptions; the
    description of the catch block is not among them, since neither call
    of the service throws on a store that answers. *)
Theorem createAuthMiddleware_spec authorization clock now db :
  (forall c,
     AuthMiddleware.createAuthMiddleware jwtSecret jwt_verify authorization clock now db
       = AuthMiddleware.Next c <->
     exists tok s,
       authorization = Some ("Bearer " ++ tok)%string /\ no_space tok /\
       validateAccessToken jwtSecret jwt_verify tok clock now db = Some s /\
       Sql.select_client (s_client_id s) db = Some c) /\
  (forall msg,
     AuthMiddleware.createAuthMiddleware jwtSecret jwt_verify authorization clock now db
       = AuthMiddleware.Unauthorized msg ->
     msg ∈ ["No authorization header provided";
            "Invalid authorization header format. Expected: Bearer <token>";
            "Invalid or expired access token";
            "Client not found or inactive"]).
Proof.
  clear jwt_sign verifySecret.
  unfold AuthMiddleware.createAuthMiddleware, getClientBySession,
    AuthMiddleware.bad_format.
  assert (Hel : forall msg : string,
            msg ∈ ["No authorization header provided";
                   "Invalid authorization header format. Expected: Bearer <token>";
                   "Invalid or expired access token";
                   "Client not found or inactive"] <->
            msg = "No authorization header provided" \/
            msg = "Invalid authorization header format. Expected: Bearer <token>" \/
            msg = "Invalid or expired access token" \/
            msg = "Client not found or inactive").
  { intros msg. rewrite !elem_of_cons, elem_of_nil. tauto. }
  destruct authorization as [h|]; simpl.
  2:{ split; [|intros msg [= <-]; apply Hel; auto].
      intros c. split; [done|]. by intros (? & ? & ? & _). }
  destruct (bool_decide_reflect (h = EmptyString)) as [->|Hh]; simpl.
  { split; [|intros msg [= <-]; apply Hel; auto].
    intros c. split; [done|]. by intros (? & ? & ? & _). }
  destruct (AuthMiddleware.split " " h) as [|scheme [|tok [|x rest]]] eqn:Hsplit.
  - by destruct (split_nonempty " " h).
  - split; [|intros msg [= <-]; apply Hel; auto].
    intros c. split; [done|]. intros (tok & s & [= ->] & Hno & _).
    assert (Hb : AuthMiddleware.split " " ("Bearer " ++ tok) = ["Bearer"; tok])
      by (by apply split_bearer).
    congruence.
  - destruct (bool_decide_reflect (scheme = "Bearer")) as [->|Hscheme]; simpl.
    + apply split_bearer in Hsplit as [-> Hno].
      destruct (validateAccessToken jwtSecret jwt_verify tok clock now db) as [s|] eqn:Hv.
      * destruct (Sql.select_client (s_client_id s) db) as [c0|] eqn:Hc.
        { split; [|done]. intros c. split.
          - intros [= <-]. by exists tok, s.
          - intros (tok' & s' & Htok & _ & Hv' & Hc').
            injection Htok as Htok. apply string_app_inv_head in Htok as <-. congruence. }
        split; [|intros msg [= <-]; apply Hel; auto].
        intros c. split; [done|].
        intros (tok' & s' & Htok & _ & Hv' & Hc').
        injection Htok as Htok. apply string_app_inv_head in Htok as <-. congruence.
      * split; [|intros msg [= <-]; apply Hel; auto].
        intros c. split; [done|].
        intros (tok' & s' & Htok & _ & Hv' & Hc').
        injection Htok as Htok. apply string_app_inv_head in Htok as <-. congruence.
    + split; [|intros msg [= <-]; apply Hel; auto].
      intros c. split; [done|]. intros (tok' & s & [= ->] & Hno & _).
      assert (Hb : AuthMiddleware.split " " ("Bearer " ++ tok') = ["Bearer"; tok'])
        by (by apply split_bearer).
      congruence.
  - split; [|intros msg [= <-]; apply Hel; auto].
    intros c. split; [done|]. intros (tok' & s & [= ->] & Hno & _).
    assert (Hb : AuthMiddleware.split " " ("Bearer " ++ tok') = ["Bearer"; tok'])
      by (by apply split_bearer).
    congruence.
Qed.

Lemma createAuthMiddleware_bearer tok clock now db :
  no_space tok ->
  AuthMiddleware.createAuthMiddleware jwtSecret jwt_verify
    (Some ("Bearer " ++ tok)%string) clock now db
  = match validateAccessToken jwtSecret jwt_verify tok clock now db with
    | None => AuthMiddleware.Unauthorized "Invalid or expired access token"
    | Some session =>
        match Sql.select_client (s_client_id session) db with
        | None => AuthMiddleware.Unauthorized "Client not found or inactive"
        | Some client => AuthMiddleware.Next client
        end
    end.
Proof.
  intros Hno. unfold AuthMiddleware.createAuthMiddleware, str_truthy.
  rewrite bool_decide_eq_false_2 by done.
  rewrite (proj2 (split_bearer _ tok) (conj eq_refl Hno)).
  by rewrite bool_decide_eq_true_2.
Qed.

(** X13. A pair issued by [createTokenResponse] opens the middleware: as
    long as the access token has no space, the request that carries it as a
    Bearer token passes, within the token's lifetime, with the client that
    authenticated attached, and that client is active. *)
Theorem issued_token_passes_middleware client_id clientSecret d db resp db' :
  wf_db db -> jwt_sound jwt_sign jwt_verify ->
  createTokenResponse jwtSecret jwt_sign verifySecret client_id clientSecret d db
    = (Ok (Some resp), db') ->
  no_space (access_token resp) ->
  forall clock now,
    clock / 1000 < d_clock_sign d / 1000 + 3600 ->
    now <= d_clock_exp d + 3600 * 1000 ->
    exists c,
      AuthMiddleware.createAuthMiddleware jwtSecret jwt_verify
        (Some ("Bearer " ++ access_token resp)%string) clock now db'
        = AuthMiddleware.Next c /\
      c ∈ clients db /\ cl_client_id c = client_id /\ cl_is_active c = 1.
Proof.
  intros Hwf Hjwt H Hno clock now Hclock Hnow.
  rewrite (createAuthMiddleware_bearer _ clock now db' Hno).
  apply createTokenResponse_Some in H as (c & id & Hsel & _ & Hins & ->).
  pose proof (wf_insert_session _ _ _ _ _ _ _ _ _ Hwf Hins) as Hwf'.
  apply insert_session_Ok in Hins as (_ & _ & _ & ->).
  apply find_Some_elem in Hsel as [Hin Hp].
  apply andb_true_iff in Hp as [Hid Hact]. apply bool_decide_eq_true in Hid, Hact.
  exists c. split; [|done].
  match type of Hwf' with context [sessions db ++ [?r]] =>
    rewrite (proj2 (validateAccessToken_iff jwtSecret jwt_verify _ clock now _ r Hwf'))
  end.
  - unfold Sql.select_client. simpl.
    rewrite (find_unique cl_id _ _ c); [done|apply Hwf|done| |].
    + by apply bool_decide_eq_true_2.
    + intros y _ Hy. apply bool_decide_eq_true in Hy. congruence.
  - simpl. repeat split.
    + by apply Hjwt.
    + apply elem_of_app. right. apply list_elem_of_singleton. reflexivity.
    + unfold getExpirationDate. lia.
Qed.

(** X14. POST /auth/revoke locks the token out: for a request that the
    middleware lets through, once its token has been presented to the revoke
    endpoint the middleware answers the same request 401, invalid or expired
    access token, at every instant. *)
Theorem revoke_locks_out tok clock now db c :
  wf_db db -> tok <> EmptyString ->
  AuthMiddleware.createAuthMiddleware jwtSecret jwt_verify
    (Some ("Bearer " ++ tok)%string) clock now db = AuthMiddleware.Next c ->
  let db' := snd (AuthController.revoke jwtSecret jwt_verify (Some tok) clock now db) in
  forall clock' now',
    AuthMiddleware.createAuthMiddleware jwtSecret jwt_verify
      (Some ("Bearer " ++ tok)%string) clock' now' db'
    = AuthMiddleware.Unauthorized "Invalid or expired access token".
Proof.
  intros Hwf Hne H db' clock' now'. subst db'.
  assert (Hno : no_space tok).
  { unfold AuthMiddleware.createAuthMiddleware, str_truthy in H.
    rewrite bool_decide_eq_false_2 in H by done. cbn [negb] in H.
    destruct (AuthMiddleware.split " " ("Bearer " ++ tok))
      as [|scheme [|t [|x rest]]] eqn:Hsplit; try discriminate.
    destruct (bool_decide_reflect (scheme = "Bearer")) as [->|]; [|discriminate].
    apply split_bearer in Hsplit as [Htok Hno].
    by apply string_app_inv_head in Htok as <-. }
  rewrite createAuthMiddleware_bearer in H by done.
  rewrite createAuthMiddleware_bearer by done.
  destruct (validateAccessToken jwtSecret jwt_verify tok clock now db) as [s|] eqn:Hv;
    [|discriminate].
  unfold AuthController.revoke, str_truthy.
  rewrite (bool_decide_eq_false_2 _ Hne). cbn [negb]. rewrite Hv.
  by rewrite (validateAccessToken_revoked jwtSecret jwt_verify _ _ _ _ _ Hwf Hv).
Qed.

End AccessControl.

Lemma token_endpoint_witness :
  AuthController.status
    (fst (AuthController.token "k." demo_sign demo_verifySecret
            {| AuthController.rq_client_id := Some "acme";
               AuthController.rq_client_secret := Some "s3cr3t";
               AuthController.rq_grant_type := Some "client_credentials" |}
            demo_draw demo_db)) = 200 /\
  AuthController.status
    (fst (AuthController.token "k." demo_sign demo_verifySecret
            {| AuthController.rq_client_id := Some "acme";
               AuthController.rq_client_secret := Some "s3cr3t";
               AuthController.rq_grant_type := Some "password" |}
            demo_draw demo_db)) = 400.
Proof.
  split; [reflexivity|].
  apply (proj1 (proj2 (proj2 (token_endpoint "k." demo_sign demo_verifySecret
                  {| AuthController.rq_client_id := Some "acme";
                     AuthController.rq_client_secret := Some "s3cr3t";
                     AuthController.rq_grant_type := Some "password" |}
                  demo_draw demo_db _ _ eq_refl)))).
  intros (cid & sec & _ & _ & _ & _ & Hg). discriminate.
Defined.

Lemma issued_token_passes_middleware_witness :
  exists c,
    AuthMiddleware.createAuthMiddleware "k." demo_verify (Some "Bearer k.a2") 0 0
      (snd (createTokenResponse "k." demo_sign demo_verifySecret
              "acme" "s3cr3t" demo_draw demo_db))
    = AuthMiddleware.Next c /\
    c ∈ clients demo_db /\ cl_client_id c = "acme" /\ cl_is_active c = 1.
Proof.
  apply (issued_token_passes_middleware "k." demo_sign demo_verify demo_verifySecret
           "acme" "s3cr3t" demo_draw demo_db _ _ wf_demo_db demo_jwt_sound eq_refl).
  - intros H. apply list_elem_of_In in H. vm_compute in H. intuition discriminate.
  - by vm_compute.
  - by vm_compute.
Defined.

Lemma revoke_locks_out_witness :
  AuthMiddleware.createAuthMiddleware "k." demo_verify (Some "Bearer k.a1") 0 0 demo_db
    = AuthMiddleware.Next demo_client /\
  AuthMiddleware.createAuthMiddleware "k." demo_verify (Some "Bearer k.a1") 0 0
    (snd (AuthController.revoke "k." demo_verify (Some "k.a1") 0 0 demo_db))
    = AuthMiddleware.Unauthorized "Invalid or expired access token".
Proof.
  split; [reflexivity|].
  exact (revoke_locks_out "k." demo_verify "k.a1" 0 0 demo_db demo_client
           wf_demo_db ltac:(discriminate) eq_refl 0 0).
Defined.

(** ** The rate limiter *)

Section RateLimiterProperties.

Import RateLimiter.

Lemma rateLimiter_counted ip t st n t0 :
  requestCounts st !! ip = Some n -> n <> 0 ->
  requestTimestamps st !! ip = Some t0 -> t - t0 <= TIME_WINDOW ->
  fst (rateLimiter ip t st)
    = (if n + 1 <=? RATE_LIMIT then Next else TooManyRequests) /\
  requestCounts (snd (rateLimiter ip t st)) !! ip = Some (n + 1) /\
  requestTimestamps (snd (rateLimiter ip t st)) !! ip = Some t0.
Proof.
  intros Hn Hn0 Ht Hw. unfold rateLimiter. rewrite Hn.
  rewrite (proj2 (Z.eqb_neq n 0) Hn0). rewrite Ht.
  rewrite (proj2 (Z.ltb_ge _ _) Hw). simpl.
  rewrite lookup_insert_eq, Hn. simpl.
  destruct (Z.ltb_spec RATE_LIMIT (n + 1));
    destruct (Z.leb_spec (n + 1) RATE_LIMIT); try lia; simpl;
    by rewrite lookup_insert_eq.
Qed.

Lemma rateLimiter_first ip t st :
  (requestCounts st !! ip = None \/ requestCounts st !! ip = Some 0) ->
  fst (rateLimiter ip t st) = Next /\
  requestCounts (snd (rateLimiter ip t st)) !! ip = Some 1 /\
  requestTimestamps (snd (rateLimiter ip t st)) !! ip = Some t.
Proof.
  intros Hn. unfold rateLimiter.
  assert (Hst1 : match requestCounts st !! ip with
                 | Some n =>
                     if n =? 0
                     then {| requestCounts := <[ip := 0]> (requestCounts st);
                             requestTimestamps := <[ip := t]> (requestTimestamps st) |}
                     else st
                 | None =>
                     {| requestCounts := <[ip := 0]> (requestCounts st);
                        requestTimestamps := <[ip := t]> (requestTimestamps st) |}
                 end
                 = {| requestCounts := <[ip := 0]> (requestCounts st);
                      requestTimestamps := <[ip := t]> (requestTimestamps st) |}).
  { by destruct Hn as [-> | ->]. }
  rewrite Hst1. simpl. rewrite !lookup_insert_eq.
  replace (TIME_WINDOW <? t - t) with false
    by (symmetry; apply Z.ltb_ge; unfold TIME_WINDOW; lia).
  cbn [requestCounts requestTimestamps default]. rewrite !lookup_insert_eq.
  cbn [default]. unfold id. change (RATE_LIMIT <? 0 + 1) with false.
  cbn [fst snd requestCounts requestTimestamps]. by rewrite !lookup_insert_eq.
Qed.

Lemma requests_counted ip times : forall st n t0,
  requestCounts st !! ip = Some n -> 0 < n ->
  requestTimestamps st !! ip = Some t0 ->
  Forall (fun t => t - t0 <= TIME_WINDOW) times ->
  fst (requests ip times st)
  = List.map (fun k => if n + Z.of_nat k <=? RATE_LIMIT then Next else TooManyRequests)
      (seq 1 (length times)).
Proof.
  induction times as [|t times IH]; intros st n t0 Hn Hpos Ht Hall; [done|].
  apply Forall_cons in Hall as [Hw Hall].
  destruct (rateLimiter_counted ip t st n t0 Hn ltac:(lia) Ht Hw) as (Hr & Hn' & Ht').
  cbn [requests]. destruct (rateLimiter ip t st) as [r st'] eqn:Hstep.
  simpl in Hr, Hn', Ht'.
  specialize (IH st' (n + 1) t0 Hn' ltac:(lia) Ht' Hall).
  destruct (requests ip times st') as [rs st''] eqn:Hrest. simpl in IH. subst r rs.
  cbn [fst length seq List.map]. f_equal.
  rewrite <- (seq_shift (length times) 1), List.map_map.
  apply List.map_ext. intros k.
  by replace (n + 1 + Z.of_nat k) with (n + Z.of_nat (S k)) by lia.
Qed.

(** X15. Within one window the limiter counts: of the requests of a caller
    it has not seen, all made no later than 60 seconds after the first, the
    k-th passes exactly when k is at most 100, and the others are answered
    429 (the rejected requests are counted as well). *)
Theorem rateLimiter_window ip t0 times st :
  requestCounts st !! ip = None ->
  Forall (fun t => t - t0 <= TIME_WINDOW) times ->
  fst (requests ip (t0 :: times) st)
  = List.map (fun k => if Z.of_nat k <=? RATE_LIMIT then Next else TooManyRequests)
      (seq 1 (S (length times))).
Proof.
  intros Hnew Hall.
  destruct (rateLimiter_first ip t0 st (or_introl Hnew)) as (Hr & Hn & Ht).
  cbn [requests]. destruct (rateLimiter ip t0 st) as [r st'] eqn:Hstep.
  simpl in Hr, Hn, Ht.
  pose proof (requests_counted ip times st' 1 t0 Hn ltac:(lia) Ht Hall) as Hrest.
  destruct (requests ip times st') as [rs st''] eqn:Hreq. simpl in Hrest. subst r rs.
  cbn [fst seq List.map]. f_equal.
  rewrite <- (seq_shift (length times) 1), List.map_map.
  apply List.map_ext. intros k.
  by replace (1 + Z.of_nat k) with (Z.of_nat (S k)) by lia.
Qed.

(** X16. A request changes the entries of its own caller only; a request
    made more than 60 seconds after the caller's time stamp passes, whatever
    the count was, and starts a new window with count 1; and a request is
    answered 429 only when the caller's count had already reached 100 and the
    window had not run out. *)
Theorem rateLimiter_reset ip t st :
  let r := fst (rateLimiter ip t st) in
  let st' := snd (rateLimiter ip t st) in
  (forall other, other <> ip ->
     requestCounts st' !! other = requestCounts st !! other /\
     requestTimestamps st' !! other = requestTimestamps st !! other) /\
  (forall t0, requestTimestamps st !! ip = Some t0 -> TIME_WINDOW < t - t0 ->
     r = Next /\ requestCounts st' !! ip = Some 1 /\
     requestTimestamps st' !! ip = Some t) /\
  (r = TooManyRequests ->
   exists n, requestCounts st !! ip = Some n /\ RATE_LIMIT <= n /\
     forall t0, requestTimestamps st !! ip = Some t0 -> t - t0 <= TIME_WINDOW).
Proof.
  cbv zeta.
  destruct (requestCounts st !! ip) as [n|] eqn:Hn.
  2:{ destruct (rateLimiter_first ip t st (or_introl Hn)) as (Hr & Hn' & Ht').
      split; [|split; [auto|by rewrite Hr]].
      intros other Hne. unfold rateLimiter. rewrite Hn. simpl.
      rewrite !lookup_insert_eq.
      replace (TIME_WINDOW <? t - t) with false
        by (symmetry; apply Z.ltb_ge; unfold TIME_WINDOW; lia).
      simpl. rewrite !lookup_insert_eq. simpl.
      by rewrite !lookup_insert_ne by done. }
  destruct (decide (n = 0)) as [->|Hn0].
  { destruct (rateLimiter_first ip t st (or_intror Hn)) as (Hr & Hn' & Ht').
    split; [|split; [auto|by rewrite Hr]].
    intros other Hne. unfold rateLimiter. rewrite Hn. simpl.
    rewrite !lookup_insert_eq.
    replace (TIME_WINDOW <? t - t) with false
      by (symmetry; apply Z.ltb_ge; unfold TIME_WINDOW; lia).
    simpl. rewrite !lookup_insert_eq. simpl.
    by rewrite !lookup_insert_ne by done. }
  unfold rateLimiter. rewrite Hn, (proj2 (Z.eqb_neq n 0) Hn0).
  destruct (requestTimestamps st !! ip) as [t0|] eqn:Ht.
  - destruct (Z.ltb_spec TIME_WINDOW (t - t0)) as [Hover|Hin]; simpl.
    + rewrite !lookup_insert_eq. simpl. split; [|split].
      * intros other Hne. by rewrite !lookup_insert_ne by done.
      * intros ? [= <-] _. by rewrite !lookup_insert_eq.
      * discriminate.
    + rewrite !lookup_insert_eq, Hn. simpl.
      destruct (Z.ltb_spec RATE_LIMIT (n + 1)) as [Hlim|Hlim]; simpl.
      * split; [|split].
        { intros other Hne. by rewrite !lookup_insert_ne by done. }
        { intros ? [= <-] ?. lia. }
        intros _. exists n. split; [done|]. split; [lia|]. by intros ? [= <-].
      * split; [|split].
        { intros other Hne. by rewrite !lookup_insert_ne by done. }
        { intros ? [= <-] ?. lia. }
        discriminate.
  - simpl. rewrite !lookup_insert_eq, Hn. simpl.
    destruct (Z.ltb_spec RATE_LIMIT (n + 1)) as [Hlim|Hlim]; simpl.
    + split; [|split].
      { intros other Hne. by rewrite !lookup_insert_ne by done. }
      { discriminate. }
      intros _. exists n. split; [done|]. split; [lia|]. discriminate.
    + split; [|split].
      { intros other Hne. by rewrite !lookup_insert_ne by done. }
      { discriminate. }
      discriminate.
Qed.

End RateLimiterProperties.

(** ** Webhooks, continued *)

(** The controller's check answers true exactly for the hex digest of the
    payload; an undefined payload, or a signature of another length, is
    answered by false. *)
Lemma validateSignature_true payload signature k :
  WebhookController.validateSignature payload signature k = true <->
  exists p, payload = Some p /\ signature = Hmac.hmac_sha256_hex k p.
Proof.
  unfold WebhookController.validateSignature, timingSafeEqual. split.
  - destruct payload as [p|]; [|discriminate].
    destruct (bool_decide _); simpl; [|discriminate].
    intros H. apply bool_decide_eq_true in H. apply bytes_of_string_inj in H. eauto.
  - intros (p & -> & ->). by rewrite !bool_decide_eq_true_2.
Qed.

(** X17. The manager's [validateWebhookSignature], for an integration with
    a webhook secret, on any signature: true exactly for the hex digest of
    the payload, false exactly for another string of 64 bytes, and an
    exception exactly for a signature of another length, which the
    controller's own check answers by false. *)
Theorem validateWebhookSignature_cases integrations nm cfg w k payload signature :
  integrations !! nm = Some cfg -> webhooks cfg = Some w ->
  secret w = Some k -> k <> EmptyString ->
  let result := IntegrationManager.validateWebhookSignature integrations nm payload signature in
  (result = Ok true <-> signature = Hmac.hmac_sha256_hex k payload) /\
  (result = Ok false <->
   String.length signature = 64%nat /\ signature <> Hmac.hmac_sha256_hex k payload) /\
  (result = Throw "Input buffers must have the same byte length" <->
   String.length signature <> 64%nat) /\
  (String.length signature <> 64%nat ->
   WebhookController.validateSignature (Some payload) signature k = false).
Proof.
  intros Hcfg Hw Hk Hne result. subst result.
  unfold IntegrationManager.validateWebhookSignature, IntegrationManager.getIntegration,
    WebhookController.validateSignature.
  rewrite Hcfg, Hw, Hk. simpl. rewrite (bool_decide_eq_false_2 _ Hne). simpl.
  unfold timingSafeEqual. rewrite !bytes_of_string_length, hmac_sha256_hex_length.
  destruct (bool_decide_reflect (String.length signature = 64%nat)) as [Hlen|Hlen]; simpl.
  - destruct (bool_decide_reflect
                (Encoding.bytes_of_string signature
                 = Encoding.bytes_of_string (Hmac.hmac_sha256_hex k payload))) as [He|He].
    + apply bytes_of_string_inj in He. split_and!; naive_solver.
    + assert (signature <> Hmac.hmac_sha256_hex k payload) by (intros ->; by apply He).
      split_and!; naive_solver.
  - assert (signature <> Hmac.hmac_sha256_hex k payload).
    { intros ->. by rewrite hmac_sha256_hex_length in Hlen. }
    split_and!; naive_solver.
Qed.

(** X18. On the generic route, for a body whose numbers are safe integers
    and whose objects have distinct keys, none a numeral (the values on
    which the serialization here is the one of the code), when a secret is
    configured and the request carries a signature, the webhook is processed
    and answered 200 exactly when the signature is the hex digest of the
    serialized body under the secret; any other signature is answered 401
    invalid_signature and the webhook is not processed. *)
Theorem receive_signed integrations req clock cfg w k signature ev :
  plain_json (WebhookController.req_body req) = true ->
  integrations !! WebhookController.param_integration req = Some cfg ->
  enabled cfg = true ->
  webhooks cfg = Some w -> wh_enabled w = true ->
  secret w = Some k -> k <> EmptyString ->
  WebhookController.x_webhook_signature req = Some signature ->
  signature <> EmptyString ->
  Js.get_prop (WebhookController.req_body req) "event" = Ok ev ->
  exists r effs,
    WebhookController.receive integrations req clock = Ok (r, effs) /\
    WebhookController.SignatureChecked
      (Js.stringify (WebhookController.req_body req)) signature k ∈ effs /\
    ((exists p, Js.stringify (WebhookController.req_body req) = Some p /\
                signature = Hmac.hmac_sha256_hex k p) ->
     WebhookController.status r = 200 /\
     WebhookController.ProcessedWebhook (WebhookController.param_integration req)
       (Js.or_else ev (Js.Str "unknown")) ∈ effs) /\
    (~ (exists p, Js.stringify (WebhookController.req_body req) = Some p /\
                  signature = Hmac.hmac_sha256_hex k p) ->
     r = WebhookController.invalid_signature /\
     forall i e, WebhookController.ProcessedWebhook i e ∉ effs).
Proof.
  intros _ Hcfg Hen Hw Hwen Hk Hne Hsig Hsne Hev.
  unfold WebhookController.receive, IntegrationManager.isEnabled,
    IntegrationManager.getIntegration.
  rewrite Hev, Hcfg, Hen. simpl.
  destruct cfg as [? ? ? ? ? ? ? wh]. simpl in Hw. subst wh.
  rewrite Hwen, Hk, Hsig. simpl.
  rewrite (bool_decide_eq_false_2 _ Hne), (bool_decide_eq_false_2 _ Hsne). simpl.
  destruct (WebhookController.validateSignature _ signature k) eqn:Hv; simpl.
  - apply validateSignature_true in Hv.
    eexists _, _. split; [reflexivity|]. split; [apply list_elem_of_here|].
    split; [|done]. intros _. split; [done|].
    do 2 apply list_elem_of_further. apply list_elem_of_here.
  - eexists _, _. split; [reflexivity|]. split; [apply list_elem_of_here|].
    split.
    + intros Hgood. apply validateSignature_true in Hgood. congruence.
    + intros _. split; [done|]. intros i e Hin.
      repeat (apply elem_of_cons in Hin as [Hin|Hin]; [discriminate|]).
      by apply elem_of_nil in Hin.
Qed.

(** X19. The event route answers 404 exactly for an unknown or disabled
    integration, 400 exactly for an enabled integration whose webhooks list
    events without the event of the path; neither of these, nor a 401,
    processes the webhook, and a 200 does. *)
Theorem receiveEvent_spec integrations req clock :
  let nm := WebhookController.param_integration req in
  let r := fst (WebhookController.receiveEvent integrations req clock) in
  let effs := snd (WebhookController.receiveEvent integrations req clock) in
  (WebhookController.status r = 404 <->
   IntegrationManager.isEnabled integrations nm = false) /\
  (WebhookController.status r = 400 <->
   IntegrationManager.isEnabled integrations nm = true /\
   exists cfg w evs, integrations !! nm = Some cfg /\ webhooks cfg = Some w /\
     events w = Some evs /\ WebhookController.param_event req ∉ evs) /\
  (WebhookController.status r = 404 \/ WebhookController.status r = 400 -> effs = []) /\
  (WebhookController.status r = 200 <->
   WebhookController.ProcessedWebhook nm (Js.Str (WebhookController.param_event req))
     ∈ effs) /\
  (WebhookController.status r = 200 \/ WebhookController.status r = 400 \/
   WebhookController.status r = 401 \/ WebhookController.status r = 404).
Proof.
  cbv zeta. unfold WebhookController.receiveEvent, IntegrationManager.isEnabled,
    IntegrationManager.getIntegration.
  assert (Hnil : forall e : WebhookController.Effect, e ∉ @nil WebhookController.Effect)
    by (intros e; apply not_elem_of_nil).
  assert (Hone : forall p s k i e,
            WebhookController.ProcessedWebhook i e ∉ [WebhookController.SignatureChecked p s k]).
  { intros p s k i e Hin. apply elem_of_cons in Hin as [Hin|Hin]; [discriminate|].
    by apply elem_of_nil in Hin. }
  assert (Hacc2 : forall i e,
            WebhookController.ProcessedWebhook i e
            ∈ [WebhookController.LoggedReceived i e; WebhookController.ProcessedWebhook i e]).
  { intros. apply list_elem_of_further, list_elem_of_here. }
  assert (Hacc3 : forall p s k i e,
            WebhookController.ProcessedWebhook i e
            ∈ [WebhookController.SignatureChecked p s k;
               WebhookController.LoggedReceived i e; WebhookController.ProcessedWebhook i e]).
  { intros. do 2 apply list_elem_of_further. apply list_elem_of_here. }
  destruct (integrations !! WebhookController.param_integration req) as [cfg|] eqn:Hcfg;
    simpl; [|split_and!; naive_solver].
  destruct (enabled cfg) eqn:Hen; simpl; [|split_and!; naive_solver].
  destruct cfg as [? ? ? ? ? ? ? [[we sec evs]|]]; simpl in *.
  2:{ destruct (WebhookController.x_webhook_signature req); simpl; split_and!; naive_solver. }
  destruct evs as [evs|]; simpl.
  - destruct (bool_decide_reflect (WebhookController.param_event req ∈ evs)) as [Hin|Hin];
      simpl; [|split_and!; naive_solver].
    destruct sec as [k|], (WebhookController.x_webhook_signature req) as [sg|]; simpl;
      try (split_and!; naive_solver).
    destruct (negb (bool_decide (k = EmptyString)) && negb (bool_decide (sg = EmptyString)));
      simpl; [|split_and!; naive_solver].
    destruct (WebhookController.validateSignature _ sg k); simpl; split_and!; naive_solver.
  - destruct sec as [k|], (WebhookController.x_webhook_signature req) as [sg|]; simpl;
      try (split_and!; naive_solver).
    destruct (negb (bool_decide (k = EmptyString)) && negb (bool_decide (sg = EmptyString)));
      simpl; [|split_and!; naive_solver].
    destruct (WebhookController.validateSignature _ sg k); simpl; split_and!; naive_solver.
Qed.

Lemma rateLimiter_window_witness :
  fst (RateLimiter.requests "10.0.0.1" (0 :: List.map Z.of_nat (seq 1 101))
         RateLimiter.initial)
  = replicate 100 RateLimiter.Next
    ++ [RateLimiter.TooManyRequests; RateLimiter.TooManyRequests].
Proof.
  rewrite (rateLimiter_window "10.0.0.1" 0 (List.map Z.of_nat (seq 1 101))
             RateLimiter.initial).
  - reflexivity.
  - reflexivity.
  - apply Forall_forall. intros t Ht.
    apply list_elem_of_In, List.in_map_iff in Ht as (k & <- & Hk).
    apply List.in_seq in Hk. unfold RateLimiter.TIME_WINDOW. lia.
Defined.

Lemma validateWebhookSignature_cases_witness :
  IntegrationManager.validateWebhookSignature (defaultIntegrations secret_env)
    "booking_engine" demo_payload "abc"
  = Throw "Input buffers must have the same byte length".
Proof.
  apply (proj1 (proj2 (proj2
           (validateWebhookSignature_cases (defaultIntegrations secret_env)
              "booking_engine" _ _ "my_super_secret_key" demo_payload "abc"
              eq_refl eq_refl eq_refl ltac:(done))))).
  simpl. lia.
Defined.

Lemma receive_signed_witness :
  exists r effs,
    WebhookController.receive (defaultIntegrations secret_env)
      {| WebhookController.param_integration := "booking_engine";
         WebhookController.param_event := EmptyString;
         WebhookController.x_webhook_signature := Some "abc";
         WebhookController.req_body := Js.Obj [("event", Js.Str "reservation.created")] |}
      1000 = Ok (r, effs) /\
    r = WebhookController.invalid_signature /\
    WebhookController.ProcessedWebhook "booking_engine" (Js.Str "reservation.created")
      ∉ effs.
Proof.
  destruct (receive_signed (defaultIntegrations secret_env)
              {| WebhookController.param_integration := "booking_engine";
                 WebhookController.param_event := EmptyString;
                 WebhookController.x_webhook_signature := Some "abc";
                 WebhookController.req_body :=
                   Js.Obj [("event", Js.Str "reservation.created")] |}
              1000 _ _ "my_super_secret_key" "abc" (Js.Str "reservation.created")
              eq_refl eq_refl eq_refl eq_refl eq_refl eq_refl ltac:(done) eq_refl
              ltac:(done) eq_refl) as (r & effs & Heq & _ & _ & Hbad).
  exists r, effs. split; [exact Heq|].
  destruct Hbad as [Hr Hno]; [|by split].
  intros (p & _ & Hs).
  apply (f_equal String.length) in Hs. rewrite hmac_sha256_hex_length in Hs.
  discriminate.
Defined.

(** ** Forwarding, continued *)

Section ForwardProperties.

Variable integrations : gmap string IntegrationConfig.
Variable transformers : gmap string Transformer.
Variable upstream : HttpCall -> Settled.

(** X20. [callEndpoint] of a client made by [createHttpClient]: an endpoint
    that the integration does not declare, its name not being one that every
    object inherits from Object.prototype, is refused without a request;
    otherwise, unless the whole URL is empty, exactly one request is handed
    to axios, by that client, with the declared method (GET when none is
    declared), with the data only for POST, PUT and PATCH, and with the
    endpoint's path, parameters substituted, as its URL: the base URL
    that [buildUrl] put in front is taken off again, whatever it is. *)
Theorem callEndpoint_spec nm i client endpointName data params :
  integrations !! nm = Some i ->
  HttpClient.createHttpClient integrations nm = Ok client ->
  let result :=
    HttpClient.callEndpoint integrations upstream client endpointName data params in
  (endpoints i !! endpointName = None -> own_name endpointName ->
   snd result = [] /\ exists msg, fst result = Rejected msg None) /\
  (forall e, endpoints i !! endpointName = Some e ->
     let p := List.fold_left
                (fun acc kv =>
                   Encoding.replace_first ("{" ++ fst kv ++ "}")
                     (Encoding.encodeURIComponent (snd kv)) acc)
                params (path e) in
     ((baseUrl i ++ p)%string = EmptyString ->
      snd result = [] /\ exists msg, fst result = Rejected msg None) /\
     ((baseUrl i ++ p)%string <> EmptyString ->
      exists call,
        result = (upstream call, [call]) /\
        call_client call = client /\
        call_url call = p /\
        call_method call = default GET (method e) /\
        call_data call = match call_method call with
                         | POST | PUT | PATCH => Some data
                         | GET | DELETE => None
                         end)).
Proof.
  intros Hi Hc result. subst result.
  unfold HttpClient.createHttpClient, IntegrationManager.getIntegration in Hc.
  rewrite Hi in Hc. injection Hc as <-.
  unfold HttpClient.callEndpoint, IntegrationManager.getEndpoint,
    IntegrationManager.getIntegration. cbn [integrationName integration].
  rewrite Hi. split.
  - intros -> _. split; [done|]. eauto.
  - intros e He. cbv zeta.
    rewrite He, (buildUrl_Some integrations nm i endpointName e params Hi He).
    unfold str_truthy. split.
    + intros Hempty. rewrite (bool_decide_eq_true_2 _ Hempty). simpl.
      split; [done|]. eauto.
    + intros Hne. rewrite (bool_decide_eq_false_2 _ Hne). simpl.
      eexists. split; [reflexivity|]. simpl.
      split; [done|]. split; [apply replace_first_prefix|].
      split; [by destruct (method e)|].
      by destruct (method e) as [[]|].
Qed.

(** X21. What [forward] can do, for an endpoint name that is not one that
    every object inherits from Object.prototype: answer 404 without any
    effect, for an unknown or disabled integration or an endpoint it does
    not declare; or
    400 transformation_error without any effect; or create one client (this
    cannot fail once the integration is known to be enabled) and hand at
    most one request to it, the answer then being the upstream's status and
    data when the request resolved, and the proxy_error answer when it was
    rejected. *)
Theorem forward_outcomes req :
  own_name (ProxyController.param_endpoint req) ->
  let nm := ProxyController.param_integration req in
  let r := fst (ProxyController.forward integrations transformers upstream req) in
  let effs := snd (ProxyController.forward integrations transformers upstream req) in
  (ProxyController.status r = 404 /\ effs = [] /\
   (IntegrationManager.isEnabled integrations nm = false \/
    IntegrationManager.getEndpoint integrations nm (ProxyController.param_endpoint req)
      = None)) \/
  ((exists msg, r = ProxyController.transformation_error msg) /\ effs = [] /\
   Js.truthy (ProxyController.req_body req) = true) \/
  (exists client,
     HttpClient.createHttpClient integrations nm = Ok client /\
     ((effs = [Created client] /\ exists msg, r = ProxyController.proxy_error msg None) \/
      exists call,
        effs = [Created client; Sent call] /\ call_client call = client /\
        r = match upstream call with
            | Resolved st d =>
                {| ProxyController.status := st; ProxyController.body := ProxyController.Relay d |}
            | Rejected msg resp => ProxyController.proxy_error msg resp
            end)).
Proof.
  intros _. cbv zeta. unfold ProxyController.forward.
  destruct (IntegrationManager.isEnabled integrations _) eqn:Hen; simpl; [|left; auto].
  destruct (IntegrationManager.getEndpoint integrations _ _) as [e|] eqn:Hep; [|left; auto].
  destruct (str_truthy (transformer e) && Js.truthy (ProxyController.req_body req)) eqn:Ht.
  - apply andb_true_iff in Ht as [_ Hbody].
    destruct (TransformerRegistry.transform _ _ _) as [data|msg]; [|right; left; eauto].
    right. right.
    unfold IntegrationManager.isEnabled in Hen.
    unfold HttpClient.createHttpClient.
    destruct (IntegrationManager.getIntegration integrations _) as [i|] eqn:Hi; [|done].
    eexists. split; [reflexivity|].
    unfold HttpClient.callEndpoint. cbn [integrationName integration]. rewrite Hep.
    destruct (IntegrationManager.buildUrl _ _ _ _) as [url|]; [|left; simpl; eauto].
    destruct (negb (str_truthy (Some url))); [left; simpl; eauto|].
    right. eexists. simpl. split; [by destruct (upstream _)|].
    split; [done|]. by destruct (upstream _).
  - right. right.
    unfold IntegrationManager.isEnabled in Hen.
    unfold HttpClient.createHttpClient.
    destruct (IntegrationManager.getIntegration integrations _) as [i|] eqn:Hi; [|done].
    eexists. split; [reflexivity|].
    unfold HttpClient.callEndpoint. cbn [integrationName integration]. rewrite Hep.
    destruct (IntegrationManager.buildUrl _ _ _ _) as [url|]; [|left; simpl; eauto].
    destruct (negb (str_truthy (Some url))); [left; simpl; eauto|].
    right. eexists. simpl. split; [by destruct (upstream _)|].
    split; [done|]. by destruct (upstream _).
Qed.

(** X22. When the endpoint declares a registered transformer and the body
    is truthy, validates and transforms, the request that goes upstream
    carries the transformer's output, not the body that came in, and the
    answer relays what the upstream said. *)
Theorem forward_sends_transformed req i e tname t out :
  integrations !! ProxyController.param_integration req = Some i ->
  enabled i = true ->
  endpoints i !! ProxyController.param_endpoint req = Some e ->
  transformer e = Some tname -> tname <> EmptyString ->
  Js.truthy (ProxyController.req_body req) = true ->
  transformers !! tname = Some t ->
  tr_validate t (ProxyController.req_body req) = Ok true ->
  tr_transform t (ProxyController.req_body req) = Ok out ->
  baseUrl i <> EmptyString ->
  exists client call,
    ProxyController.forward integrations transformers upstream req
    = (match upstream call with
       | Resolved st d =>
           {| ProxyController.status := st; ProxyController.body := ProxyController.Relay d |}
       | Rejected msg resp => ProxyController.proxy_error msg resp
       end, [Created client; Sent call]) /\
    HttpClient.createHttpClient integrations (ProxyController.param_integration req)
      = Ok client /\
    call_client call = client /\
    call_method call = default GET (method e) /\
    call_data call = match call_method call with
                     | POST | PUT | PATCH => Some out
                     | GET | DELETE => None
                     end.
Proof.
  intros Hi Hen He Ht Hne Hbody Hreg Hval Htr Hbase.
  assert (Hen' : IntegrationManager.isEnabled integrations
                   (ProxyController.param_integration req) = true).
  { unfold IntegrationManager.isEnabled, IntegrationManager.getIntegration.
    by rewrite Hi. }
  assert (Hep : IntegrationManager.getEndpoint integrations
                  (ProxyController.param_integration req)
                  (ProxyController.param_endpoint req) = Some e).
  { unfold IntegrationManager.getEndpoint, IntegrationManager.getIntegration.
    by rewrite Hi. }
  rewrite (forward_resolved integrations transformers upstream _ _ Hen' Hep).
  rewrite Ht, Hbody. unfold str_truthy.
  rewrite (bool_decide_eq_false_2 _ Hne). simpl.
  unfold TransformerRegistry.transform, TransformerRegistry.get. rewrite Hreg.
  rewrite (execute_truthy _ _ Hbody), Hval, Htr.
  unfold HttpClient.createHttpClient, IntegrationManager.getIntegration. rewrite Hi.
  unfold HttpClient.callEndpoint. cbn [integrationName integration].
  rewrite Hep, (buildUrl_Some integrations _ i _ e _ Hi He). unfold str_truthy.
  rewrite bool_decide_eq_false_2 by (by destruct (baseUrl i)).
  cbn [negb]. unfold ProxyController.respond.
  match goal with |- context [upstream ?c] => exists (call_client c), c end.
  split; [by destruct (upstream _)|]. simpl.
  split; [done|]. split; [done|]. split; [by destruct (method e)|].
  by destruct (method e) as [[]|].
Qed.

End ForwardProperties.

Lemma callEndpoint_spec_witness :
  exists client call,
    HttpClient.createHttpClient (defaultIntegrations no_env) "booking_engine" = Ok client /\
    HttpClient.callEndpoint (defaultIntegrations no_env) upstream_ok client
      "getReservation" Js.Undefined [("id", "A 1/2")]
    = (Resolved 200 (Js.Obj []), [call]) /\
    call_url call = "/v1/reservations/A%201%2F2" /\
    call_method call = GET /\ call_data call = None.
Proof.
  destruct (proj2 (callEndpoint_spec (defaultIntegrations no_env) upstream_ok
                     "booking_engine" _ _ "getReservation" Js.Undefined
                     [("id", "A 1/2")] eq_refl eq_refl)
              {| path := "/v1/reservations/{id}"; method := Some GET; transformer := None |}
              eq_refl) as [_ H].
  destruct H as (call & Hcall & Hclient & Hurl & Hm & Hd); [by vm_compute|].
  eexists _, call. split; [reflexivity|]. split; [exact Hcall|].
  split; [rewrite Hurl; by vm_compute|]. split; [exact Hm|].
  rewrite Hd, Hm. reflexivity.
Defined.

Lemma forward_sends_transformed_witness :
  exists client call out,
    BookingReservationTransformer.transform demo_Date_of demo_toISOString
      demo_valid_reservation = Ok out /\
    ProxyController.forward (defaultIntegrations no_env)
      (BookingReservationTransformer.initializeTransformers demo_Date_of demo_toISOString)
      upstream_ok
      {| ProxyController.param_integration := "booking_engine";
         ProxyController.param_endpoint := "createReservation";
         ProxyController.req_body := demo_valid_reservation;
         ProxyController.req_query := [] |}
    = ({| ProxyController.status := 200;
          ProxyController.body := ProxyController.Relay (Js.Obj []) |},
       [Created client; Sent call]) /\
    call_data call = Some out.
Proof.
  destruct (forward_sends_transformed (defaultIntegrations no_env)
              (BookingReservationTransformer.initializeTransformers
                 demo_Date_of demo_toISOString)
              upstream_ok
              {| ProxyController.param_integration := "booking_engine";
                 ProxyController.param_endpoint := "createReservation";
                 ProxyController.req_body := demo_valid_reservation;
                 ProxyController.req_query := [] |}
              _ _ "BookingReservationTransformer"
              (BookingReservationTransformer.instance demo_Date_of demo_toISOString) _
              eq_refl eq_refl eq_refl eq_refl ltac:(done) eq_refl eq_refl eq_refl eq_refl
              ltac:(done))
    as (client & call & Hfw & _ & _ & Hm & Hd).
  exists client, call. eexists. split; [reflexivity|]. split; [exact Hfw|].
  by rewrite Hd, Hm.
Defined.

(** ** The reservation transformer *)

Lemma first_missing_None input fields :
  BookingReservationTransformer.first_missing input fields = None <->
  forall f, f ∈ fields -> Js.truthy (BookingReservationTransformer.field input f) = true.
Proof.
  induction fields as [|g fields IH]; simpl.
  - split; [|done]. intros _ f Hf. by apply elem_of_nil in Hf.
  - destruct (Js.truthy (BookingReservationTransformer.field input g)) eqn:Hg; simpl.
    + rewrite IH. split.
      * intros H f [->|Hf]%elem_of_cons; auto.
      * intros H f Hf. apply H. by apply list_elem_of_further.
    + split; [done|]. intros H. rewrite (H g) in Hg; [done|apply list_elem_of_here].
Qed.

Lemma bytes_of_string_of_bytes l :
  Forall (fun b => 0 <= b < 256) l ->
  Encoding.bytes_of_string (Encoding.string_of_bytes l) = l.
Proof.
  unfold Encoding.bytes_of_string, Encoding.string_of_bytes, Encoding.char_of_byte.
  rewrite String.list_ascii_of_string_of_list_ascii, List.map_map.
  induction 1 as [|b l Hb Hl IH]; simpl; [done|]. rewrite IH. f_equal.
  rewrite Ascii.N_ascii_embedding by lia. lia.
Qed.

Section ReservationProperties.

Variable Date_of : Js.Value -> option Z.
Variable Date_toISOString : Z -> string.

Lemma validate_true input :
  BookingReservationTransformer.validate Date_of input = Ok true ->
  Js.truthy input = true /\
  (forall f, f ∈ BookingReservationTransformer.required ->
     Js.truthy (BookingReservationTransformer.field input f) = true) /\
  BookingReservationTransformer.emailRegex_test
    (BookingReservationTransformer.to_string
       (BookingReservationTransformer.field input "guestEmail")) = true /\
  exists checkIn checkOut,
    Date_of (BookingReservationTransformer.field input "checkInDate") = Some checkIn /\
    Date_of (BookingReservationTransformer.field input "checkOutDate") = Some checkOut /\
    checkIn < checkOut.
Proof.
  clear Date_toISOString.
  unfold BookingReservationTransformer.validate, BaseTransformer.validate.
  destruct (match input with Js.Null | Js.Undefined => false | _ => true end) eqn:Hb;
    [|discriminate].
  destruct (BookingReservationTransformer.first_missing input _) as [f|] eqn:Hmiss;
    [discriminate|].
  pose proof (proj1 (first_missing_None _ _) Hmiss) as Hreq.
  destruct (BookingReservationTransformer.emailRegex_test _) eqn:Hemail; simpl;
    [|discriminate].
  unfold BookingReservationTransformer.parseDate.
  rewrite (Hreq "checkInDate"), (Hreq "checkOutDate")
    by (unfold BookingReservationTransformer.required; set_solver).
  simpl.
  destruct (Date_of (BookingReservationTransformer.field input "checkInDate")) as [ci|];
    [|discriminate].
  destruct (Date_of (BookingReservationTransformer.field input "checkOutDate")) as [co|];
    [|discriminate].
  destruct (Z.leb_spec co ci); [discriminate|]. intros _.
  split.
  { pose proof (Hreq "reservationId") as Hr.
    unfold BookingReservationTransformer.field, BookingReservationTransformer.required in Hr.
    destruct input; simpl in *; try done; by apply Hr; set_solver. }
  split; [done|]. split; [done|]. eauto.
Qed.

(** X23. On an input whose numbers are safe integers, whose objects have
    distinct keys, and whose guestEmail, as a string, is ASCII, [validate]
    of the reservation transformer returns false only for null and
    undefined; it returns true exactly when the eight required fields are
    truthy, the guest's e-mail matches the pattern, and both dates parse
    with the check-out strictly after the check-in; every other input makes
    it throw. *)
Theorem validate_spec input :
  plain_json input = true ->
  ascii_only (BookingReservationTransformer.to_string
                (BookingReservationTransformer.field input "guestEmail")) ->
  (BookingReservationTransformer.validate Date_of input = Ok false <->
   input = Js.Null \/ input = Js.Undefined) /\
  (BookingReservationTransformer.validate Date_of input = Ok true <->
   input <> Js.Null /\ input <> Js.Undefined /\
   (forall f, f ∈ BookingReservationTransformer.required ->
      Js.truthy (BookingReservationTransformer.field input f) = true) /\
   BookingReservationTransformer.emailRegex_test
     (BookingReservationTransformer.to_string
        (BookingReservationTransformer.field input "guestEmail")) = true /\
   exists checkIn checkOut,
     Date_of (BookingReservationTransformer.field input "checkInDate") = Some checkIn /\
     Date_of (BookingReservationTransformer.field input "checkOutDate") = Some checkOut /\
     checkIn < checkOut).
Proof.
  clear Date_toISOString. intros _ _. split.
  - unfold BookingReservationTransformer.validate, BaseTransformer.validate. split.
    + destruct input; try (by auto); simpl;
        repeat (case_match; try discriminate).
    + by intros [-> | ->].
  - split.
    + intros H. apply validate_true in H as (Ht & Hreq & Hmail & Hdates).
      split; [by intros ->|]. split; [by intros ->|]. auto.
    + intros (Hn & Hu & Hreq & Hmail & ci & co & Hci & Hco & Hlt).
      unfold BookingReservationTransformer.validate, BaseTransformer.validate.
      replace (match input with Js.Null | Js.Undefined => false | _ => true end)
        with true by (by destruct input).
      rewrite (proj2 (first_missing_None _ _) Hreq), Hmail. simpl.
      unfold BookingReservationTransformer.parseDate.
      rewrite (Hreq "checkInDate"), (Hreq "checkOutDate")
        by (unfold BookingReservationTransformer.required; set_solver).
      simpl. rewrite Hci, Hco.
      by destruct (Z.leb_spec co ci); [lia|].
Qed.

(** X24. [execute] of the reservation transformer: once [validate] has
    returned true the transformation can fail in one way only, on a truthy
    guestPhone that is not a string; otherwise the output carries the dates
    as ISO strings of the instants that were validated and the phone with
    everything but digits and plus signs removed. *)
Theorem execute_validated input :
  BookingReservationTransformer.validate Date_of input = Ok true ->
  let phone := BookingReservationTransformer.field input "guestPhone" in
  let run := BaseTransformer.execute
               (BookingReservationTransformer.instance Date_of Date_toISOString) input in
  ((exists out, run = Ok out) <->
   Js.truthy phone = false \/ exists s, phone = Js.Str s) /\
  (forall out, run = Ok out ->
     exists checkIn checkOut cleaned,
       Date_of (BookingReservationTransformer.field input "checkInDate") = Some checkIn /\
       Date_of (BookingReservationTransformer.field input "checkOutDate") = Some checkOut /\
       checkIn < checkOut /\
       BookingReservationTransformer.cleanPhone phone = Ok cleaned /\
       Js.get_prop out "stay"
       = Ok (Js.Obj [("check_in", Js.Str (Date_toISOString checkIn));
                     ("check_out", Js.Str (Date_toISOString checkOut));
                     ("room_type", BookingReservationTransformer.field input "roomType");
                     ("guests", BookingReservationTransformer.field input "numberOfGuests")]) /\
       Js.get_prop out "guest"
       = Ok (Js.Obj [("name", BookingReservationTransformer.field input "guestName");
                     ("email", BookingReservationTransformer.field input "guestEmail");
                     ("phone", Js.Str cleaned)])).
Proof.
  intros Hval phone run. subst run.
  pose proof (validate_true input Hval) as (Htruthy & Hreq & _ & ci & co & Hci & Hco & Hlt).
  rewrite (execute_truthy _ _ Htruthy). cbn [tr_validate tr_transform
    BookingReservationTransformer.instance]. rewrite Hval.
  unfold BookingReservationTransformer.transform, BookingReservationTransformer.formatDate.
  rewrite (Hreq "checkInDate"), (Hreq "checkOutDate")
    by (unfold BookingReservationTransformer.required; set_solver).
  rewrite Hci, Hco. cbn [negb]. fold phone.
  assert (Hget : exists v, Js.get_prop input "reservationId" = Ok v).
  { destruct input; simpl in *; try done; eauto. }
  destruct Hget as [rid ->].
  unfold BookingReservationTransformer.cleanPhone.
  destruct (Js.truthy phone) eqn:Hp; cbn [negb].
  - destruct phone as [| |b|n|s|l|fs] eqn:Hphone; try discriminate Hp.
    + split; [split; [by intros [? ?]|intros [?|[? ?]]; congruence]|discriminate].
    + split; [split; [by intros [? ?]|intros [?|[? ?]]; congruence]|discriminate].
    + split; [split; [intros _; right; eauto|intros _; eauto]|].
      intros out [= <-]. eexists ci, co, _.
      split_and!; first [exact Hlt|reflexivity].
    + split; [split; [by intros [? ?]|intros [?|[? ?]]; congruence]|discriminate].
    + split; [split; [by intros [? ?]|intros [?|[? ?]]; congruence]|discriminate].
  - split; [split; [auto|eauto]|].
    intros out [= <-]. eexists ci, co, _.
    split_and!; first [exact Hlt|reflexivity].
Qed.

(** X25. [reverseTransform] after [transform]: the nine fields that are
    copied come back as they were; the phone comes back cleaned and the two
    dates as ISO strings, so the round trip is the identity only on
    reservations that were already in that form. *)
Theorem reverseTransform_transform input out :
  BookingReservationTransformer.transform Date_of Date_toISOString input = Ok out ->
  exists back,
    BookingReservationTransformer.reverseTransform out = Ok back /\
    (forall k, k ∈ ["reservationId"; "guestName"; "guestEmail"; "roomType";
                    "numberOfGuests"; "totalAmount"; "currency"; "status";
                    "specialRequests"] ->
       BookingReservationTransformer.field back k
       = BookingReservationTransformer.field input k) /\
    (exists cleaned,
       BookingReservationTransformer.cleanPhone
         (BookingReservationTransformer.field input "guestPhone") = Ok cleaned /\
       BookingReservationTransformer.field back "guestPhone" = Js.Str cleaned) /\
    (exists check_in check_out,
       BookingReservationTransformer.formatDate Date_of Date_toISOString
         (BookingReservationTransformer.field input "checkInDate") = Ok check_in /\
       BookingReservationTransformer.formatDate Date_of Date_toISOString
         (BookingReservationTransformer.field input "checkOutDate") = Ok check_out /\
       BookingReservationTransformer.field back "checkInDate" = Js.Str check_in /\
       BookingReservationTransformer.field back "checkOutDate" = Js.Str check_out).
Proof.
  unfold BookingReservationTransformer.transform. intros H.
  destruct (Js.get_prop input "reservationId") as [rid|] eqn:Hrid; [|discriminate].
  destruct (BookingReservationTransformer.cleanPhone _) as [phone|]; [|discriminate].
  destruct (BookingReservationTransformer.formatDate _ _
              (BookingReservationTransformer.field input "checkInDate")) as [a|];
    [|discriminate].
  destruct (BookingReservationTransformer.formatDate _ _
              (BookingReservationTransformer.field input "checkOutDate")) as [b|];
    [|discriminate].
  injection H as <-. eexists. split; [reflexivity|]. split; [|split].
  - intros k Hk.
    apply elem_of_cons in Hk as [->|Hk].
    { unfold BookingReservationTransformer.field. by rewrite Hrid. }
    repeat (apply elem_of_cons in Hk as [->|Hk]; [reflexivity|]).
    by apply elem_of_nil in Hk.
  - by exists phone.
  - by exists a, b.
Qed.

End ReservationProperties.

Lemma string_of_bytes_of_string s :
  Encoding.string_of_bytes (Encoding.bytes_of_string s) = s.
Proof.
  unfold Encoding.bytes_of_string, Encoding.string_of_bytes, Encoding.char_of_byte.
  rewrite List.map_map. rewrite <- (String.string_of_list_ascii_of_string s) at 2.
  f_equal. induction (String.list_ascii_of_string s) as [|c l IH]; simpl; [done|].
  by rewrite N2Z.id, Ascii.ascii_N_embedding, IH.
Qed.

Lemma filter_all {A} (q : A -> bool) (l : list A) :
  Forall (fun x => q x = true) l -> List.filter q l = l.
Proof. induction 1 as [|x l Hx _ IH]; simpl; [done|]. by rewrite Hx, IH. Qed.

(** X26. [cleanPhone] of a string leaves digits and plus signs only, is
    idempotent, and changes nothing in a string that holds nothing else. *)
Theorem cleanPhone_spec s :
  let keep b := ((48 <=? b) && (b <=? 57)) || (b =? 43) in
  exists cleaned,
    BookingReservationTransformer.cleanPhone (Js.Str s) = Ok cleaned /\
    Forall (fun b => keep b = true) (Encoding.bytes_of_string cleaned) /\
    BookingReservationTransformer.cleanPhone (Js.Str cleaned) = Ok cleaned /\
    (Forall (fun b => keep b = true) (Encoding.bytes_of_string s) -> cleaned = s).
Proof.
  intros keep. unfold BookingReservationTransformer.cleanPhone. simpl.
  destruct (bool_decide_reflect (s = EmptyString)) as [->|Hs]; simpl.
  { exists EmptyString. by repeat split. }
  fold keep. set (l := List.filter keep (Encoding.bytes_of_string s)).
  assert (Hl : Forall (fun b => keep b = true) l).
  { apply Forall_forall. intros b Hb. by apply filter_elem in Hb as [_ Hb]. }
  assert (Hbytes : Encoding.bytes_of_string (Encoding.string_of_bytes l) = l).
  { apply bytes_of_string_of_bytes. eapply Forall_impl; [exact Hl|].
    intros b Hb. unfold keep in Hb. lia. }
  exists (Encoding.string_of_bytes l). split; [done|]. split; [by rewrite Hbytes|].
  split.
  - destruct (bool_decide_reflect (Encoding.string_of_bytes l = EmptyString)) as [->|_];
      simpl; [done|].
    fold keep. rewrite Hbytes. unfold l. by rewrite filter_filter_id.
  - intros Hall. unfold l. by rewrite (filter_all _ _ Hall), string_of_bytes_of_string.
Qed.

(** ** Redaction of headers for the log *)

Lemma redact_lookup sensitive : forall hdrs k,
  HttpClient.redact sensitive hdrs !! k
  = match hdrs !! k with
    | Some v => Some (if bool_decide (k ∈ sensitive) && Js.truthy v
                      then Js.Str "***REDACTED***" else v)
    | None => None
    end.
Proof.
  unfold HttpClient.redact.
  induction sensitive as [|h sensitive IH]; intros hdrs k; simpl.
  { by destruct (hdrs !! k). }
  rewrite IH. destruct (decide (k = h)) as [->|Hne].
  - destruct (hdrs !! h) as [v|] eqn:Hh; [|by rewrite Hh].
    destruct (Js.truthy v) eqn:Hv.
    + rewrite lookup_insert_eq. rewrite (bool_decide_eq_true_2 (h ∈ h :: sensitive))
        by apply list_elem_of_here.
      simpl. by destruct (bool_decide (h ∈ sensitive)).
    + rewrite Hh, Hv. by rewrite !andb_false_r.
  - assert (Hk : (match hdrs !! h with
                  | Some v => if Js.truthy v
                              then <[h := Js.Str "***REDACTED***"]> hdrs else hdrs
                  | None => hdrs
                  end) !! k = hdrs !! k).
    { destruct (hdrs !! h) as [v|]; [|done].
      destruct (Js.truthy v); [|done]. by rewrite lookup_insert_ne. }
    rewrite Hk. destruct (hdrs !! k) as [v|]; [|done].
    f_equal. rewrite (bool_decide_ext (k ∈ h :: sensitive) (k ∈ sensitive)); [done|].
    rewrite elem_of_cons. naive_solver.
Qed.

(** X27. Both [sanitizeHeaders] keep every header name, put the marker in
    place of the truthy values of the three lower-case names they list, and
    leave everything else as it is, a header named Authorization or
    X-API-Key with capitals included; sanitizing twice is sanitizing once.
    The client's version does not redact x-webhook-signature and the
    webhook controller's does not redact cookie. *)
Theorem sanitizeHeaders_spec hdrs :
  let redacted (names : list string) (out : gmap string Js.Value) :=
    forall k,
      out !! k = match hdrs !! k with
                 | Some v => Some (if bool_decide (k ∈ names) && Js.truthy v
                                   then Js.Str "***REDACTED***" else v)
                 | None => None
                 end in
  redacted ["authorization"; "x-api-key"; "cookie"] (HttpClient.sanitizeHeaders hdrs) /\
  redacted ["authorization"; "x-api-key"; "x-webhook-signature"]
    (webhook_sanitizeHeaders hdrs) /\
  HttpClient.sanitizeHeaders hdrs !! "Authorization" = hdrs !! "Authorization" /\
  HttpClient.sanitizeHeaders hdrs !! "X-API-Key" = hdrs !! "X-API-Key" /\
  HttpClient.sanitizeHeaders hdrs !! "x-webhook-signature" = hdrs !! "x-webhook-signature" /\
  webhook_sanitizeHeaders hdrs !! "cookie" = hdrs !! "cookie" /\
  HttpClient.sanitizeHeaders (HttpClient.sanitizeHeaders hdrs)
    = HttpClient.sanitizeHeaders hdrs /\
  webhook_sanitizeHeaders (webhook_sanitizeHeaders hdrs) = webhook_sanitizeHeaders hdrs.
Proof.
  intros redacted. unfold HttpClient.sanitizeHeaders, webhook_sanitizeHeaders.
  assert (Hkeep : forall names k, k ∉ names ->
            HttpClient.redact names hdrs !! k = hdrs !! k).
  { intros names k Hk. rewrite redact_lookup.
    destruct (hdrs !! k); [|done]. by rewrite bool_decide_eq_false_2. }
  assert (Hidem : forall names,
            HttpClient.redact names (HttpClient.redact names hdrs)
            = HttpClient.redact names hdrs).
  { intros names. apply map_eq. intros k. rewrite !redact_lookup.
    destruct (hdrs !! k) as [v|]; [|done]. f_equal.
    destruct (bool_decide (k ∈ names)); simpl; [|done].
    by destruct (Js.truthy v) eqn:Hv; simpl; [|rewrite Hv]. }
  split; [intros k; apply redact_lookup|].
  split; [intros k; apply redact_lookup|].
  split_and!; try apply Hidem; apply Hkeep; set_solver.
Qed.

Lemma execute_validated_witness :
  exists out,
    BaseTransformer.execute
      (BookingReservationTransformer.instance demo_Date_of demo_toISOString)
      demo_valid_reservation = Ok out /\
    Js.get_prop out "guest"
    = Ok (Js.Obj [("name", Js.Str "John Doe");
                  ("email", Js.Str "john@example.com");
                  ("phone", Js.Str "+5511999990000")]).
Proof.
  destruct (execute_validated demo_Date_of demo_toISOString demo_valid_reservation eq_refl)
    as [Hiff Hout].
  destruct (proj2 Hiff) as [out Hrun]; [right; eexists; reflexivity|].
  exists out. split; [exact Hrun|].
  destruct (Hout out Hrun) as (ci & co & cleaned & _ & _ & _ & Hph & _ & Hguest).
  vm_compute in Hph. injection Hph as <-. exact Hguest.
Defined.

Lemma reverseTransform_transform_witness :
  exists out back,
    BookingReservationTransformer.transform demo_Date_of demo_toISOString
      demo_valid_reservation = Ok out /\
    BookingReservationTransformer.reverseTransform out = Ok back /\
    BookingReservationTransformer.field back "guestName" = Js.Str "John Doe" /\
    BookingReservationTransformer.field back "guestPhone" = Js.Str "+5511999990000" /\
    BookingReservationTransformer.field demo_valid_reservation "guestPhone"
      = Js.Str "+55 (11) 99999-0000".
Proof.
  destruct (reverseTransform_transform demo_Date_of demo_toISOString
              demo_valid_reservation _ eq_refl)
    as (back & Hback & Hsame & (cleaned & Hph & Hphone) & _).
  eexists _, back. split; [reflexivity|]. split; [exact Hback|].
  split; [by rewrite (Hsame "guestName") by set_solver|].
  split; [|reflexivity].
  vm_compute in Hph. injection Hph as <-. exact Hphone.
Defined.

(** ** Failures of a transformation, and the refresh endpoint *)

(** X28. [execute] returns exactly what [transform] returned after a
    validation that answered true.  A failure on an input that serializes
    (anything but undefined) is rethrown as it is, a validation that answered
    false as Input validation failed; on undefined the log entry of the
    catch block throws first, so every failure surfaces as its TypeError.
    [transform] of the registry throws for a name that is not registered. *)
Theorem execute_failures t input :
  (forall out, BaseTransformer.execute t input = Ok out <->
     tr_validate t input = Ok true /\ tr_transform t input = Ok out) /\
  (forall msg, input <> Js.Undefined ->
     (BaseTransformer.execute t input = Throw msg <->
      tr_validate t input = Throw msg \/
      (tr_validate t input = Ok false /\ msg = "Input validation failed") \/
      (tr_validate t input = Ok true /\ tr_transform t input = Throw msg))) /\
  (forall msg, input = Js.Undefined ->
     BaseTransformer.execute t input = Throw msg ->
     msg = "Cannot read properties of undefined (reading 'substring')") /\
  (forall registry nm, registry !! nm = None ->
     TransformerRegistry.transform registry nm input
     = Throw ("Transformer " ++ dq ++ nm ++ dq ++ " not found")) /\
  (forall registry nm, registry !! nm = Some t ->
     TransformerRegistry.transform registry nm input = BaseTransformer.execute t input).
Proof.
  unfold TransformerRegistry.transform, TransformerRegistry.get, BaseTransformer.execute.
  split_and!.
  - intros out. destruct (tr_validate t input) as [[|]|e]; simpl.
    + destruct (tr_transform t input) as [o|e]; simpl.
      * naive_solver.
      * destruct (Js.stringify input); naive_solver.
    + destruct (Js.stringify input); naive_solver.
    + destruct (Js.stringify input); naive_solver.
  - intros msg Hdef.
    assert (Hs : exists txt, Js.stringify input = Some txt).
    { destruct input as [| |[|]| | | |]; simpl; try done; eauto. }
    destruct Hs as [txt ->].
    destruct (tr_validate t input) as [[|]|e]; simpl.
    + destruct (tr_transform t input) as [o|e]; naive_solver.
    + naive_solver.
    + naive_solver.
  - intros msg ->. simpl.
    destruct (tr_validate t Js.Undefined) as [[|]|e]; simpl; [|naive_solver..].
    destruct (tr_transform t Js.Undefined); naive_solver.
  - by intros registry nm ->.
  - by intros registry nm ->.
Qed.

Section RefreshEndpoint.

Variable jwtSecret : string.
Variable jwt_sign : TokenPayload -> string -> Z -> Z -> string.

Lemma refreshAccessToken_None refresh now d db db' :
  refreshAccessToken jwtSecret jwt_sign refresh now d db = (Ok None, db') -> db' = db.
Proof.
  unfold refreshAccessToken, saveSession, revokeSession, bind, gets, modify, ret.
  destruct (Sql.select_by_refresh refresh db) as [s|]; [|by intros [= <-]].
  destruct (s_refresh_expires_at s <? now); [by intros [= <-]|].
  destruct (Sql.select_client (s_client_id s) db) as [c|]; [|by intros [= <-]].
  destruct (bool_decide (cl_is_active c = 1)); simpl; [|by intros [= <-]].
  by destruct (Sql.insert_session _ _ _ _ _ _ _) as [[id|msg] db1].
Qed.

(** X29. POST /auth/refresh answers 200, 400, 401 or 500: 400 exactly when
    refresh_token or grant_type is absent or empty or the grant type is not
    refresh_token, whatever the token; 401 exactly when the request is
    complete and [refreshAccessToken] returned null; 200 exactly when it
    returned a pair, which is then the body.  A 400 or a 401 leaves the
    store as it was. *)
Theorem refresh_endpoint req now d db r db' :
  AuthController.refresh jwtSecret jwt_sign req now d db = (r, db') ->
  let complete tok :=
    AuthController.rq_refresh_token req = Some tok /\ tok <> EmptyString /\
    AuthController.rq_refresh_grant_type req = Some "refresh_token" in
  (AuthController.status r = 200 \/ AuthController.status r = 400 \/
   AuthController.status r = 401 \/ AuthController.status r = 500) /\
  (AuthController.status r = 400 <-> ~ exists tok, complete tok) /\
  (AuthController.status r = 401 <->
   exists tok, complete tok /\
     refreshAccessToken jwtSecret jwt_sign tok now d db = (Ok None, db)) /\
  (AuthController.status r = 200 <->
   exists tok t, complete tok /\
     refreshAccessToken jwtSecret jwt_sign tok now d db = (Ok (Some t), db') /\
     AuthController.body r = AuthController.TokenBody t) /\
  (AuthController.status r = 400 \/ AuthController.status r = 401 -> db' = db).
Proof.
  intros H. unfold AuthController.refresh in H. cbv zeta.
  destruct req as [[tok|] [gt|]]; simpl in *;
    try (injection H as <- <-; simpl; split_and!; naive_solver).
  destruct (bool_decide_reflect (tok = EmptyString)) as [Hc|Hc]; simpl in H;
    [injection H as <- <-; simpl; split_and!; naive_solver|].
  destruct (bool_decide_reflect (gt = EmptyString)) as [Hg|Hg]; simpl in H;
    [injection H as <- <-; simpl; split_and!; naive_solver|].
  destruct (bool_decide_reflect (gt = "refresh_token")) as [->|Hgt]; simpl in H;
    [|injection H as <- <-; simpl; split_and!; naive_solver].
  destruct (refreshAccessToken _ _ tok now d db) as [[[t|]|msg] db1] eqn:Hrf;
    injection H as <- <-; simpl.
  - split_and!; try naive_solver.
    split; [done|]. intros (tok0 & ([= <-] & _) & Hnone). congruence.
  - pose proof (refreshAccessToken_None _ _ _ _ _ Hrf) as Heq. subst db1.
    split_and!; naive_solver.
  - split_and!; try naive_solver.
    split; [done|]. intros (tok0 & ([= <-] & _) & Hnone). congruence.
Qed.

End RefreshEndpoint.

Lemma refresh_endpoint_witness :
  AuthController.status
    (fst (AuthController.refresh "k." demo_sign
            {| AuthController.rq_refresh_token := Some "r1";
               AuthController.rq_refresh_grant_type := Some "refresh_token" |}
            1000 demo_draw demo_db)) = 200 /\
  AuthController.status
    (fst (AuthController.refresh "k." demo_sign
            {| AuthController.rq_refresh_token := Some "r1";
               AuthController.rq_refresh_grant_type := Some "client_credentials" |}
            1000 demo_draw demo_db)) = 400.
Proof.
  split; [reflexivity|].
  apply (proj1 (proj2 (refresh_endpoint "k." demo_sign
                  {| AuthController.rq_refresh_token := Some "r1";
                     AuthController.rq_refresh_grant_type := Some "client_credentials" |}
                  1000 demo_draw demo_db _ _ eq_refl))).
  intros (tok & _ & _ & Hg). discriminate.
Defined.

Lemma forward_outcomes_witness :
  let req := {| ProxyController.param_integration := "booking_engine";
                ProxyController.param_endpoint := "refundReservation";
                ProxyController.req_body := Js.Obj [];
                ProxyController.req_query := [] |} in
  ProxyController.forward (defaultIntegrations no_env) ∅ upstream_ok req
  = ({| ProxyController.status := 404;
        ProxyController.body :=
          ProxyController.Error "endpoint_not_found"
            ("Endpoint " ++ dq ++ "refundReservation" ++ dq ++ " not found in integration "
             ++ dq ++ "booking_engine" ++ dq) None |}, []).
Proof.
  intros req.
  assert (Hown : own_name (ProxyController.param_endpoint req)).
  { intros H. apply list_elem_of_In in H. vm_compute in H. intuition discriminate. }
  destruct (forward_outcomes (defaultIntegrations no_env) ∅ upstream_ok req Hown)
    as [(_ & _ & _)|[(_ & _ & _)|(client & _ & _)]]; reflexivity.
Defined.

Lemma validate_spec_witness :
  BookingReservationTransformer.validate demo_Date_of demo_valid_reservation = Ok true /\
  BookingReservationTransformer.validate demo_Date_of Js.Null = Ok false.
Proof.
  split.
  - apply (validate_spec demo_Date_of demo_valid_reservation eq_refl).
    { unfold ascii_only. vm_compute. repeat constructor. }
    split; [done|]. split; [done|]. split.
    { intros f Hf. unfold BookingReservationTransformer.required in Hf.
      repeat (apply elem_of_cons in Hf as [->|Hf]; [reflexivity|]).
      by apply elem_of_nil in Hf. }
    split; [by vm_compute|]. exists 1736899200000, 1737331200000.
    split; [reflexivity|]. split; [reflexivity|lia].
  - apply (validate_spec demo_Date_of Js.Null eq_refl).
    { unfold ascii_only. vm_compute. repeat constructor. }
    by left.
Defined.
